(** * ResumeBuilder (app.js): form/preview synchronisation and persistence

    A shallow embedding of the [ResumeBuilder] class of [src/app.js].

    - JavaScript strings are sequences of UTF-16 code units ([jsstring]).
    - The page ([document]) is a finite map from element ids to elements;
      [localStorage] is a finite map from keys to strings.
    - Methods are computations in a state monad with JavaScript exceptions
      ([JS]): a [throw] keeps the writes made before it.
    - [JSON.parse], [JSON.stringify] belong to the host; the methods are
      written against the interface [JSONHost], and [refJSON] is a reference
      implementation of it.
    - The constructor and the two handlers of the window run over a
      [Runtime]: the page and the listeners registered so far ([Startup]).
    - Not modelled: elements without an id, the rendering of markup, the
      dispatch of events and the delays of [setTimeout] ([printResume]). *)

From Stdlib Require Import NArith String Ascii List Lia.
From stdpp Require Import base option list gmap pretty.

Local Open Scope N_scope.
Set Warnings "-register-all".

(** ** JavaScript strings *)

Module JSString.

(** A string is its sequence of UTF-16 code units. *)
Abbreviation jsstring := (list N).

(** An ASCII literal of the source. *)
Definition js (s : string) : jsstring :=
  (λ a, N_of_ascii a) <$> list_ascii_of_string s.

(** [WhiteSpace] and [LineTerminator] of ECMAScript: what
    [String.prototype.trim] strips. All of them are single code units. *)
Definition is_whitespace (c : N) : bool :=
  (9 <=? c) && (c <=? 13)
  || (c =? 32) || (c =? 160) || (c =? 5760)
  || (8192 <=? c) && (c <=? 8202)
  || (c =? 8232) || (c =? 8233) || (c =? 8239) || (c =? 8287)
  || (c =? 12288) || (c =? 65279).

Fixpoint trimStart (s : jsstring) : jsstring :=
  match s with
  | c :: r => if is_whitespace c then trimStart r else s
  | [] => []
  end.

Definition trimEnd (s : jsstring) : jsstring := rev (trimStart (rev s)).

(** [s.trim()] *)
Definition trim (s : jsstring) : jsstring := trimEnd (trimStart s).

(** [s.split(sep)] for a separator of one code unit: never the empty
    list, [''.split(sep)] is [['']]. *)
Fixpoint split (sep : N) (s : jsstring) : list jsstring :=
  match s with
  | [] => [[]]
  | c :: r =>
      if c =? sep then [] :: split sep r
      else match split sep r with
           | l :: ls => (c :: l) :: ls
           | [] => [[c]]
           end
  end.

(** [s.startsWith(p)] *)
Fixpoint startsWith (s p : jsstring) {struct p} : bool :=
  match p, s with
  | [], _ => true
  | _ :: _, [] => false
  | a :: p', b :: s' => (a =? b) && startsWith s' p'
  end.

(** [l.join('')] *)
Definition join_empty (l : list jsstring) : jsstring := concat l.

(** A string is truthy when it is not empty. *)
Definition nonempty (s : jsstring) : bool :=
  match s with [] => false | _ => true end.

(** Code units with a name in the source. *)
Definition LF : N := 10.
Definition QUOTE : N := 34.
Definition HYPHEN : N := 45.
Definition BULLET : N := 8226.

End JSString.
Import JSString.

(** ** Object literals

    An object literal with string keys is the list of its properties in
    insertion order, which is the order of [Object.keys]. None of the keys
    used here is an integer index, so no key is reordered. *)

Abbreviation object V := (list (jsstring * V)).

Definition Object_keys {V} (o : object V) : list jsstring := o.*1.

(** The properties that every object inherits from [Object.prototype]
    (ECMAScript, with its Annex B). *)
Definition ObjectPrototype_names : list jsstring :=
  [ js "constructor"; js "hasOwnProperty"; js "isPrototypeOf";
    js "propertyIsEnumerable"; js "toLocaleString"; js "toString";
    js "valueOf"; js "__proto__"; js "__defineGetter__";
    js "__defineSetter__"; js "__lookupGetter__"; js "__lookupSetter__" ].

(** [o[k]] for an own property of [o]: [None] is [undefined]. This is
    [o[k]] for every [k] that is not in [ObjectPrototype_names]. For a name
    of that list that is not an own property, [o[k]] is the inherited
    function or object, which [get] does not give: no key of the tables of
    the constructor is such a name, and the statements about a key that
    the program does not choose itself exclude these names. *)
Fixpoint get {V} (o : object V) (k : jsstring) : option V :=
  match o with
  | [] => None
  | (k', v) :: o' => if decide (k' = k) then Some v else get o' k
  end.

(** [o[k] = v]: a new key goes last, an old one keeps its place. *)
Fixpoint set {V} (o : object V) (k : jsstring) (v : V) : object V :=
  match o with
  | [] => [(k, v)]
  | (k', v') :: o' =>
      if decide (k' = k) then (k', v) :: o' else (k', v') :: set o' k v
  end.

(** ** The tables of the constructor *)

Definition fieldMappings : object jsstring :=
  [ (js "input-name", js "preview-name");
    (js "input-title", js "preview-title");
    (js "input-phone", js "preview-phone");
    (js "input-email", js "preview-email");
    (js "input-location", js "preview-location");
    (js "input-linkedin", js "preview-linkedin");
    (js "input-summary", js "preview-summary");
    (js "input-experience", js "preview-experience");
    (js "input-education", js "preview-education");
    (js "input-skills", js "preview-skills") ].

Definition defaultValues : object jsstring :=
  [ (js "preview-name", js "Your Name");
    (js "preview-title", js "Professional Title");
    (js "preview-phone", js "Phone");
    (js "preview-email", js "Email");
    (js "preview-location", js "Location");
    (js "preview-linkedin", js "LinkedIn");
    (js "preview-summary", js "Your professional summary will appear here...");
    (js "preview-experience", js "Your work experience will appear here...");
    (js "preview-education", js "Your education details will appear here...");
    (js "preview-skills", js "Your skills will appear here...") ].

(** The array literal of [updatePreview] and [clearAllData]. *)
Definition multilineIds : list jsstring :=
  [ js "preview-experience"; js "preview-education"; js "preview-skills" ].

(** [l.includes(x)], where [x] may be [undefined] ([None]). *)
Definition includes (l : list jsstring) (x : option jsstring) : bool :=
  match x with
  | Some s => bool_decide (s ∈ l)
  | None => false
  end.

(** ** formatMultilineContent *)

(** [`<div class="bullet-point">${line}</div>`] *)
Definition bulletDiv (line : jsstring) : jsstring :=
  js "<div class=" ++ [QUOTE] ++ js "bullet-point" ++ [QUOTE] ++ js ">"
    ++ line ++ js "</div>".

(** [`<div>${line}</div>`] *)
Definition plainDiv (line : jsstring) : jsstring :=
  js "<div>" ++ line ++ js "</div>".

(** The callback of the second [map]. *)
Definition renderLine (line : jsstring) : jsstring :=
  if startsWith line [BULLET] || startsWith line [HYPHEN]
  then bulletDiv line
  else plainDiv line.

(** [content === this.defaultValues['preview-' + content]] *)
Definition isOwnDefault (content : jsstring) : bool :=
  bool_decide (get defaultValues (js "preview-" ++ content) = Some content).

Definition formatMultilineContent (content : jsstring) : jsstring :=
  if negb (nonempty content) || isOwnDefault content then content
  else
    join_empty
      (renderLine <$>
         filter (λ line, (0 < length line)%nat) (trim <$> split LF content)).

(** ** Values read back from storage

    What [JSON.parse] can return. A number is kept as the two observations
    this program can make of it, [ToBoolean] and [ToString]. *)

Record JSNumber := { num_truthy : bool; num_toString : jsstring }.

Inductive JSValue :=
| JNull
| JBool (b : bool)
| JNum (n : JSNumber)
| JStr (s : jsstring)
| JArr (l : list JSValue)
| JObj (o : list (jsstring * JSValue)).

Inductive JSError := TypeError | SyntaxError.

(** [ToBoolean] *)
Definition ToBoolean (v : JSValue) : bool :=
  match v with
  | JNull => false
  | JBool b => b
  | JNum n => num_truthy n
  | JStr s => nonempty s
  | JArr _ | JObj _ => true
  end.

(** [l.join(',')] *)
Fixpoint join_comma (l : list jsstring) : jsstring :=
  match l with
  | [] => []
  | [s] => s
  | s :: l' => s ++ js "," ++ join_comma l'
  end.

(** The string that the setter of [value] stores: [ToString], but the
    empty string for [null]. An array prints its elements joined by commas,
    [null] elements as the empty string. The result is meant only where
    [ToString_throws] below is [false]. *)
Fixpoint ToString (v : JSValue) : jsstring :=
  match v with
  | JNull => []
  | JBool true => js "true"
  | JBool false => js "false"
  | JNum n => num_toString n
  | JStr s => s
  | JArr l =>
      join_comma
        ((fix elems (l : list JSValue) : list jsstring :=
            match l with
            | [] => []
            | JNull :: l' => [] :: elems l'
            | x :: l' => ToString x :: elems l'
            end) l)
  | JObj _ => js "[object Object]"
  end.

(** Whether [ToString] throws a [TypeError] instead: on an object with an
    own property [toString] (a parsed value is never a function, so
    neither it nor the inherited [valueOf] gives a primitive), and on an
    array that has such an element. *)
Fixpoint ToString_throws (v : JSValue) : bool :=
  match v with
  | JArr l => existsb ToString_throws l
  | JObj o => bool_decide (js "toString" ∈ o.*1)
  | _ => false
  end.

(** The key of the array index [i]. *)
Definition indexKey (i : nat) : jsstring := js (pretty (N.of_nat i)).

(** The own enumerable properties of a value that is not [null], in the
    order of [Object.keys]. *)
Definition ownProperties (v : JSValue) : object JSValue :=
  match v with
  | JNull | JBool _ | JNum _ => []
  | JStr s => imap (λ i c, (indexKey i, JStr [c])) s
  | JArr l => imap (λ i x, (indexKey i, x)) l
  | JObj o => o
  end.

(** ** The JSON interface of the host *)

Class JSONHost := {
  (** [JSON.parse(text)]: [None] when it throws a [SyntaxError]. *)
  JSON_parse : jsstring → option JSValue;
  (** [JSON.stringify(formData)], for an object whose values are strings. *)
  JSON_stringify : object jsstring → jsstring
}.

(** An object with string values, as a value. *)
Definition snapshotValue (formData : object jsstring) : JSValue :=
  JObj (prod_map id JStr <$> formData).

(** A key that [Object.keys] may move to the front. *)
Definition startsWithDigit (k : jsstring) : bool :=
  match k with c :: _ => (48 <=? c) && (c <=? 57) | [] => false end.

(** What the program relies on: the text of an object is never the empty
    string, and parsing it gives the object back. *)
Class JSONLaws (H : JSONHost) : Prop := {
  JSON_stringify_nonempty formData : JSON_stringify formData ≠ [];
  JSON_parse_stringify formData :
    NoDup (Object_keys formData) →
    Forall (λ k, startsWithDigit k = false) (Object_keys formData) →
    JSON_parse (JSON_stringify formData) = Some (snapshotValue formData)
}.

(** ** The page, the storage and the instance *)

(** What an element shows: the string last assigned to [textContent] or to
    [innerHTML]. *)
Inductive Content :=
| TextContent (s : jsstring)
| InnerHTML (s : jsstring).

(** An element of the page, with the properties the program reads or
    writes. [value] is the value of a form control. *)
Record Element := {
  value : jsstring;
  content : Content;
  href : jsstring;
  classList : list jsstring
}.

Record State := {
  (** the elements of the page that have an id *)
  document : gmap jsstring Element;
  localStorage : gmap jsstring jsstring;
  (** [this.currentTheme] *)
  currentTheme : jsstring;
  (** what [console.error] has reported *)
  console : list JSError
}.

Definition with_document (f : gmap jsstring Element → gmap jsstring Element)
    (st : State) : State :=
  {| document := f (document st); localStorage := localStorage st;
     currentTheme := currentTheme st; console := console st |}.

Definition with_localStorage (f : gmap jsstring jsstring → gmap jsstring jsstring)
    (st : State) : State :=
  {| document := document st; localStorage := f (localStorage st);
     currentTheme := currentTheme st; console := console st |}.

Definition with_currentTheme (t : jsstring) (st : State) : State :=
  {| document := document st; localStorage := localStorage st;
     currentTheme := t; console := console st |}.

Definition with_console (f : list JSError → list JSError) (st : State) : State :=
  {| document := document st; localStorage := localStorage st;
     currentTheme := currentTheme st; console := f (console st) |}.

(** ** Computations: state and exceptions *)

Inductive Completion (A : Type) :=
| Normal (a : A)
| Throw (e : JSError).
Arguments Normal {A} a.
Arguments Throw {A} e.

Definition JS (A : Type) : Type := State → Completion A * State.

Global Instance JS_ret : MRet JS := λ A a st, (Normal a, st).

Global Instance JS_bind : MBind JS := λ A B f m st,
  match m st with
  | (Normal a, st') => f a st'
  | (Throw e, st') => (Throw e, st')
  end.

Definition throw {A} (e : JSError) : JS A := λ st, (Throw e, st).

(** [try { body } catch (error) { handler(error) }] *)
Definition try_catch (body : JS unit) (handler : JSError → JS unit) : JS unit :=
  λ st,
    match body st with
    | (Normal a, st') => (Normal a, st')
    | (Throw e, st') => handler e st'
    end.

Definition gets {A} (f : State → A) : JS A := λ st, (Normal (f st), st).
Definition modify (f : State → State) : JS unit := λ st, (Normal (), f st).

(** [l.forEach(f)]: an exception ends the iteration. *)
Fixpoint forEach {A} (l : list A) (f : A → JS unit) : JS unit :=
  match l with
  | [] => mret ()
  | x :: l' => f x ;; forEach l' f
  end.

(** The state a computation ends in, and how it ends. *)
Definition exec {A} (m : JS A) (st : State) : State := (m st).2.
Definition completion {A} (m : JS A) (st : State) : Completion A := (m st).1.

(** ** The host objects *)

(** A reference to an element of the page: its id. *)
Abbreviation ElementRef := jsstring.

(** [document.getElementById(id)]: [None] is [null]. *)
Definition getElementById (id : jsstring) : JS (option ElementRef) :=
  gets (λ st, match document st !! id with Some _ => Some id | None => None end).

(** [document.querySelectorAll('.' + cls)] *)
Definition querySelectorAll_class (cls : jsstring) : JS (list ElementRef) :=
  gets (λ st,
    (map_to_list (filter (λ kv, cls ∈ classList kv.2) (document st))).*1).

Definition get_value (e : ElementRef) : JS jsstring :=
  gets (λ st, default [] (value <$> document st !! e)).

Definition with_value (v : jsstring) (el : Element) : Element :=
  {| value := v; content := content el; href := href el;
     classList := classList el |}.

Definition with_content (c : Content) (el : Element) : Element :=
  {| value := value el; content := c; href := href el;
     classList := classList el |}.

Definition with_href (s : jsstring) (el : Element) : Element :=
  {| value := value el; content := content el; href := s;
     classList := classList el |}.

Definition with_classList (f : list jsstring → list jsstring) (el : Element)
    : Element :=
  {| value := value el; content := content el; href := href el;
     classList := f (classList el) |}.

(** [e.value = v] *)
Definition set_value (e : ElementRef) (v : jsstring) : JS unit :=
  modify (with_document (alter (with_value v) e)).

Definition set_content (e : ElementRef) (c : Content) : JS unit :=
  modify (with_document (alter (with_content c) e)).

(** [e.value = v] for a value read back from storage: the conversion to a
    string may throw, before anything is written. *)
Definition assign_value (e : ElementRef) (v : JSValue) : JS unit :=
  if ToString_throws v then throw TypeError else set_value e (ToString v).

(** [e.textContent = s]; [undefined] is written as the empty string. *)
Definition set_textContent (e : ElementRef) (s : option jsstring) : JS unit :=
  set_content e (TextContent (default [] s)).

(** [e.innerHTML = s] *)
Definition set_innerHTML (e : ElementRef) (s : jsstring) : JS unit :=
  set_content e (InnerHTML s).

(** [e.href = s] *)
Definition set_href (e : ElementRef) (s : jsstring) : JS unit :=
  modify (with_document (alter (with_href s) e)).

Definition set_classList (f : list jsstring → list jsstring) (e : ElementRef)
    : JS unit :=
  modify (with_document (alter (with_classList f) e)).

(** [e.classList.remove(cls)] *)
Definition classList_remove (e : ElementRef) (cls : jsstring) : JS unit :=
  set_classList (filter (λ c, c ≠ cls)) e.

(** [e.classList.add(cls)] *)
Definition classList_add (e : ElementRef) (cls : jsstring) : JS unit :=
  set_classList (λ l, if decide (cls ∈ l) then l else l ++ [cls]) e.

(** [localStorage.getItem(key)]: [None] is [null]. *)
Definition getItem (key : jsstring) : JS (option jsstring) :=
  gets (λ st, localStorage st !! key).

Definition setItem (key v : jsstring) : JS unit :=
  modify (with_localStorage (insert key v)).

Definition removeItem (key : jsstring) : JS unit :=
  modify (with_localStorage (delete key)).

(** [console.error(..., error)] *)
Definition console_error (error : JSError) : JS unit :=
  modify (with_console (λ log, log ++ [error])).

(** [value.trim()]: only a string has the method. *)
Definition call_trim (v : JSValue) : JS jsstring :=
  match v with
  | JStr s => mret (trim s)
  | _ => throw TypeError
  end.

(** [Object.keys(v)] *)
Definition Object_keys_of (v : JSValue) : JS (list jsstring) :=
  match v with
  | JNull => throw TypeError
  | _ => mret (Object_keys (ownProperties v))
  end.

(** ** The methods of ResumeBuilder *)

Module ResumeBuilder.
Section methods.
Context {host : JSONHost}.

(** A property key or an element id made from a value that may be
    [undefined]. *)
Definition keyOf (k : option jsstring) : jsstring :=
  default (js "undefined") k.

Definition updatePreview (inputId : jsstring) (value : JSValue) : JS unit :=
  let previewId := get fieldMappings inputId in
  previewElement ← getElementById (keyOf previewId);
  match previewElement with
  | Some previewElement =>
    trimmed ← call_trim value;
    let displayValue :=
      if nonempty trimmed then Some trimmed
      else get defaultValues (keyOf previewId) in
    if bool_decide (previewId = Some (js "preview-summary")) then
      set_textContent previewElement displayValue
    else if includes multilineIds previewId then
      (* every id of [multilineIds] has a default, so [displayValue]
         is a string here; [undefined] would be written as its name *)
      set_innerHTML previewElement
        (from_option formatMultilineContent (js "undefined") displayValue)
    else
      set_textContent previewElement displayValue
  | None => mret ()
  end.

Definition switchTheme (themeName : jsstring) : JS unit :=
  themeStylesheet ← getElementById (js "theme-stylesheet");
  themeButtons ← querySelectorAll_class (js "theme-btn");
  match themeStylesheet with
  | Some themeStylesheet =>
    set_href themeStylesheet (js "theme-" ++ themeName ++ js ".css") ;;
    modify (with_currentTheme themeName) ;;
    forEach themeButtons (λ btn, classList_remove btn (js "active")) ;;
    button ← getElementById (js "theme-" ++ themeName);
    match button with
    | Some button => classList_add button (js "active")
    | None => throw TypeError
    end ;;
    setItem (js "resumeTheme") themeName
  | None => mret ()
  end.

Definition initializeTheme : JS unit :=
  stored ← getItem (js "resumeTheme");
  let savedTheme :=
  match stored with
  | Some t => if nonempty t then t else js "modern"
  | None => js "modern"
  end in
  switchTheme savedTheme.

(** The [forEach] of [saveToStorage], threading the local [formData]. *)
Fixpoint collectFormData (inputIds : list jsstring) (formData : object jsstring)
  : JS (object jsstring) :=
  match inputIds with
  | [] => mret formData
  | inputId :: rest =>
    inputElement ← getElementById inputId;
    match inputElement with
    | Some inputElement =>
        v ← get_value inputElement;
        collectFormData rest (set formData inputId v)
    | None => collectFormData rest formData
    end
  end.

Definition saveToStorage : JS unit :=
  formData ← collectFormData (Object_keys fieldMappings) [];
  setItem (js "resumeFormData") (JSON_stringify formData).

(** The body of the listeners of ['input'] and ['paste'], where
    [targetValue] is [e.target.value]. *)
Definition onFieldChange (inputId targetValue : jsstring) : JS unit :=
  updatePreview inputId (JStr targetValue) ;;
  saveToStorage.

(** [JSON.parse(savedData)] *)
Definition call_JSON_parse (text : jsstring) : JS JSValue :=
  match JSON_parse text with
  | Some v => mret v
  | None => throw SyntaxError
  end.

Definition loadFromStorage : JS unit :=
  savedData ← getItem (js "resumeFormData");
  match savedData with
  | Some savedData =>
    if nonempty savedData then
      try_catch
        (formData ← call_JSON_parse savedData;
         keys ← Object_keys_of formData;
         forEach keys (λ inputId,
           inputElement ← getElementById inputId;
           match inputElement, get (ownProperties formData) inputId with
           | Some inputElement, Some v =>
               if ToBoolean v then
                 assign_value inputElement v ;;
                 updatePreview inputId v
               else mret ()
           | _, _ => mret ()
           end))
        (λ error, console_error error)
    else mret ()
  | None => mret ()
  end.

(** [confirmed] is the answer of the user to [confirm(...)]. *)
Definition clearAllData (confirmed : bool) : JS unit :=
  if confirmed then
  forEach (Object_keys fieldMappings) (λ inputId,
    inputElement ← getElementById inputId;
    match inputElement with
    | Some inputElement => set_value inputElement []
    | None => mret ()
    end) ;;
  forEach (Object_keys fieldMappings) (λ inputId,
    let previewId := get fieldMappings inputId in
    previewElement ← getElementById (keyOf previewId);
    match previewElement with
    | Some previewElement =>
        let defaultValue := get defaultValues (keyOf previewId) in
        if includes multilineIds previewId then
          set_innerHTML previewElement (default (js "undefined") defaultValue)
        else
          set_textContent previewElement defaultValue
    | None => mret ()
    end) ;;
  removeItem (js "resumeFormData")
  else mret ().
End methods.
End ResumeBuilder.
Import ResumeBuilder.

(** ** A reference implementation of the JSON interface

    [JSON.stringify] on an object of strings and [JSON.parse] on any text,
    following the JSON grammar. The conversion of the text of a number to a
    number is left to the parameter [numberOf]. *)

Module RefJSON.

(** *** QuoteJSONString *)

Definition hexDigit (d : N) : N := if d <? 10 then 48 + d else 87 + d.

(** [\uXXXX], with lowercase digits *)
Definition unicodeEscape (c : N) : jsstring :=
  [92; 117; hexDigit (c / 4096 mod 16); hexDigit (c / 256 mod 16);
   hexDigit (c / 16 mod 16); hexDigit (c mod 16)].

Definition isLeadSurrogate (c : N) : bool := (55296 <=? c) && (c <=? 56319).
Definition isTrailSurrogate (c : N) : bool := (56320 <=? c) && (c <=? 57343).

(** A code unit that is not a surrogate. *)
Definition quoteChar (c : N) : jsstring :=
  if c =? 8 then [92; 98]
  else if c =? 9 then [92; 116]
  else if c =? 10 then [92; 110]
  else if c =? 12 then [92; 102]
  else if c =? 13 then [92; 114]
  else if c =? 34 then [92; 34]
  else if c =? 92 then [92; 92]
  else if c <? 32 then unicodeEscape c
  else [c].

(** A surrogate pair is copied, a lone surrogate is escaped. *)
Fixpoint quoteChars (s : jsstring) : jsstring :=
  match s with
  | [] => []
  | c :: r =>
      if isLeadSurrogate c then
        match r with
        | d :: r' =>
            if isTrailSurrogate d then c :: d :: quoteChars r'
            else unicodeEscape c ++ quoteChars r
        | [] => unicodeEscape c
        end
      else if isTrailSurrogate c then unicodeEscape c ++ quoteChars r
      else quoteChar c ++ quoteChars r
  end.

Definition quote (s : jsstring) : jsstring :=
  [QUOTE] ++ quoteChars s ++ [QUOTE].

Definition member (kv : jsstring * jsstring) : jsstring :=
  quote kv.1 ++ js ":" ++ quote kv.2.

Definition stringify (formData : object jsstring) : jsstring :=
  js "{" ++ join_comma (member <$> formData) ++ js "}".

(** *** Parsing *)

Definition isJSONWhitespace (c : N) : bool :=
  (c =? 32) || (c =? 9) || (c =? 10) || (c =? 13).

Fixpoint skipWhitespace (s : jsstring) : jsstring :=
  match s with
  | c :: r => if isJSONWhitespace c then skipWhitespace r else s
  | [] => []
  end.

Definition hexValue (c : N) : option N :=
  if (48 <=? c) && (c <=? 57) then Some (c - 48)
  else if (97 <=? c) && (c <=? 102) then Some (c - 87)
  else if (65 <=? c) && (c <=? 70) then Some (c - 55)
  else None.

(** The code unit of the character after a backslash, [u] apart. *)
Definition simpleEscape (e : N) : option N :=
  if e =? 34 then Some 34
  else if e =? 92 then Some 92
  else if e =? 47 then Some 47
  else if e =? 98 then Some 8
  else if e =? 102 then Some 12
  else if e =? 110 then Some 10
  else if e =? 114 then Some 13
  else if e =? 116 then Some 9
  else None.

(** The characters of a string after its opening quote, up to the
    closing one; [acc] holds the decoded prefix, reversed. *)
Fixpoint readString (s : jsstring) (acc : jsstring)
    : option (jsstring * jsstring) :=
  match s with
  | [] => None
  | c :: r =>
      if c =? 34 then Some (rev acc, r)
      else if c =? 92 then
        match r with
        | [] => None
        | e :: r1 =>
            if e =? 117 then
              match r1 with
              | h1 :: h2 :: h3 :: h4 :: r5 =>
                  match hexValue h1, hexValue h2, hexValue h3, hexValue h4 with
                  | Some a, Some b, Some c, Some d =>
                      readString r5 (4096 * a + 256 * b + 16 * c + d :: acc)
                  | _, _, _, _ => None
                  end
              | _ => None
              end
            else
              match simpleEscape e with
              | Some x => readString r1 (x :: acc)
              | None => None
              end
        end
      else if c <? 32 then None
      else readString r (c :: acc)
  end.

Definition isDigit (c : N) : bool := (48 <=? c) && (c <=? 57).

(** The longest prefix of digits, and what follows it. *)
Fixpoint spanDigits (s : jsstring) : jsstring * jsstring :=
  match s with
  | c :: r =>
      if isDigit c then let '(ds, rest) := spanDigits r in (c :: ds, rest)
      else ([], s)
  | [] => ([], [])
  end.

(** The text of a number at the head of [s]. *)
Definition readNumber (s : jsstring) : option (jsstring * jsstring) :=
  let '(sign, s1) :=
    match s with
    | c :: r => if c =? 45 then ([c], r) else ([], s)
    | [] => ([], s)
    end in
  let '(int, s2) := spanDigits s1 in
  match int with
  | [] => None
  | d :: ds =>
      if (d =? 48) && nonempty ds then None
      else
        frac ←
          match s2 with
          | c :: r =>
              if c =? 46 then
                let '(fs, s3) := spanDigits r in
                if nonempty fs then Some (c :: fs, s3) else None
              else Some ([], s2)
          | [] => Some ([], s2)
          end;
        let '(fracText, s3) := frac in
        expo ←
          match s3 with
          | c :: r =>
              if (c =? 101) || (c =? 69) then
                let '(esign, r1) :=
                  match r with
                  | x :: r' =>
                      if (x =? 43) || (x =? 45) then ([x], r') else ([], r)
                  | [] => ([], r)
                  end in
                let '(es, s4) := spanDigits r1 in
                if nonempty es then Some (c :: esign ++ es, s4) else None
              else Some ([], s3)
          | [] => Some ([], s3)
          end;
        let '(expoText, s4) := expo in
        Some (sign ++ int ++ fracText ++ expoText, s4)
  end.

(** [s] without the prefix [p], when it has it. *)
Fixpoint expect (p s : jsstring) : option jsstring :=
  match p, s with
  | [], _ => Some s
  | a :: p', b :: s' => if a =? b then expect p' s' else None
  | _ :: _, [] => None
  end.

(** The value of a key that is an array index: [Object.keys] lists
    these first, in ascending order. *)
Definition arrayIndex (k : jsstring) : option N :=
  match k with
  | [] => None
  | d :: ds =>
      if forallb isDigit k && negb ((d =? 48) && nonempty ds) then
        let n := fold_left (λ n c, 10 * n + (c - 48)) k 0 in
        if n <? 4294967295 then Some n else None
      else None
  end.

Fixpoint insertIndexed {V} (n : N) (kv : jsstring * V)
    (l : list (N * (jsstring * V))) : list (N * (jsstring * V)) :=
  match l with
  | [] => [(n, kv)]
  | (m, x) :: l' =>
      if n <? m then (n, kv) :: l else (m, x) :: insertIndexed n kv l'
  end.

Definition orderKeys {V} (o : object V) : object V :=
  (foldr (λ '(n, kv) l, insertIndexed n kv l) []
     (omap (λ kv, n ← arrayIndex kv.1; Some (n, kv)) o)).*2
  ++ filter (λ kv, arrayIndex kv.1 = None) o.

Section parser.
Variable numberOf : jsstring → JSNumber.

Fixpoint parseValue (fuel : nat) (s : jsstring) : option (JSValue * jsstring) :=
  match fuel with
  | O => None
  | S fuel =>
      match skipWhitespace s with
      | [] => None
      | c :: r =>
          if c =? 34 then
            '(str, rest) ← readString r []; Some (JStr str, rest)
          else if c =? 123 then
            match skipWhitespace r with
            | 125 :: rest => Some (JObj [], rest)
            | _ => parseMembers fuel r []
            end
          else if c =? 91 then
            match skipWhitespace r with
            | 93 :: rest => Some (JArr [], rest)
            | _ => parseElements fuel r []
            end
          else if c =? 116 then rest ← expect (js "rue") r; Some (JBool true, rest)
          else if c =? 102 then rest ← expect (js "alse") r; Some (JBool false, rest)
          else if c =? 110 then rest ← expect (js "ull") r; Some (JNull, rest)
          else
            '(text, rest) ← readNumber (c :: r);
            Some (JNum (numberOf text), rest)
      end
  end
with parseMembers (fuel : nat) (s : jsstring) (acc : object JSValue)
    : option (JSValue * jsstring) :=
  match fuel with
  | O => None
  | S fuel =>
      s1 ← expect [QUOTE] (skipWhitespace s);
      '(key, s2) ← readString s1 [];
      s3 ← expect (js ":") (skipWhitespace s2);
      '(v, s4) ← parseValue fuel s3;
      let acc := set acc key v in
      match skipWhitespace s4 with
      | c :: rest =>
          if c =? 44 then parseMembers fuel rest acc
          else if c =? 125 then Some (JObj (orderKeys acc), rest)
          else None
      | [] => None
      end
  end
with parseElements (fuel : nat) (s : jsstring) (acc : list JSValue)
    : option (JSValue * jsstring) :=
  match fuel with
  | O => None
  | S fuel =>
      '(v, s1) ← parseValue fuel s;
      match skipWhitespace s1 with
      | c :: rest =>
          if c =? 44 then parseElements fuel rest (acc ++ [v])
          else if c =? 93 then Some (JArr (acc ++ [v]), rest)
          else None
      | [] => None
      end
  end.

(** A text of [n] code units needs less fuel than [2 * n + 2]: each call
    that passes fuel on has consumed a code unit, or is one of the two
    calls that follow a consumed bracket or comma. *)
Definition parse (text : jsstring) : option JSValue :=
  '(v, rest) ← parseValue (2 * length text + 2) text;
  match skipWhitespace rest with
  | [] => Some v
  | _ => None
  end.
End parser.

End RefJSON.

Definition refJSON (numberOf : jsstring → JSNumber) : JSONHost :=
  {| JSON_parse := RefJSON.parse numberOf; JSON_stringify := RefJSON.stringify |}.

(** The conversion of the text of an integer of at most fifteen digits: it
    is zero only when written [0] or [-0], and prints as it is written
    ([-0] as [0]). The examples below need no other number. *)
Definition integerNumber (text : jsstring) : JSNumber :=
  {| num_truthy := negb (bool_decide (text = js "0") || bool_decide (text = js "-0"));
     num_toString := if bool_decide (text = js "-0") then js "0" else text |}.

(** ** The reading of the specification

    Definitions that follow the words of the specification, to compare the
    methods with. *)

(** A rendered block of a multi-line preview. *)
Inductive Block :=
| BulletBlock (line : jsstring)
| PlainBlock (line : jsstring).



(** The markup of a block: a [div] around the line, of class
    [bullet-point] for a bullet block. It is written out in code units
    ([34] is the double quote), not taken from the templates of the
    method. *)
Definition renderBlock (b : Block) : jsstring :=
  match b with
  | BulletBlock l =>
      js "<div class=" ++ [34] ++ js "bullet-point" ++ [34] ++ js ">"
        ++ l ++ js "</div>"
  | PlainBlock l => js "<div>" ++ l ++ js "</div>"
  end.


(** One block per line that is not empty once trimmed, in order. *)
Fixpoint blocksOfLines (lines : list jsstring) : list Block :=
  match lines with
  | [] => []
  | l :: ls =>
      match trim l with
      | [] => blocksOfLines ls
      | c :: t =>
          (if (c =? BULLET) || (c =? HYPHEN) then BulletBlock (c :: t)
           else PlainBlock (c :: t)) :: blocksOfLines ls
      end
  end.

Definition formatMultiline_blocks (content : jsstring) : list Block :=
  blocksOfLines (split LF content).



(** The placeholder of a preview field. *)
Definition placeholder (previewId : jsstring) : jsstring :=
  default [] (get defaultValues previewId).

(** [trim(v) || placeholder] *)
Definition displayValueOf (previewId v : jsstring) : jsstring :=
  if nonempty (trim v) then trim v else placeholder previewId.

(** What [updatePreview] writes for the string [v], by the kind of the
    preview field. *)
Definition previewContent (previewId v : jsstring) : Content :=
  if includes multilineIds (Some previewId)
  then InnerHTML (formatMultilineContent (displayValueOf previewId v))
  else TextContent (displayValueOf previewId v).

(** What [clearAllData] writes. *)
Definition clearedContent (previewId : jsstring) : Content :=
  if includes multilineIds (Some previewId)
  then InnerHTML (placeholder previewId)
  else TextContent (placeholder previewId).

(** The string a preview was last given, as text or as markup. *)
Definition shown (c : Content) : jsstring :=
  match c with TextContent s | InnerHTML s => s end.

(** What the page holds for an element. *)
Definition valueOf (st : State) (id : jsstring) : option jsstring :=
  value <$> document st !! id.

Definition contentOf (st : State) (id : jsstring) : option Content :=
  content <$> document st !! id.

Definition classListOf (st : State) (id : jsstring) : option (list jsstring) :=
  classList <$> document st !! id.

(** The theme controls of the page: the stylesheet link, and the two
    selector buttons, which are the elements of class [theme-btn] with the
    ids [theme-modern] and [theme-classic]. *)
Definition isThemeButton (st : State) (id : jsstring) : Prop :=
  ∃ el, document st !! id = Some el ∧ js "theme-btn" ∈ classList el.

Definition themeControls (st : State) : Prop :=
  is_Some (document st !! js "theme-stylesheet")
  ∧ isThemeButton st (js "theme-modern")
  ∧ isThemeButton st (js "theme-classic").

(** The selector [id] is marked active. *)
Definition markedActive (st : State) (id : jsstring) : Prop :=
  ∃ l, classListOf st id = Some l ∧ js "active" ∈ l.

(** ** What the methods write

    The effect of each method on the page as a sequence of writes to single
    elements; the lemmas below relate the methods to these. *)

(** A write to one element of the page, and a sequence of them. *)
Abbreviation write := (jsstring * (Element → Element))%type.

Definition apply_writes (ws : list write) (doc : gmap jsstring Element)
    : gmap jsstring Element :=
  foldl (λ d w, alter w.2 w.1 d) doc ws.

(** What [updatePreview] writes for the string [v], by the result of the
    lookup in [fieldMappings], which is [undefined] ([None]) for an id that
    is not mapped. *)
Definition writtenContent (previewId : option jsstring) (v : jsstring) : Content :=
  let displayValue :=
    if nonempty (trim v) then Some (trim v)
    else get defaultValues (ResumeBuilder.keyOf previewId) in
  if bool_decide (previewId = Some (js "preview-summary")) then
    TextContent (default [] displayValue)
  else if includes multilineIds previewId then
    InnerHTML (from_option formatMultilineContent (js "undefined") displayValue)
  else TextContent (default [] displayValue).

(** What [clearAllData] writes for the result of the lookup in
    [fieldMappings]. *)
Definition clearedWritten (previewId : option jsstring) : Content :=
  let defaultValue := get defaultValues (ResumeBuilder.keyOf previewId) in
  if includes multilineIds previewId
  then InnerHTML (default (js "undefined") defaultValue)
  else TextContent (default [] defaultValue).

(** The object that [saveToStorage] builds from the page. *)
Fixpoint collected (doc : gmap jsstring Element) (inputIds : list jsstring)
    (formData : object jsstring) : object jsstring :=
  match inputIds with
  | [] => formData
  | inputId :: rest =>
      match doc !! inputId with
      | Some el => collected doc rest (set formData inputId (value el))
      | None => collected doc rest formData
      end
  end.

(** What [switchTheme] does to the classes of a button. *)
Definition removeActive : list jsstring → list jsstring :=
  filter (λ c, c ≠ js "active").

Definition addActive (l : list jsstring) : list jsstring :=
  if decide (js "active" ∈ l) then l else l ++ [js "active"].

(** The ids of [document.querySelectorAll('.theme-btn')]. *)
Definition themeButtonsOf (st : State) : list jsstring :=
  (map_to_list (filter (λ kv, js "theme-btn" ∈ classList kv.2) (document st))).*1.

(** The writes of one turn of the loop of [loadFromStorage], for the key
    [k] of a snapshot [formData] whose values are strings. *)
Definition stepWrites (doc : gmap jsstring Element) (formData : object jsstring)
    (k : jsstring) : list write :=
  match doc !! k, get formData k with
  | Some _, Some v =>
      if nonempty v then
        [ (k, with_value v);
          (ResumeBuilder.keyOf (get fieldMappings k),
           with_content (writtenContent (get fieldMappings k) v)) ]
      else []
  | _, _ => []
  end.

Definition loadWrites (doc : gmap jsstring Element) (formData : object jsstring)
    : list write :=
  Object_keys formData ≫= stepWrites doc formData.

(** ** A page to run the methods on

    The page as the program expects it: the ten inputs, empty; the ten
    previews, showing their placeholders; the stylesheet link and the two
    theme buttons; nothing stored. *)

Definition inputElement (v : jsstring) : Element :=
  {| value := v; content := TextContent []; href := []; classList := [] |}.

Definition previewElement (c : Content) : Element :=
  {| value := []; content := c; href := []; classList := [] |}.

Definition buttonElement (classes : list jsstring) : Element :=
  {| value := []; content := TextContent []; href := []; classList := classes |}.

Definition freshDocument : gmap jsstring Element :=
  list_to_map
    (((λ kv, (kv.1, inputElement [])) <$> fieldMappings)
     ++ ((λ kv, (kv.2, previewElement (clearedContent kv.2))) <$> fieldMappings)
     ++ [ (js "theme-stylesheet",
           {| value := []; content := TextContent [];
              href := js "theme-modern.css"; classList := [] |});
          (js "theme-modern", buttonElement [js "theme-btn"; js "active"]);
          (js "theme-classic", buttonElement [js "theme-btn"]) ]).

Definition freshPage : State :=
  {| document := freshDocument; localStorage := ∅;
     currentTheme := js "modern"; console := [] |}.

(** The fresh page with [v] typed into the input [inputId] and [s] stored
    as the snapshot. *)
Definition pageWith (inputId v : jsstring) (s : option jsstring) : State :=
  {| document := alter (with_value v) inputId freshDocument;
     localStorage :=
       match s with
       | Some s => {[ js "resumeFormData" := s ]}
       | None => ∅
       end;
     currentTheme := js "modern"; console := [] |}.

(** A fresh page that keeps the storage of [st]: what a reload gives. *)
Definition reloaded (st : State) : State :=
  {| document := freshDocument; localStorage := localStorage st;
     currentTheme := js "modern"; console := [] |}.

(** Stored texts: [{"input-name":""}], [{"input-name":"Ada"}],
    [{"input-name":true}] and a text that is not JSON. *)
Definition emptyNameText : jsstring := RefJSON.stringify [(js "input-name", [])].
Definition adaNameText : jsstring := RefJSON.stringify [(js "input-name", js "Ada")].
Definition trueNameText : jsstring :=
  js "{" ++ RefJSON.quote (js "input-name") ++ js ":true}".
Definition brokenText : jsstring := js "{input-name".

(** ** Texts to try [formatMultilineContent] and [updatePreview] on *)

(** Every code unit of [s] is white space for [trim]. *)
Definition allWhitespace (s : jsstring) : bool := forallb is_whitespace s.

Definition CR : N := 13.

(** [s] with every line feed preceded by a carriage return. *)
Definition crlf (s : jsstring) : jsstring :=
  s ≫= λ c, if c =? LF then [CR; LF] else [c].

(** The lines of a text, each but the last followed by a carriage
    return. *)
Fixpoint withCR (lines : list jsstring) : list jsstring :=
  match lines with
  | [] => []
  | [l] => [l]
  | l :: ls => (l ++ [CR]) :: withCR ls
  end.

(** ** Writes that keep part of an element *)

(** Computations that only write to elements, keeping their links and
    classes. *)
Definition keepsLinks (w : write) : Prop :=
  ∀ el, href (w.2 el) = href el ∧ classList (w.2 el) = classList el.

Definition pageWrites {A} (m : JS A) : Prop :=
  ∀ st, ∃ ws, Forall keepsLinks ws
              ∧ (m st).2 = with_document (apply_writes ws) st.

(** A write that leaves the value and the content of an element alone. *)
Definition keepsText (w : write) : Prop :=
  ∀ el, value (w.2 el) = value el ∧ content (w.2 el) = content el.

(** ** The theme to start with *)

(** The theme that [initializeTheme] applies. *)
Definition savedTheme (st : State) : jsstring :=
  match localStorage st !! js "resumeTheme" with
  | Some t => if nonempty t then t else js "modern"
  | None => js "modern"
  end.

(** ** Startup

    The constructor and the two handlers of the window. A [Runtime] is the
    state of the page together with the listeners registered so far; the
    tables [fieldMappings] and [defaultValues] that the constructor assigns
    are the constants above, and [currentTheme] is the field of the object
    under construction. *)

Module Startup.

Inductive EventType := input | paste | click.

(** The closures that [setupEventListeners] registers. *)
Inductive Listener :=
| onInput (inputId : jsstring)
| onPaste (inputId : jsstring)
| onThemeClick (themeName : jsstring)
| onPrintClick
| onClearClick.

Record Registration := {
  target : jsstring;
  event : EventType;
  listener : Listener
}.

Record Runtime := {
  page : State;
  listeners : list Registration
}.

(** Computations of the constructor: the page and the listeners, with
    exceptions. *)
Definition Boot (A : Type) : Type := Runtime → Completion A * Runtime.

Global Instance Boot_ret : MRet Boot := λ A a rt, (Normal a, rt).

Global Instance Boot_bind : MBind Boot := λ A B f m rt,
  match m rt with
  | (Normal a, rt') => f a rt'
  | (Throw e, rt') => (Throw e, rt')
  end.

(** A method of the object, run on the page. *)
Definition liftJS {A} (m : JS A) : Boot A := λ rt,
  let '(c, st') := m (page rt) in
  (c, {| page := st'; listeners := listeners rt |}).

(** [e.addEventListener(ev, l)]: each call passes a new closure, so the
    listener is added to the ones already registered. *)
Definition addEventListener (e : ElementRef) (ev : EventType) (l : Listener)
    : Boot unit := λ rt,
  (Normal (),
   {| page := page rt;
      listeners := listeners rt ++ [{| target := e; event := ev; listener := l |}] |}).

Fixpoint forEachBoot {A} (l : list A) (f : A → Boot unit) : Boot unit :=
  match l with
  | [] => mret ()
  | x :: l' => f x ;; forEachBoot l' f
  end.

Definition outcome {A} (m : Boot A) (rt : Runtime) : Completion A := (m rt).1.
Definition started {A} (m : Boot A) (rt : Runtime) : Runtime := (m rt).2.

Section methods.
Context {host : JSONHost}.

(** [document.getElementById(id).addEventListener('click', l)] *)
Definition addClickListener (id : jsstring) (l : Listener) : Boot unit :=
  e ← liftJS (getElementById id);
  match e with
  | Some e => addEventListener e click l
  | None => λ rt, (Throw TypeError, rt)
  end.

Definition setupEventListeners : Boot unit :=
  forEachBoot (Object_keys fieldMappings) (λ inputId,
    inputElement ← liftJS (getElementById inputId);
    match inputElement with
    | Some inputElement =>
        addEventListener inputElement input (onInput inputId) ;;
        addEventListener inputElement paste (onPaste inputId)
    | None => mret ()
    end) ;;
  addClickListener (js "theme-modern") (onThemeClick (js "modern")) ;;
  addClickListener (js "theme-classic") (onThemeClick (js "classic")) ;;
  addClickListener (js "print-btn") onPrintClick ;;
  addClickListener (js "clear-btn") onClearClick.

Definition init : Boot unit :=
  setupEventListeners ;;
  liftJS loadFromStorage ;;
  liftJS initializeTheme.

(** [new ResumeBuilder()] *)
Definition new_ResumeBuilder : Boot unit :=
  liftJS (modify (with_currentTheme (js "modern"))) ;;
  init.

(** The listener of [DOMContentLoaded]. *)
Definition onDOMContentLoaded : Boot unit := new_ResumeBuilder.

(** The listener of [beforeunload]: a new object, then [saveToStorage]. *)

Definition onBeforeUnload : Boot unit :=
  new_ResumeBuilder ;;
  liftJS saveToStorage.

(** The page once the constructor has run [loadFromStorage]. *)
Definition loaded (st : State) : State :=
  exec loadFromStorage (with_currentTheme (js "modern") st).

End methods.

(** The four buttons that [setupEventListeners] takes for granted. *)
Definition buttonIds : list jsstring :=
  [js "theme-modern"; js "theme-classic"; js "print-btn"; js "clear-btn"].

Definition hasButtons (st : State) : Prop :=
  Forall (λ id, is_Some (document st !! id)) buttonIds.

Global Instance hasButtons_dec st : Decision (hasButtons st).
Proof. unfold hasButtons. apply _. Defined.

Definition registration (e : jsstring) (ev : EventType) (l : Listener)
    : Registration :=
  {| target := e; event := ev; listener := l |}.

(** What [setupEventListeners] registers on the inputs of a page. *)
Definition registrationsOf (doc : gmap jsstring Element) (inputId : jsstring)
    : list Registration :=
  match doc !! inputId with
  | Some _ =>
      [registration inputId input (onInput inputId);
       registration inputId paste (onPaste inputId)]
  | None => []
  end.

Definition inputRegistrations (doc : gmap jsstring Element) : list Registration :=
  Object_keys fieldMappings ≫= registrationsOf doc.

Definition clickRegistrations : list Registration :=
  [ registration (js "theme-modern") click (onThemeClick (js "modern"));
    registration (js "theme-classic") click (onThemeClick (js "classic"));
    registration (js "print-btn") click onPrintClick;
    registration (js "clear-btn") click onClearClick ].

Definition with_listeners (f : list Registration → list Registration)
    (rt : Runtime) : Runtime :=
  {| page := page rt; listeners := f (listeners rt) |}.

(** The fresh page with the print and the clear button, and the runtime of
    a page before the script has run. *)

Definition appDocument : gmap jsstring Element :=
  <[js "print-btn" := buttonElement []]>
    (<[js "clear-btn" := buttonElement []]> freshDocument).

Definition runtimeOf (doc : gmap jsstring Element)
    (storage : gmap jsstring jsstring) : Runtime :=
  {| page := {| document := doc; localStorage := storage;
                currentTheme := []; console := [] |};
     listeners := [] |}.

End Startup.
Import Startup.

(** * Properties *)

(** ** Strings *)

Lemma nonempty_true (s : jsstring) : nonempty s = true ↔ s ≠ [].
Proof. destruct s; simpl; split; congruence. Qed.

(** ** formatMultilineContent *)

(** The comparison with [defaultValues['preview-' + content]] never
    succeeds: no placeholder is the name of its own field. *)
Lemma get_Some_elem_of {V} (o : object V) k v :
  get o k = Some v → (k, v) ∈ o.
Proof.
  induction o as [|[k' v'] o IH]; simpl; [done|].
  case_decide as Hk; [intros [= ->]; subst; left | right; by apply IH].
Qed.

Lemma isOwnDefault_false content : isOwnDefault content = false.
Proof.
  unfold isOwnDefault. apply bool_decide_eq_false.
  intros Hin%get_Some_elem_of. unfold defaultValues in Hin.
  repeat (apply elem_of_cons in Hin as [Heq|Hin];
          [ apply pair_equal_spec in Heq as [Hk Hv]; subst content;
            vm_compute in Hk; discriminate Hk |]).
  by apply elem_of_nil in Hin.
Qed.

Lemma startsWith_singleton (c : N) (t : jsstring) (x : N) :
  startsWith (c :: t) [x] = (c =? x).
Proof. simpl. rewrite andb_true_r. apply N.eqb_sym. Qed.

Lemma renderLine_block (c : N) (t : jsstring) :
  renderLine (c :: t) =
  renderBlock (if (c =? BULLET) || (c =? HYPHEN) then BulletBlock (c :: t)
               else PlainBlock (c :: t)).
Proof.
  unfold renderLine. rewrite !startsWith_singleton.
  by destruct ((c =? BULLET) || (c =? HYPHEN)).
Qed.


Lemma render_blocksOfLines (lines : list jsstring) :
  renderLine <$> filter (λ line, (0 < length line)%nat) (trim <$> lines)
  = renderBlock <$> blocksOfLines lines.
Proof.
  induction lines as [|l ls IH]; [done|].
  rewrite fmap_cons. cbn [blocksOfLines].
  destruct (trim l) as [|c t] eqn:Ht.
  - rewrite filter_cons_False; [done | simpl; lia].
  - rewrite filter_cons_True by (simpl; lia).
    rewrite !fmap_cons. f_equal; [apply renderLine_block | apply IH].
Qed.



Lemma formatMultilineContent_blocks content :
  content ≠ [] →
  formatMultilineContent content
  = join_empty (renderBlock <$> formatMultiline_blocks content).
Proof.
  intros Hne. unfold formatMultilineContent, formatMultiline_blocks.
  rewrite isOwnDefault_false, (proj2 (nonempty_true content) Hne). simpl.
  by rewrite render_blocksOfLines.
Qed.

(** C2 (the code departs from it): [formatMultilineContent] returns the
    empty string unchanged, but the comparison that should recognise a
    placeholder never succeeds, so the placeholder of each multi-line field
    comes back wrapped in a [div] instead of unchanged. *)
Theorem formatMultilineContent_wraps_placeholder :
  formatMultilineContent [] = []
  ∧ (∀ content, isOwnDefault content = false)
  ∧ Forall (λ previewId,
        formatMultilineContent (placeholder previewId)
          = plainDiv (placeholder previewId)
        ∧ formatMultilineContent (placeholder previewId) ≠ placeholder previewId)
      multilineIds.
Proof.
  split; [reflexivity|]. split; [apply isOwnDefault_false|].
  unfold multilineIds. repeat apply Forall_cons_2; try apply Forall_nil_2;
    (split; [vm_compute; reflexivity | vm_compute; discriminate]).
Qed.



(** ** The page *)

Lemma with_document_id (f : gmap jsstring Element → gmap jsstring Element) st :
  f (document st) = document st → with_document f st = st.
Proof. destruct st; unfold with_document; simpl; by intros ->. Qed.

Lemma lookup_with_content (c : Content) (p id : jsstring) (doc : gmap jsstring Element) :
  value <$> alter (with_content c) p doc !! id = value <$> doc !! id.
Proof.
  rewrite lookup_alter. case_decide; [subst|done]. by destruct (doc !! id).
Qed.

(** ** updatePreview *)

Lemma updatePreview_JStr inputId v st :
  updatePreview inputId (JStr v) st
  = (Normal (),
     with_document
       (alter (with_content (writtenContent (get fieldMappings inputId) v))
          (keyOf (get fieldMappings inputId))) st).
Proof.
  unfold updatePreview, writtenContent.
  set (previewId := get fieldMappings inputId).
  unfold mbind, JS_bind, getElementById, gets.
  destruct (document st !! keyOf previewId) as [el|] eqn:Hel.
  - unfold call_trim, mret, JS_ret.
    destruct (bool_decide (previewId = Some (js "preview-summary")));
      [reflexivity|].
    destruct (includes multilineIds previewId); reflexivity.
  - rewrite with_document_id; [done|]. apply alter_id.
    intros x Hx. rewrite Hel in Hx. discriminate Hx.
Qed.

Lemma fieldMappings_cases inputId previewId :
  (inputId, previewId) ∈ fieldMappings →
  get fieldMappings inputId = Some previewId
  ∧ previewId ∈ (fieldMappings.*2).
Proof.
  intros Hin. split; [|by apply (list_elem_of_fmap_2 snd) in Hin].
  unfold fieldMappings in *.
  repeat (apply elem_of_cons in Hin as [[= -> ->]|Hin]; [reflexivity|]).
  by apply elem_of_nil in Hin.
Qed.

Lemma previewId_facts previewId :
  previewId ∈ (fieldMappings.*2) →
  get defaultValues previewId = Some (placeholder previewId)
  ∧ (bool_decide (Some previewId = Some (js "preview-summary")) = true →
     includes multilineIds (Some previewId) = false).
Proof.
  intros Hin. unfold fieldMappings in Hin.
  repeat (apply elem_of_cons in Hin as [->|Hin];
          [split; [vm_compute; reflexivity | vm_compute; congruence]|]).
  by apply elem_of_nil in Hin.
Qed.

Lemma writtenContent_mapped previewId v :
  previewId ∈ (fieldMappings.*2) →
  writtenContent (Some previewId) v = previewContent previewId v.
Proof.
  intros [Hdefault Hsummary]%previewId_facts.
  unfold writtenContent, previewContent, displayValueOf.
  change (keyOf (Some previewId)) with previewId. rewrite Hdefault.
  destruct (bool_decide (Some previewId = Some (js "preview-summary")));
    [rewrite Hsummary by done|];
    destruct (includes multilineIds (Some previewId));
    by destruct (nonempty (trim v)).
Qed.

(** ** saveToStorage *)

Section saveToStorage.
Context {host : JSONHost}.

Lemma collectFormData_eq inputIds formData st :
  collectFormData inputIds formData st
  = (Normal (collected (document st) inputIds formData), st).
Proof.
  revert formData. induction inputIds as [|inputId rest IH]; intros formData;
    [done|].
  cbn [collectFormData collected].
  unfold mbind, JS_bind, getElementById, get_value, gets. cbv beta.
  destruct (document st !! inputId) as [el|] eqn:Hel; cbv beta iota;
    [rewrite Hel|]; apply IH.
Qed.

Lemma saveToStorage_eq st :
  saveToStorage st
  = (Normal (),
     with_localStorage
       (insert (js "resumeFormData")
          (JSON_stringify (collected (document st) (Object_keys fieldMappings) [])))
       st).
Proof.
  unfold saveToStorage, mbind, JS_bind. by rewrite collectFormData_eq.
Qed.

Lemma onFieldChange_eq inputId v st :
  onFieldChange inputId v st
  = (Normal (),
     with_localStorage
       (insert (js "resumeFormData")
          (JSON_stringify
             (collected
                (alter (with_content (writtenContent (get fieldMappings inputId) v))
                   (keyOf (get fieldMappings inputId)) (document st))
                (Object_keys fieldMappings) [])))
       (with_document
          (alter (with_content (writtenContent (get fieldMappings inputId) v))
             (keyOf (get fieldMappings inputId))) st)).
Proof.
  unfold onFieldChange, mbind, JS_bind.
  by rewrite updatePreview_JStr, saveToStorage_eq.
Qed.

End saveToStorage.

(** C1, as amended: after [onFieldChange(f, v)] on a page that has the
    preview [p] mapped to [f], a single-line preview (the summary included)
    holds as text [trim(v)] when that is not empty and the placeholder of
    [p] otherwise; a multi-line preview holds as markup the result of
    [formatMultilineContent] on that same string. *)
Theorem onFieldChange_preview `{host : JSONHost} f p v st :
  (f, p) ∈ fieldMappings →
  is_Some (document st !! p) →
  completion (onFieldChange f v) st = Normal ()
  ∧ (p ∉ multilineIds →
     contentOf (exec (onFieldChange f v) st) p
     = Some (TextContent (displayValueOf p v)))
  ∧ (p ∈ multilineIds →
     contentOf (exec (onFieldChange f v) st) p
     = Some (InnerHTML (formatMultilineContent (displayValueOf p v)))).
Proof.
  intros [Hget Hp]%fieldMappings_cases [el Hel].
  unfold completion, exec, contentOf. rewrite onFieldChange_eq, Hget. simpl.
  rewrite lookup_alter_eq, Hel, (writtenContent_mapped _ _ Hp). simpl.
  unfold previewContent, includes.
  split; [done|]. split; intros Hm.
  - by rewrite bool_decide_eq_false_2.
  - by rewrite bool_decide_eq_true_2.
Qed.

Lemma onFieldChange_preview_witness :
  (js "input-name", js "preview-name") ∈ fieldMappings
  ∧ is_Some (document freshPage !! js "preview-name")
  ∧ contentOf
      (exec (onFieldChange (host := refJSON integerNumber)
               (js "input-name") (js " Ada ")) freshPage)
      (js "preview-name")
    = Some (TextContent (js "Ada")).
Proof.
  assert (H1 : (js "input-name", js "preview-name") ∈ fieldMappings)
    by (apply (bool_decide_unpack _); vm_compute; exact I).
  assert (H2 : is_Some (document freshPage !! js "preview-name"))
    by (vm_compute; eauto).
  assert (H3 : js "preview-name" ∉ multilineIds)
    by (apply (bool_decide_unpack _); vm_compute; exact I).
  split; [exact H1|]. split; [exact H2|].
  exact (proj1 (proj2
    (onFieldChange_preview (host := refJSON integerNumber)
       (js "input-name") (js "preview-name") (js " Ada ") freshPage H1 H2)) H3).
Defined.

(** The claim C1 as it is written fails on a multi-line field: after
    [onFieldChange('input-experience', v)] for the three lines [a], empty,
    [b], the preview does not hold [trim(v)] but the markup of two blocks,
    the empty line dropped. *)
Lemma onFieldChange_multiline_counterexample :
  (js "input-experience", js "preview-experience") ∈ fieldMappings
  ∧ is_Some (document freshPage !! js "preview-experience")
  ∧ displayValueOf (js "preview-experience") (js "a" ++ [LF; LF] ++ js "b")
    = js "a" ++ [LF; LF] ++ js "b"
  ∧ shown <$> contentOf
      (exec (onFieldChange (host := refJSON integerNumber)
               (js "input-experience") (js "a" ++ [LF; LF] ++ js "b"))
         freshPage)
      (js "preview-experience")
    = Some (js "<div>a</div><div>b</div>")
  ∧ js "<div>a</div><div>b</div>" ≠ js "a" ++ [LF; LF] ++ js "b".
Proof.
  split; [apply (bool_decide_unpack _); vm_compute; exact I|].
  split; [vm_compute; eauto|].
  split; [vm_compute; reflexivity|].
  split; [vm_compute; reflexivity|vm_compute; discriminate].
Qed.

(** C10: [updatePreview(f, v)] for a mapped input [f] completes normally,
    leaves every element other than the preview [p] mapped to [f] as it
    was, leaves the value (and the link and classes) of every element as
    it was, and writes nothing to the storage, the theme or the console. *)
Theorem updatePreview_frame f p v st :
  (f, p) ∈ fieldMappings →
  completion (updatePreview f (JStr v)) st = Normal ()
  ∧ (∀ id, id ≠ p →
       document (exec (updatePreview f (JStr v)) st) !! id = document st !! id)
  ∧ (∀ id, valueOf (exec (updatePreview f (JStr v)) st) id = valueOf st id)
  ∧ (∀ id, classListOf (exec (updatePreview f (JStr v)) st) id = classListOf st id)
  ∧ (∀ id, href <$> document (exec (updatePreview f (JStr v)) st) !! id
           = href <$> document st !! id)
  ∧ localStorage (exec (updatePreview f (JStr v)) st) = localStorage st
  ∧ currentTheme (exec (updatePreview f (JStr v)) st) = currentTheme st
  ∧ console (exec (updatePreview f (JStr v)) st) = console st.
Proof.
  intros [Hget _]%fieldMappings_cases.
  unfold completion, exec, valueOf, classListOf.
  rewrite updatePreview_JStr, Hget. change (keyOf (Some p)) with p.
  cbn [fst snd with_document document localStorage currentTheme console].
  split; [done|].
  split; [intros id Hid; rewrite lookup_alter_ne; [done|congruence]|].
  split; [intros id; apply lookup_with_content|].
  repeat split; intros id; rewrite lookup_alter; case_decide; subst;
    try done; by destruct (document st !! id).
Qed.

Lemma updatePreview_frame_witness :
  (js "input-skills", js "preview-skills") ∈ fieldMappings
  ∧ valueOf
      (exec (updatePreview (js "input-skills") (JStr (js "Rocq"))) freshPage)
      (js "input-skills")
    = valueOf freshPage (js "input-skills").
Proof.
  assert (H1 : (js "input-skills", js "preview-skills") ∈ fieldMappings)
    by (apply (bool_decide_unpack _); vm_compute; exact I).
  split; [exact H1|].
  exact (proj1 (proj2 (proj2
    (updatePreview_frame
       (js "input-skills") (js "preview-skills") (js "Rocq") freshPage H1)))
    (js "input-skills")).
Defined.

(** ** Loops over element ids *)

Lemma forEach_modify {A} (l : list A) (f : A → JS unit) (upd : A → State → State) :
  (∀ x st, f x st = (Normal (), upd x st)) →
  ∀ st, forEach l f st = (Normal (), foldl (λ s x, upd x s) st l).
Proof.
  intros Hf. induction l as [|x l IH]; intros st; [done|].
  cbn [forEach foldl]. unfold mbind, JS_bind. by rewrite Hf, IH.
Qed.

Lemma foldl_with_document {A} (l : list A)
    (upd : A → gmap jsstring Element → gmap jsstring Element) st :
  foldl (λ s x, with_document (upd x) s) st l
  = with_document (λ doc, foldl (λ d x, upd x d) doc l) st.
Proof.
  revert st. induction l as [|x l IH]; intros st; cbn [foldl].
  - by destruct st.
  - by rewrite IH.
Qed.

(** [e = getElementById(id); if (e) { update of e }] is the update of the
    element [id], done or not. *)
Lemma getElementById_alter (id : jsstring) (g : Element → Element)
    (k : option jsstring → JS unit) st :
  k (Some id) = modify (with_document (alter g id)) →
  k None = mret () →
  (e ← getElementById id; k e) st = (Normal (), with_document (alter g id) st).
Proof.
  intros Hsome Hnone. unfold mbind, JS_bind, getElementById, gets. cbv beta.
  destruct (document st !! id) as [el|] eqn:Hel; cbv beta iota.
  - by rewrite Hsome.
  - rewrite Hnone, with_document_id; [done|]. apply alter_id.
    intros x Hx. rewrite Hel in Hx. discriminate Hx.
Qed.

(** ** Sequences of writes *)

Lemma apply_writes_snoc ws w doc :
  apply_writes (ws ++ [w]) doc = alter w.2 w.1 (apply_writes ws doc).
Proof. unfold apply_writes. by rewrite foldl_app. Qed.

Lemma apply_writes_app ws1 ws2 doc :
  apply_writes (ws1 ++ ws2) doc = apply_writes ws2 (apply_writes ws1 doc).
Proof. unfold apply_writes. by rewrite foldl_app. Qed.

(** No write creates or removes an element. *)
Lemma apply_writes_is_Some ws doc (id : jsstring) :
  is_Some (apply_writes ws doc !! id) ↔ is_Some (doc !! id).
Proof.
  induction ws as [|w ws IH] using rev_ind; [done|].
  rewrite apply_writes_snoc, lookup_alter.
  case_decide; subst; [rewrite fmap_is_Some|]; apply IH.
Qed.

Lemma apply_writes_None ws doc (id : jsstring) :
  doc !! id = None → apply_writes ws doc !! id = None.
Proof.
  rewrite !eq_None_not_Some. by rewrite apply_writes_is_Some.
Qed.

(** A property of the element that no write to it changes. *)
Lemma apply_writes_unchanged {B} (proj : Element → B) ws doc (id : jsstring) :
  (∀ w, w ∈ ws → w.1 = id → ∀ el, proj (w.2 el) = proj el) →
  proj <$> apply_writes ws doc !! id = proj <$> doc !! id.
Proof.
  induction ws as [|w ws IH] using rev_ind; intros Hws; [done|].
  rewrite apply_writes_snoc, lookup_alter.
  assert (Hrec : proj <$> apply_writes ws doc !! id = proj <$> doc !! id).
  { apply IH. intros w' Hw'. apply Hws. apply elem_of_app. by left. }
  case_decide as Hid; [|done]. rewrite <- Hrec, Hid.
  destruct (apply_writes ws doc !! id) as [el|]; [|done]. simpl. f_equal.
  apply Hws; [|done]. apply elem_of_app. right. by apply list_elem_of_singleton.
Qed.

(** A property of the element that some write to it sets to [b], and that
    every write to it sets to [b] or keeps. *)
Lemma apply_writes_set {B} (proj : Element → B) (b : B) ws doc (id : jsstring) :
  (∃ w, w ∈ ws ∧ w.1 = id ∧ ∀ el, proj (w.2 el) = b) →
  (∀ w, w ∈ ws → w.1 = id →
     (∀ el, proj (w.2 el) = b) ∨ (∀ el, proj (w.2 el) = proj el)) →
  proj <$> apply_writes ws doc !! id = (λ _, b) <$> doc !! id.
Proof.
  induction ws as [|w ws IH] using rev_ind; intros (w0 & Hw0 & Hid0 & Hset) Hall.
  { by apply elem_of_nil in Hw0. }
  assert (Hall' : ∀ w', w' ∈ ws → w'.1 = id →
     (∀ el, proj (w'.2 el) = b) ∨ (∀ el, proj (w'.2 el) = proj el)).
  { intros w' Hw'. apply Hall. apply elem_of_app. by left. }
  assert (Hlast : w ∈ ws ++ [w]).
  { apply elem_of_app. right. by apply list_elem_of_singleton. }
  rewrite apply_writes_snoc, lookup_alter.
  destruct (decide (w.1 = id)) as [Hid|Hid].
  - rewrite Hid.
    assert (Hsets : (∀ el, proj (w.2 el) = b) →
      proj <$> (w.2 <$> apply_writes ws doc !! id) = (λ _, b) <$> doc !! id).
    { intros Hb. pose proof (apply_writes_is_Some ws doc id) as Hsome.
      destruct (apply_writes ws doc !! id) as [el|], (doc !! id) as [el'|];
        simpl; try done.
      - by rewrite Hb.
      - destruct (proj1 Hsome) as [? [=]]; eauto.
      - destruct (proj2 Hsome) as [? [=]]; eauto. }
    destruct (Hall w Hlast Hid) as [Hb|Hkeep]; [by apply Hsets|].
    apply elem_of_app in Hw0 as [Hw0|Heq%list_elem_of_singleton].
    + rewrite <- IH; [|by exists w0|done].
      destruct (apply_writes ws doc !! id) as [el|]; [|done]. simpl.
      by rewrite Hkeep.
    + subst w0. by apply Hsets.
  - apply IH; [|done]. exists w0. split_and!; [|done..].
    apply elem_of_app in Hw0 as [?|Heq%list_elem_of_singleton]; [done|].
    by subst w0.
Qed.

Lemma apply_writes_fmap {A} (w : A → write) (l : list A) doc :
  apply_writes (w <$> l) doc = foldl (λ d x, alter (w x).2 (w x).1 d) doc l.
Proof.
  unfold apply_writes. revert doc.
  induction l as [|x l IH]; intros doc; [done|]. cbn. apply IH.
Qed.

Lemma forEach_writes {A} (l : list A) (f : A → JS unit) (w : A → write) :
  (∀ x st, f x st = (Normal (), with_document (alter (w x).2 (w x).1) st)) →
  ∀ st, forEach l f st = (Normal (), with_document (apply_writes (w <$> l)) st).
Proof.
  intros Hf st.
  rewrite (forEach_modify l f (λ x, with_document (alter (w x).2 (w x).1)) Hf).
  rewrite foldl_with_document. unfold with_document.
  by rewrite apply_writes_fmap.
Qed.

(** ** clearAllData *)

(** The writes of the two loops of [clearAllData]. *)
Lemma clearAllData_true st :
  clearAllData true st
  = (Normal (),
     with_localStorage (delete (js "resumeFormData"))
       (with_document
          (λ doc,
             apply_writes
               ((λ k, (keyOf (get fieldMappings k),
                       with_content (clearedWritten (get fieldMappings k))))
                  <$> Object_keys fieldMappings)
               (apply_writes
                  ((λ k, (k, with_value [])) <$> Object_keys fieldMappings) doc))
          st)).
Proof.
  unfold clearAllData, mbind, JS_bind.
  rewrite (forEach_writes _ _ (λ k, (k, with_value []))).
  2:{ intros k st'. by apply getElementById_alter. }
  rewrite (forEach_writes _ _
    (λ k, (keyOf (get fieldMappings k),
           with_content (clearedWritten (get fieldMappings k))))).
  2:{ intros k st'. apply getElementById_alter; [|done].
      unfold clearedWritten.
      by destruct (includes multilineIds (get fieldMappings k)). }
  by destruct st.
Qed.

Lemma clearedWritten_mapped previewId :
  previewId ∈ (fieldMappings.*2) →
  clearedWritten (Some previewId) = clearedContent previewId.
Proof.
  intros [Hdefault _]%previewId_facts.
  unfold clearedWritten, clearedContent, placeholder.
  change (keyOf (Some previewId)) with previewId. rewrite Hdefault.
  by destruct (includes multilineIds (Some previewId)).
Qed.

(** Every key of [fieldMappings] is mapped. *)
Lemma get_fieldMappings_key k :
  k ∈ Object_keys fieldMappings →
  ∃ p, get fieldMappings k = Some p ∧ (k, p) ∈ fieldMappings.
Proof.
  intros ([k' p] & -> & Hin)%list_elem_of_fmap. exists p.
  split; [|done]. by apply fieldMappings_cases.
Qed.

Lemma clearAllData_document st f p :
  (f, p) ∈ fieldMappings →
  valueOf (exec (clearAllData true) st) f = (λ _, []) <$> document st !! f
  ∧ contentOf (exec (clearAllData true) st) p
    = (λ _, clearedContent p) <$> document st !! p.
Proof.
  intros Hin. destruct (fieldMappings_cases _ _ Hin) as [Hget Hp].
  unfold exec, valueOf, contentOf. rewrite clearAllData_true.
  cbn [fst snd with_document with_localStorage document]. split.
  - rewrite (apply_writes_unchanged value).
    2:{ by intros w (k & -> & _)%list_elem_of_fmap _ el. }
    apply apply_writes_set.
    + exists (f, with_value []). split_and!; [|done..].
      apply list_elem_of_fmap. exists f. split; [done|].
      by apply (list_elem_of_fmap_2 fst) in Hin.
    + intros w (k & -> & _)%list_elem_of_fmap _. by left.
  - transitivity ((λ _, clearedContent p) <$>
      apply_writes ((λ k, (k, with_value [])) <$> Object_keys fieldMappings)
        (document st) !! p).
    2:{ pose proof (apply_writes_is_Some
          ((λ k, (k, with_value [])) <$> Object_keys fieldMappings)
          (document st) p) as Hsome.
        destruct (apply_writes _ (document st) !! p), (document st !! p);
          simpl; try done.
        - destruct (proj1 Hsome) as [? [=]]; eauto.
        - destruct (proj2 Hsome) as [? [=]]; eauto. }
    apply apply_writes_set.
    + exists (p, with_content (clearedContent p)). split_and!; [|done..].
      apply list_elem_of_fmap. exists f.
      rewrite Hget, (clearedWritten_mapped _ Hp). split; [done|].
      by apply (list_elem_of_fmap_2 fst) in Hin.
    + intros w (k & -> & Hk)%list_elem_of_fmap Hkey. left. intros el.
      destruct (get_fieldMappings_key _ Hk) as (p' & Hget' & Hin').
      rewrite Hget' in *. cbn in Hkey. subst p'. simpl.
      apply clearedWritten_mapped. by apply fieldMappings_cases in Hin'.
Qed.

Lemma loadFromStorage_no_snapshot `{host : JSONHost} st :
  localStorage st !! js "resumeFormData" = None →
  loadFromStorage st = (Normal (), st).
Proof.
  intros Hnone. unfold loadFromStorage, mbind, JS_bind, getItem, gets.
  cbv beta. by rewrite Hnone.
Qed.

(** C6: [clearAllData], once confirmed, completes normally; every input
    of [fieldMappings] on the page has the empty value; every preview on the
    page holds its placeholder, as markup ([innerHTML]) for a multi-line
    field and as text otherwise, in both cases the placeholder itself and
    not what [formatMultilineContent] makes of it; the
    key [resumeFormData] is deleted from the storage, which is otherwise as
    before; and on any page with this storage [loadFromStorage] finds no
    snapshot and changes nothing. *)
Theorem clearAllData_confirmed `{host : JSONHost} st :
  completion (clearAllData true) st = Normal ()
  ∧ (∀ f p, (f, p) ∈ fieldMappings →
       (is_Some (document st !! f) →
        valueOf (exec (clearAllData true) st) f = Some [])
       ∧ (is_Some (document st !! p) → p ∉ multilineIds →
          contentOf (exec (clearAllData true) st) p
          = Some (TextContent (placeholder p)))
       ∧ (is_Some (document st !! p) → p ∈ multilineIds →
          contentOf (exec (clearAllData true) st) p
          = Some (InnerHTML (placeholder p))
          ∧ placeholder p ≠ formatMultilineContent (placeholder p)))
  ∧ localStorage (exec (clearAllData true) st)
    = delete (js "resumeFormData") (localStorage st)
  ∧ localStorage (exec (clearAllData true) st) !! js "resumeFormData" = None
  ∧ (∀ st2, localStorage st2 = localStorage (exec (clearAllData true) st) →
       loadFromStorage st2 = (Normal (), st2)).
Proof.
  assert (Hstorage : localStorage (exec (clearAllData true) st)
                     = delete (js "resumeFormData") (localStorage st)).
  { unfold exec. by rewrite clearAllData_true. }
  split; [unfold completion; by rewrite clearAllData_true|].
  split; [|split; [done|]].
  - intros f p Hin. destruct (clearAllData_document st f p Hin) as [Hv Hc].
    rewrite Hv, Hc. unfold clearedContent, includes.
    split_and!.
    + by intros [el ->].
    + intros [el ->] Hm. simpl. by rewrite bool_decide_eq_false_2.
    + intros [el ->] Hm. simpl. rewrite bool_decide_eq_true_2 by done.
      split; [done|]. unfold multilineIds in Hm.
      repeat (apply elem_of_cons in Hm as [->|Hm]; [vm_compute; discriminate|]).
      by apply elem_of_nil in Hm.
  - rewrite Hstorage. split; [apply lookup_delete_eq|].
    intros st2 Hst2. apply loadFromStorage_no_snapshot.
    rewrite Hst2. apply lookup_delete_eq.
Qed.

(** C7: [clearAllData], when the user declines, completes normally and
    leaves the state as it was: the value and the content of every element,
    the stored snapshot, and all the rest. *)
Theorem clearAllData_declined st :
  completion (clearAllData false) st = Normal ()
  ∧ exec (clearAllData false) st = st
  ∧ (∀ id, valueOf (exec (clearAllData false) st) id = valueOf st id)
  ∧ (∀ id, contentOf (exec (clearAllData false) st) id = contentOf st id)
  ∧ localStorage (exec (clearAllData false) st) !! js "resumeFormData"
    = localStorage st !! js "resumeFormData".
Proof.
  assert (Hsame : clearAllData false st = (Normal (), st)) by reflexivity.
  unfold completion, exec. rewrite Hsame. by split_and!.
Qed.

Lemma clearAllData_confirmed_witness :
  (js "input-email", js "preview-email") ∈ fieldMappings
  ∧ is_Some (document (pageWith (js "input-email") (js "a@b.c") None)
               !! js "input-email")
  ∧ valueOf (exec (clearAllData true)
               (pageWith (js "input-email") (js "a@b.c") None))
      (js "input-email") = Some [].
Proof.
  assert (H1 : (js "input-email", js "preview-email") ∈ fieldMappings)
    by (apply (bool_decide_unpack _); vm_compute; exact I).
  assert (H2 : is_Some (document (pageWith (js "input-email") (js "a@b.c") None)
                          !! js "input-email"))
    by (vm_compute; eauto).
  split; [exact H1|]. split; [exact H2|].
  exact (proj1 (proj1 (proj2
    (clearAllData_confirmed (host := refJSON integerNumber)
       (pageWith (js "input-email") (js "a@b.c") None)))
    (js "input-email") (js "preview-email") H1) H2).
Defined.

(** ** switchTheme *)

Lemma themeButtonsOf_elem st id :
  id ∈ themeButtonsOf st ↔ isThemeButton st id.
Proof.
  unfold themeButtonsOf, isThemeButton. rewrite list_elem_of_fmap. split.
  - intros ([id' el] & -> & Hin). exists el.
    apply elem_of_map_to_list in Hin.
    by apply map_lookup_filter_Some in Hin.
  - intros (el & Hel & Hcls). exists (id, el). split; [done|].
    apply elem_of_map_to_list. by apply map_lookup_filter_Some.
Qed.

Lemma bind_Normal {A B} (m : JS A) (k : A → JS B) st a st' :
  m st = (Normal a, st') → (m ≫= k) st = k a st'.
Proof. intros Hm. unfold mbind, JS_bind. by rewrite Hm. Qed.

Lemma getElementById_Some id st :
  is_Some (document st !! id) → getElementById id st = (Normal (Some id), st).
Proof. intros [el Hel]. unfold getElementById, gets. by rewrite Hel. Qed.

Lemma getElementById_None id st :
  document st !! id = None → getElementById id st = (Normal None, st).
Proof. intros Hel. unfold getElementById, gets. by rewrite Hel. Qed.

Lemma switchTheme_eq themeName st :
  is_Some (document st !! js "theme-stylesheet") →
  is_Some (document st !! (js "theme-" ++ themeName)) →
  switchTheme themeName st
  = (Normal (),
     with_localStorage (insert (js "resumeTheme") themeName)
       (with_document (alter (with_classList addActive) (js "theme-" ++ themeName))
          (with_document
             (apply_writes
                ((λ btn, (btn, with_classList removeActive)) <$> themeButtonsOf st))
             (with_currentTheme themeName
                (with_document
                   (alter (with_href (js "theme-" ++ themeName ++ js ".css"))
                      (js "theme-stylesheet")) st))))).
Proof.
  intros Hss Hbtn. unfold switchTheme.
  erewrite bind_Normal by (by apply getElementById_Some).
  erewrite bind_Normal by reflexivity. fold (themeButtonsOf st).
  erewrite bind_Normal by reflexivity.
  erewrite bind_Normal by reflexivity.
  erewrite bind_Normal
    by (by apply (forEach_writes _ _ (λ btn, (btn, with_classList removeActive)))).
  erewrite bind_Normal.
  2:{ apply getElementById_Some. cbn [document with_document with_currentTheme].
      apply apply_writes_is_Some. by apply lookup_alter_is_Some. }
  by erewrite bind_Normal by reflexivity.
Qed.

Lemma switchTheme_no_stylesheet themeName st :
  document st !! js "theme-stylesheet" = None →
  switchTheme themeName st = (Normal (), st).
Proof.
  intros Hss. unfold switchTheme.
  erewrite bind_Normal by (by apply getElementById_None).
  by erewrite bind_Normal by reflexivity.
Qed.

Lemma elem_of_addActive l : js "active" ∈ addActive l.
Proof.
  unfold addActive. case_decide; [done|].
  apply elem_of_app. right. by apply list_elem_of_singleton.
Qed.

Lemma not_elem_of_removeActive l : js "active" ∉ removeActive l.
Proof. unfold removeActive. intros [Hne _]%list_elem_of_filter. by apply Hne. Qed.

(** What [switchTheme(themeName)] leaves behind, on a page with the
    stylesheet link and the button of the theme. *)
Lemma switchTheme_effects themeName st :
  is_Some (document st !! js "theme-stylesheet") →
  is_Some (document st !! (js "theme-" ++ themeName)) →
  completion (switchTheme themeName) st = Normal ()
  ∧ localStorage (exec (switchTheme themeName) st) !! js "resumeTheme"
    = Some themeName
  ∧ currentTheme (exec (switchTheme themeName) st) = themeName
  ∧ markedActive (exec (switchTheme themeName) st) (js "theme-" ++ themeName)
  ∧ (∀ other, other ≠ js "theme-" ++ themeName → isThemeButton st other →
       ¬ markedActive (exec (switchTheme themeName) st) other)
  ∧ href <$> document (exec (switchTheme themeName) st) !! js "theme-stylesheet"
    = Some (js "theme-" ++ themeName ++ js ".css").
Proof.
  intros Hss Hbtn. unfold completion, exec, markedActive, classListOf.
  rewrite (switchTheme_eq _ _ Hss Hbtn).
  cbn [fst snd document localStorage currentTheme with_document
       with_localStorage with_currentTheme].
  set (ws := (λ btn, (btn, with_classList removeActive)) <$> themeButtonsOf st).
  set (doc1 := alter (with_href (js "theme-" ++ themeName ++ js ".css"))
                 (js "theme-stylesheet") (document st)).
  split; [done|]. split; [apply lookup_insert_eq|]. split; [done|].
  split; [|split].
  - rewrite lookup_alter_eq.
    assert (Hsome : is_Some (apply_writes ws doc1 !! (js "theme-" ++ themeName))).
    { apply apply_writes_is_Some. by apply lookup_alter_is_Some. }
    destruct Hsome as [el ->]. simpl. eexists. split; [done|].
    apply elem_of_addActive.
  - intros other Hother (el & Hel & Hcls) (l & Hl & Hactive).
    rewrite lookup_alter_ne in Hl by done.
    assert (Hset : (λ el, bool_decide (js "active" ∈ classList el))
                     <$> apply_writes ws doc1 !! other
                   = (λ _, false) <$> doc1 !! other).
    { apply apply_writes_set.
      - exists (other, with_classList removeActive). split_and!; [|done|].
        + apply list_elem_of_fmap. exists other. split; [done|].
          apply themeButtonsOf_elem. by exists el.
        + intros el'. simpl. apply bool_decide_eq_false.
          apply not_elem_of_removeActive.
      - intros w (b & -> & _)%list_elem_of_fmap _. left. intros el'. simpl.
        apply bool_decide_eq_false. apply not_elem_of_removeActive. }
    destruct (apply_writes ws doc1 !! other) as [el'|]; [|done].
    simpl in Hl. injection Hl as <-.
    destruct (doc1 !! other); simpl in Hset; [|done].
    injection Hset as Hset. by apply bool_decide_eq_false in Hset.
  - rewrite lookup_alter.
    assert (Hhref : href <$> apply_writes ws doc1 !! js "theme-stylesheet"
                    = Some (js "theme-" ++ themeName ++ js ".css")).
    { rewrite (apply_writes_unchanged href).
      2:{ by intros w (b & -> & _)%list_elem_of_fmap _ el'. }
      unfold doc1. rewrite lookup_alter_eq. by destruct Hss as [ss ->]. }
    case_decide as Heq; [|done]. rewrite Heq.
    destruct (apply_writes ws doc1 !! js "theme-stylesheet"); [|done].
    exact Hhref.
Qed.

Lemma initializeTheme_stored `(Hstored : localStorage st !! js "resumeTheme" = Some t) :
  t ≠ [] → initializeTheme st = switchTheme t st.
Proof.
  intros Hne. unfold initializeTheme.
  erewrite bind_Normal by (unfold getItem, gets; by rewrite Hstored).
  by destruct t.
Qed.

(** C9: on a page with the stylesheet link and the two selector buttons,
    [switchTheme('classic')] completes normally; afterwards the storage
    holds [classic] under [resumeTheme], the current theme is [classic],
    the button [theme-classic] is marked active and the button
    [theme-modern] is not, and the stylesheet link is [theme-classic.css];
    and [initializeTheme] on any such page with this storage gives the same
    theme and marks. *)
Theorem switchTheme_classic st :
  themeControls st →
  completion (switchTheme (js "classic")) st = Normal ()
  ∧ localStorage (exec (switchTheme (js "classic")) st) !! js "resumeTheme"
    = Some (js "classic")
  ∧ currentTheme (exec (switchTheme (js "classic")) st) = js "classic"
  ∧ markedActive (exec (switchTheme (js "classic")) st) (js "theme-classic")
  ∧ ¬ markedActive (exec (switchTheme (js "classic")) st) (js "theme-modern")
  ∧ href <$> document (exec (switchTheme (js "classic")) st) !! js "theme-stylesheet"
    = Some (js "theme-classic.css")
  ∧ (∀ st2, themeControls st2 →
       localStorage st2 = localStorage (exec (switchTheme (js "classic")) st) →
       completion initializeTheme st2 = Normal ()
       ∧ currentTheme (exec initializeTheme st2) = js "classic"
       ∧ markedActive (exec initializeTheme st2) (js "theme-classic")
       ∧ ¬ markedActive (exec initializeTheme st2) (js "theme-modern")).
Proof.
  assert (Hgen : ∀ s, themeControls s →
    completion (switchTheme (js "classic")) s = Normal ()
    ∧ localStorage (exec (switchTheme (js "classic")) s) !! js "resumeTheme"
      = Some (js "classic")
    ∧ currentTheme (exec (switchTheme (js "classic")) s) = js "classic"
    ∧ markedActive (exec (switchTheme (js "classic")) s) (js "theme-classic")
    ∧ ¬ markedActive (exec (switchTheme (js "classic")) s) (js "theme-modern")
    ∧ href <$> document (exec (switchTheme (js "classic")) s) !! js "theme-stylesheet"
      = Some (js "theme-classic.css")).
  { intros s (Hss & Hmodern & (bc & Hbc & _)).
    assert (Hbtn : is_Some (document s !! (js "theme-" ++ js "classic"))) by eauto.
    destruct (switchTheme_effects (js "classic") s Hss Hbtn)
      as (H1 & H2 & H3 & H4 & H5 & H6).
    split_and!; try done.
    apply H5; [|done]. vm_compute. discriminate. }
  intros Hst. destruct (Hgen st Hst) as (H1 & H2 & H3 & H4 & H5 & H6).
  split_and!; try done.
  intros st2 Hst2 Hstorage.
  assert (Hinit : initializeTheme st2 = switchTheme (js "classic") st2).
  { apply initializeTheme_stored; [by rewrite Hstorage|]. vm_compute. discriminate. }
  unfold completion, exec in *. rewrite Hinit.
  destruct (Hgen st2 Hst2) as (G1 & G2 & G3 & G4 & G5 & G6). by split_and!.
Qed.

Lemma switchTheme_classic_witness :
  themeControls freshPage
  ∧ currentTheme (exec (switchTheme (js "classic")) freshPage) = js "classic".
Proof.
  assert (H : themeControls freshPage).
  { split; [vm_compute; eauto|].
    split; eexists; (split; [vm_compute; reflexivity|]);
      apply (bool_decide_unpack _); vm_compute; exact I. }
  split; [exact H|].
  exact (proj1 (proj2 (proj2 (switchTheme_classic freshPage H)))).
Defined.

(** ** loadFromStorage *)

Lemma with_document_compose (f g : gmap jsstring Element → gmap jsstring Element) st :
  with_document f (with_document g st) = with_document (λ doc, f (g doc)) st.
Proof. done. Qed.

Lemma get_prod_map {V W} (h : V → W) (o : object V) k :
  get (prod_map id h <$> o) k = h <$> get o k.
Proof.
  induction o as [|[k' v] o IH]; [done|].
  cbn. by case_decide.
Qed.

Lemma get_key_is_Some {V} (o : object V) k :
  k ∈ Object_keys o ↔ is_Some (get o k).
Proof.
  unfold Object_keys. induction o as [|[k' v] o IH]; cbn.
  - split; [by intros ?%elem_of_nil | by intros [? [=]]].
  - rewrite elem_of_cons. case_decide as Hk; [subst; split; eauto|].
    rewrite <- IH. split; [intros [?|?]; [congruence|done] | by right].
Qed.

Lemma stepWrites_ext doc doc' formData k :
  (∀ id, is_Some (doc !! id) ↔ is_Some (doc' !! id)) →
  stepWrites doc formData k = stepWrites doc' formData k.
Proof.
  intros Hdom. unfold stepWrites. specialize (Hdom k).
  destruct (doc !! k), (doc' !! k); try done.
  - destruct (proj1 Hdom) as [? [=]]; eauto.
  - destruct (proj2 Hdom) as [? [=]]; eauto.
Qed.

Section loadFromStorage.
Context {host : JSONHost}.

(** One turn of the loop, for a snapshot of strings. *)
Lemma load_step formData k st :
  (inputElement ← getElementById k;
   match inputElement, get (ownProperties (snapshotValue formData)) k with
   | Some inputElement, Some v =>
       if ToBoolean v then
         assign_value inputElement v ;; updatePreview k v
       else mret ()
   | _, _ => mret ()
   end) st
  = (Normal (),
     with_document (apply_writes (stepWrites (document st) formData k)) st).
Proof.
  unfold stepWrites. cbn [ownProperties snapshotValue]. rewrite get_prod_map.
  destruct (document st !! k) as [el|] eqn:Hel.
  - erewrite bind_Normal by (apply getElementById_Some; eauto).
    destruct (get formData k) as [v|]; cbn [fmap option_fmap option_map];
      [|by destruct st].
    unfold assign_value. cbn [ToBoolean ToString ToString_throws].
    destruct (nonempty v); [|by destruct st].
    erewrite bind_Normal by reflexivity. by rewrite updatePreview_JStr.
  - erewrite bind_Normal by (by apply getElementById_None). by destruct st.
Qed.

Lemma load_loop formData ks st :
  forEach ks (λ k,
    inputElement ← getElementById k;
    match inputElement, get (ownProperties (snapshotValue formData)) k with
    | Some inputElement, Some v =>
        if ToBoolean v then
          assign_value inputElement v ;; updatePreview k v
        else mret ()
    | _, _ => mret ()
    end) st
  = (Normal (),
     with_document
       (apply_writes (ks ≫= stepWrites (document st) formData)) st).
Proof.
  revert st. induction ks as [|k ks IH]; intros st; [by destruct st|].
  cbn [forEach]. erewrite bind_Normal by apply load_step. rewrite IH.
  rewrite with_document_compose. f_equal. destruct st as [doc ls th co].
  unfold with_document. cbn [document localStorage currentTheme console].
  f_equal. rewrite bind_cons, apply_writes_app. f_equal.
  clear IH. induction ks as [|k' ks IH]; [done|]. rewrite !bind_cons.
  f_equal; [|done].
  apply stepWrites_ext. intros id. apply apply_writes_is_Some.
Qed.

(** [loadFromStorage] on the text of a snapshot of strings. *)
Lemma loadFromStorage_on_snapshot st s formData :
  localStorage st !! js "resumeFormData" = Some s →
  s ≠ [] →
  JSON_parse s = Some (snapshotValue formData) →
  loadFromStorage st
  = (Normal (),
     with_document (apply_writes (loadWrites (document st) formData)) st).
Proof.
  intros Hs Hne Hparse. unfold loadFromStorage.
  erewrite bind_Normal by (unfold getItem, gets; by rewrite Hs).
  destruct s as [|c s]; [done|]. cbn [nonempty]. unfold try_catch.
  erewrite bind_Normal by (unfold call_JSON_parse; by rewrite Hparse).
  erewrite bind_Normal by reflexivity.
  cbn [ownProperties snapshotValue]. unfold loadWrites.
  pose proof (load_loop formData (Object_keys formData) st) as Hloop.
  cbn [ownProperties snapshotValue] in Hloop.
  replace (Object_keys (prod_map id JStr <$> formData))
    with (Object_keys formData).
  2:{ unfold Object_keys. rewrite <- list_fmap_compose.
      apply list_fmap_ext. by intros _ [??] _. }
  by rewrite Hloop.
Qed.

(** Whatever is stored, [loadFromStorage] completes normally. *)
Lemma loadFromStorage_completion st :
  completion loadFromStorage st = Normal ().
Proof.
  unfold completion, loadFromStorage, mbind at 1, JS_bind at 1, getItem, gets.
  cbv beta iota.
  destruct (localStorage st !! js "resumeFormData") as [s|]; [|done].
  destruct (nonempty s); [|done]. unfold try_catch.
  match goal with |- context [match ?b st with _ => _ end] => destruct (b st) as [[[]|e] st'] end;
    done.
Qed.

(** When [JSON.parse] throws, the error is reported and nothing else
    happens. *)
Lemma loadFromStorage_unparseable st s :
  localStorage st !! js "resumeFormData" = Some s →
  JSON_parse s = None →
  loadFromStorage st
  = (Normal (),
     if nonempty s then with_console (λ log, log ++ [SyntaxError]) st else st).
Proof.
  intros Hs Hparse. unfold loadFromStorage.
  erewrite bind_Normal by (unfold getItem, gets; by rewrite Hs).
  cbv beta iota. destruct (nonempty s); [|done].
  unfold try_catch, mbind, JS_bind, call_JSON_parse. by rewrite Hparse.
Qed.

End loadFromStorage.

(** ** The tables *)

Lemma NoDup_snd_inj {A B} (l : list (A * B)) a b c :
  NoDup (l.*2) → (a, c) ∈ l → (b, c) ∈ l → a = b.
Proof.
  induction l as [|[x y] l IH]; [by intros _ ?%elem_of_nil|].
  cbn. rewrite NoDup_cons. intros [Hy Hnd] Ha Hb.
  apply elem_of_cons in Ha as [Ha|Ha], Hb as [Hb|Hb].
  - apply pair_equal_spec in Ha as [-> _], Hb as [-> _]. done.
  - apply pair_equal_spec in Ha as [_ ->]. destruct Hy.
    by apply (list_elem_of_fmap_2 snd) in Hb.
  - apply pair_equal_spec in Hb as [_ ->]. destruct Hy.
    by apply (list_elem_of_fmap_2 snd) in Ha.
  - by apply IH.
Qed.

Lemma fieldMappings_NoDup :
  NoDup (Object_keys fieldMappings) ∧ NoDup (fieldMappings.*2).
Proof. split; apply (bool_decide_unpack _); vm_compute; exact I. Qed.

(** The preview [p] of [f] is written for no other id. *)
Lemma keyOf_preview_inj k f p :
  (f, p) ∈ fieldMappings →
  keyOf (get fieldMappings k) = p →
  get fieldMappings k = Some p ∧ k = f.
Proof.
  intros Hin Hkey. destruct (get fieldMappings k) as [p'|] eqn:Hget.
  - cbn in Hkey. subst p'. split; [done|].
    apply get_Some_elem_of in Hget.
    exact (NoDup_snd_inj _ _ _ _ (proj2 fieldMappings_NoDup) Hget Hin).
  - exfalso. cbn in Hkey. subst p.
    apply (list_elem_of_fmap_2 snd) in Hin. revert Hin.
    apply (bool_decide_unpack _). vm_compute. exact I.
Qed.

(** ** The writes of loadFromStorage *)

Lemma loadWrites_elem w doc formData :
  w ∈ loadWrites doc formData ↔
  ∃ k v, get formData k = Some v ∧ is_Some (doc !! k) ∧ v ≠ []
         ∧ (w = (k, with_value v)
            ∨ w = (keyOf (get fieldMappings k),
                   with_content (writtenContent (get fieldMappings k) v))).
Proof.
  unfold loadWrites. rewrite list_elem_of_bind. unfold stepWrites. split.
  - intros (k & Hw & Hk). destruct (doc !! k) as [el|] eqn:Hel;
      [|by apply elem_of_nil in Hw].
    destruct (get formData k) as [v|] eqn:Hget; [|by apply elem_of_nil in Hw].
    destruct (nonempty v) eqn:Hv; [|by apply elem_of_nil in Hw].
    apply nonempty_true in Hv. exists k, v. split_and!; [done|eauto|done|].
    apply elem_of_cons in Hw as [->|Hw]; [by left|].
    apply list_elem_of_singleton in Hw as ->. by right.
  - intros (k & v & Hget & [el Hel] & Hv & Hw). exists k.
    split; [|apply get_key_is_Some; eauto].
    rewrite Hel, Hget, (proj2 (nonempty_true v) Hv).
    destruct Hw as [->| ->]; [by left|].
    right. by apply list_elem_of_singleton.
Qed.

(** The value of an element after the load. *)
Lemma loadWrites_value doc formData k :
  value <$> apply_writes (loadWrites doc formData) doc !! k
  = match get formData k with
    | Some (c :: v) => (λ _, c :: v) <$> doc !! k
    | _ => value <$> doc !! k
    end.
Proof.
  destruct (get formData k) as [[|c v]|] eqn:Hget.
  - apply apply_writes_unchanged.
    intros w (k' & v' & Hget' & _ & Hv' & [-> | ->])%loadWrites_elem Hkey el;
      [|done]. cbn in Hkey. subst k'. congruence.
  - destruct (doc !! k) as [el|] eqn:Hel.
    + rewrite <- Hel. apply apply_writes_set.
      * exists (k, with_value (c :: v)). split_and!; [|done..].
        apply loadWrites_elem. exists k, (c :: v). split_and!; eauto.
      * intros w (k' & v' & Hget' & _ & Hv' & [-> | ->])%loadWrites_elem Hkey;
          [|by right]. cbn in Hkey. subst k'. left. intros el'. cbn. congruence.
    + by rewrite apply_writes_None.
  - apply apply_writes_unchanged.
    intros w (k' & v' & Hget' & _ & Hv' & [-> | ->])%loadWrites_elem Hkey el;
      [|done]. cbn in Hkey. subst k'. congruence.
Qed.

(** The content of the preview of a mapped input after the load. *)
Lemma loadWrites_content doc formData f p :
  (f, p) ∈ fieldMappings →
  content <$> apply_writes (loadWrites doc formData) doc !! p
  = match get formData f, doc !! f with
    | Some (c :: v), Some _ => (λ _, previewContent p (c :: v)) <$> doc !! p
    | _, _ => content <$> doc !! p
    end.
Proof.
  intros Hin. destruct (fieldMappings_cases _ _ Hin) as [Hgetp Hp].
  assert (Hkeep : ∀ k' v',
    keyOf (get fieldMappings k') = p → get formData k' = Some v' →
    is_Some (doc !! k') → v' ≠ [] →
    (get formData f = Some v' → is_Some (doc !! f) → False) → False).
  { intros k' v' Hkey Hget' Hel' Hv' Hno.
    destruct (keyOf_preview_inj _ _ _ Hin Hkey) as [_ ->]. by apply Hno. }
  assert (Hunchanged :
    (∀ v', get formData f = Some v' → is_Some (doc !! f) → v' ≠ [] → False) →
    content <$> apply_writes (loadWrites doc formData) doc !! p
    = content <$> doc !! p).
  { intros Hno. apply apply_writes_unchanged.
    intros w (k' & v' & Hget' & Hel' & Hv' & [-> | ->])%loadWrites_elem Hkey el;
      [done|]. exfalso. apply (Hkeep k' v'); eauto. }
  destruct (get formData f) as [[|c v]|] eqn:Hget.
  - apply Hunchanged. intros v' [= <-] _ Hv'. by apply Hv'.
  - destruct (doc !! f) as [elf|] eqn:Helf.
    2:{ apply Hunchanged. by intros v' _ [? [=]]. }
    destruct (doc !! p) as [el|] eqn:Hel.
    + rewrite <- Hel. apply apply_writes_set.
      * exists (p, with_content (previewContent p (c :: v))).
        split_and!; [|done..]. apply loadWrites_elem. exists f, (c :: v).
        split_and!; eauto. right.
        by rewrite Hgetp, (writtenContent_mapped _ _ Hp).
      * intros w (k' & v' & Hget' & _ & Hv' & [-> | ->])%loadWrites_elem Hkey;
          [by right|]. left. intros el'. cbn [fst snd] in Hkey |- *.
        destruct (keyOf_preview_inj _ _ _ Hin Hkey) as [Hget'' ->].
        rewrite Hget'', (writtenContent_mapped _ _ Hp).
        rewrite Hget in Hget'. by injection Hget' as <-.
    + by rewrite apply_writes_None.
  - apply Hunchanged. by intros v' [=].
Qed.

Section loading.
Context {host : JSONHost}.

(** C3, as amended: on a stored text that parses to a snapshot of
    strings, [loadFromStorage] completes normally; for every key of the
    snapshot whose stored value is not the empty string and that is the id
    of an element of the page, that element receives the stored value, and
    the preview mapped to the key is what [updatePreview] makes of that
    value; a key whose stored value is the empty string is skipped: its
    element keeps its value and its preview keeps its content. *)
Theorem loadFromStorage_snapshot st s formData :
  localStorage st !! js "resumeFormData" = Some s →
  s ≠ [] →
  JSON_parse s = Some (snapshotValue formData) →
  completion loadFromStorage st = Normal ()
  ∧ (∀ k v, get formData k = Some v → v ≠ [] → is_Some (document st !! k) →
       valueOf (exec loadFromStorage st) k = Some v
       ∧ ∀ p, (k, p) ∈ fieldMappings →
           contentOf (exec loadFromStorage st) p
           = contentOf (exec (updatePreview k (JStr v)) st) p)
  ∧ (∀ k, get formData k = Some [] →
       valueOf (exec loadFromStorage st) k = valueOf st k
       ∧ ∀ p, (k, p) ∈ fieldMappings →
           contentOf (exec loadFromStorage st) p = contentOf st p).
Proof.
  intros Hs Hne Hparse. split; [apply loadFromStorage_completion|].
  unfold exec, valueOf, contentOf.
  rewrite (loadFromStorage_on_snapshot _ _ _ Hs Hne Hparse).
  cbn [fst snd document with_document]. split.
  - intros k v Hget Hv [el Hel]. destruct v as [|c v]; [done|]. split.
    + by rewrite loadWrites_value, Hget, Hel.
    + intros p Hin. rewrite (loadWrites_content _ _ _ _ Hin), Hget, Hel.
      destruct (fieldMappings_cases _ _ Hin) as [Hgetp Hp].
      rewrite updatePreview_JStr, Hgetp. change (keyOf (Some p)) with p.
      cbn [fst snd document with_document].
      rewrite lookup_alter_eq, (writtenContent_mapped _ _ Hp).
      by destruct (document st !! p).
  - intros k Hget. split.
    + by rewrite loadWrites_value, Hget.
    + intros p Hin. by rewrite (loadWrites_content _ _ _ _ Hin), Hget.
Qed.

(** C8, as amended: whatever is stored, [loadFromStorage] completes
    normally; and when [JSON.parse] throws on the stored text, the page, the
    storage and the theme are as before, and the console has received the
    [SyntaxError] (nothing at all happens for the empty text, which is not
    parsed). *)
Theorem loadFromStorage_corrupt st :
  completion loadFromStorage st = Normal ()
  ∧ (∀ s, localStorage st !! js "resumeFormData" = Some s →
       JSON_parse s = None →
       document (exec loadFromStorage st) = document st
       ∧ localStorage (exec loadFromStorage st) = localStorage st
       ∧ currentTheme (exec loadFromStorage st) = currentTheme st
       ∧ (s ≠ [] → console (exec loadFromStorage st) = console st ++ [SyntaxError])
       ∧ (s = [] → console (exec loadFromStorage st) = console st)).
Proof.
  split; [apply loadFromStorage_completion|].
  intros s Hs Hparse. unfold exec.
  rewrite (loadFromStorage_unparseable _ _ Hs Hparse).
  destruct s as [|c s]; cbn [nonempty snd]; by split_and!.
Qed.

End loading.

(** ** The reference implementation of JSON *)

Module RefJSONFacts.
Import RefJSON.

Lemma hexValue_hexDigit d : d < 16 → hexValue (hexDigit d) = Some d.
Proof.
  intros Hd. destruct d as [|p]; [reflexivity|].
  do 4 (try destruct p as [p|p|]); try reflexivity; lia.
Qed.

Lemma hex_recompose c :
  c < 65536 →
  4096 * ((c / 4096) mod 16) + 256 * ((c / 256) mod 16)
    + 16 * ((c / 16) mod 16) + c mod 16 = c.
Proof.
  intros Hc.
  pose proof (N.Div0.div_mod c 16) as H1.
  pose proof (N.Div0.div_mod (c / 16) 16) as H2.
  pose proof (N.Div0.div_mod (c / 256) 16) as H3.
  assert (E1 : c / 16 / 16 = c / 256) by (rewrite N.Div0.div_div; reflexivity).
  assert (E2 : c / 256 / 16 = c / 4096) by (rewrite N.Div0.div_div; reflexivity).
  assert (c / 4096 < 16) by (apply N.Div0.div_lt_upper_bound; lia).
  rewrite (N.mod_small (c / 4096) 16) by assumption.
  lia.
Qed.

Lemma readString_unicodeEscape c tail acc :
  c < 65536 →
  readString (unicodeEscape c ++ tail) acc = readString tail (c :: acc).
Proof.
  intros Hc. unfold unicodeEscape. cbn [app readString].
  change (92 =? 34) with false. change (92 =? 92) with true.
  change (117 =? 117) with true. cbv beta iota.
  rewrite !hexValue_hexDigit by (apply N.mod_lt; lia).
  by rewrite hex_recompose.
Qed.

Lemma readString_literal c tail acc :
  c ≠ 34 → c ≠ 92 → 32 ≤ c →
  readString (c :: tail) acc = readString tail (c :: acc).
Proof.
  intros H34 H92 H32. cbn [readString].
  rewrite (proj2 (N.eqb_neq c 34)), (proj2 (N.eqb_neq c 92)) by done.
  by rewrite (proj2 (N.ltb_ge c 32)).
Qed.

Lemma readString_quoteChar c tail acc :
  readString (quoteChar c ++ tail) acc = readString tail (c :: acc).
Proof.
  unfold quoteChar.
  repeat match goal with
         | |- context [c =? ?n] =>
             let E := fresh "E" in
             destruct (c =? n) eqn:E;
               [apply N.eqb_eq in E; subst c; reflexivity | apply N.eqb_neq in E]
         end.
  destruct (c <? 32) eqn:E32.
  - apply N.ltb_lt in E32. apply readString_unicodeEscape. lia.
  - apply N.ltb_ge in E32. by apply readString_literal.
Qed.

Lemma list_pair_ind {A} (P : list A → Prop) :
  P [] → (∀ x, P [x]) → (∀ x y l, P l → P (y :: l) → P (x :: y :: l)) →
  ∀ l, P l.
Proof.
  intros Hnil Hone Hcons l.
  assert (H : P l ∧ ∀ x, P (x :: l)); [|by destruct H].
  induction l as [|y l [IH1 IH2]]; [by split|].
  split; [apply IH2|]. intros x. by apply Hcons.
Qed.

Lemma quoteChars_cons c r :
  quoteChars (c :: r)
  = if isLeadSurrogate c then
      match r with
      | d :: r' =>
          if isTrailSurrogate d then c :: d :: quoteChars r'
          else unicodeEscape c ++ quoteChars r
      | [] => unicodeEscape c
      end
    else if isTrailSurrogate c then unicodeEscape c ++ quoteChars r
    else quoteChar c ++ quoteChars r.
Proof. reflexivity. Qed.

(** Reading back the characters of a quoted string. *)
Lemma readString_quoteChars s tail acc :
  readString (quoteChars s ++ tail) acc = readString tail (rev s ++ acc).
Proof.
  revert acc. induction s as [|c|c d r IHr IHdr] using list_pair_ind; intros acc.
  - done.
  - cbn [quoteChars rev app].
    destruct (isLeadSurrogate c) eqn:Hlead;
      [|destruct (isTrailSurrogate c) eqn:Htrail].
    + apply readString_unicodeEscape.
      unfold isLeadSurrogate in Hlead. apply andb_true_iff in Hlead as [_ H].
      apply N.leb_le in H. lia.
    + rewrite app_nil_r. apply readString_unicodeEscape.
      unfold isTrailSurrogate in Htrail. apply andb_true_iff in Htrail as [_ H].
      apply N.leb_le in H. lia.
    + rewrite app_nil_r. apply readString_quoteChar.
  - assert (Hrev : ∀ x (l a : jsstring), rev (x :: l) ++ a = rev l ++ x :: a).
    { intros x l a. cbn [rev]. by rewrite <- app_assoc. }
    rewrite (quoteChars_cons c (d :: r)).
    destruct (isLeadSurrogate c) eqn:Hlead;
      [destruct (isTrailSurrogate d) eqn:Htrail
      |destruct (isTrailSurrogate c) eqn:Htrail].
    + unfold isLeadSurrogate in Hlead. apply andb_true_iff in Hlead as [H1 _].
      unfold isTrailSurrogate in Htrail. apply andb_true_iff in Htrail as [H2 _].
      apply N.leb_le in H1, H2. cbn [app].
      rewrite !readString_literal by lia. rewrite IHr, !Hrev. done.
    + rewrite <- app_assoc, readString_unicodeEscape, IHdr, (Hrev c); [done|].
      unfold isLeadSurrogate in Hlead. apply andb_true_iff in Hlead as [_ H].
      apply N.leb_le in H. lia.
    + rewrite <- app_assoc, readString_unicodeEscape, IHdr, (Hrev c); [done|].
      unfold isTrailSurrogate in Htrail. apply andb_true_iff in Htrail as [_ H].
      apply N.leb_le in H. lia.
    + by rewrite <- app_assoc, readString_quoteChar, IHdr, (Hrev c).
Qed.

Section parser.
Variable numberOf : jsstring → JSNumber.

Lemma parseValue_quote fuel v tail :
  parseValue numberOf (S fuel) (quote v ++ tail) = Some (JStr v, tail).
Proof.
  unfold quote. rewrite <- !app_assoc. cbn [app parseValue skipWhitespace].
  change (isJSONWhitespace QUOTE) with false. cbv beta iota.
  change (QUOTE =? 34) with true. cbv beta iota.
  rewrite readString_quoteChars. cbn [readString].
  change (QUOTE =? 34) with true. cbv beta iota.
  by rewrite app_nil_r, rev_involutive.
Qed.

Lemma parseMembers_S fuel s acc :
  parseMembers numberOf (S fuel) s acc
  = (s1 ← expect [QUOTE] (skipWhitespace s);
     '(key, s2) ← readString s1 [];
     s3 ← expect (js ":") (skipWhitespace s2);
     '(v, s4) ← parseValue numberOf fuel s3;
     let acc := set acc key v in
     match skipWhitespace s4 with
     | c :: rest =>
         if c =? 44 then parseMembers numberOf fuel rest acc
         else if c =? 125 then Some (JObj (orderKeys acc), rest)
         else None
     | [] => None
     end).
Proof. reflexivity. Qed.

(** One member of an object, followed by what ends or continues it. *)
Lemma parseMembers_member fuel kv tail acc :
  parseMembers numberOf (S (S fuel)) (member kv ++ tail) acc
  = match skipWhitespace tail with
    | c :: rest =>
        if c =? 44 then
          parseMembers numberOf (S fuel) rest (set acc kv.1 (JStr kv.2))
        else if c =? 125 then
          Some (JObj (orderKeys (set acc kv.1 (JStr kv.2))), rest)
        else None
    | [] => None
    end.
Proof.
  rewrite parseMembers_S.
  unfold member, quote at 1. rewrite <- !app_assoc.
  cbn [app skipWhitespace].
  change (isJSONWhitespace QUOTE) with false. cbv beta iota.
  cbn [expect]. change (QUOTE =? QUOTE) with true. cbv beta iota.
  cbn [mbind option_bind]. rewrite readString_quoteChars. cbn [readString].
  change (QUOTE =? 34) with true. cbv beta iota.
  rewrite app_nil_r, rev_involutive.
  change (js ":" ++ quote kv.2 ++ tail) with (58 :: quote kv.2 ++ tail).
  cbn [mbind option_bind skipWhitespace].
  change (isJSONWhitespace 58) with false.
  cbv beta iota. change (js ":") with [58]. cbn [expect].
  change (58 =? 58) with true. cbv beta iota. cbn [mbind option_bind].
  by rewrite parseValue_quote.
Qed.

Lemma join_comma_cons2 (s s' : jsstring) l :
  join_comma (s :: s' :: l) = s ++ js "," ++ join_comma (s' :: l).
Proof. reflexivity. Qed.

Lemma isJSONWhitespace_skip c r :
  isJSONWhitespace c = false → skipWhitespace (c :: r) = c :: r.
Proof. intros Hc. cbn [skipWhitespace]. by rewrite Hc. Qed.

(** The members of an object that is not empty, up to its closing brace. *)
Lemma parseMembers_flat o kv acc fuel tail :
  (length o + 2 ≤ fuel)%nat →
  parseMembers numberOf fuel
    (join_comma (member <$> kv :: o) ++ 125 :: tail) acc
  = Some (JObj (orderKeys (foldl (λ a x, set a x.1 (JStr x.2)) acc (kv :: o))),
          tail).
Proof.
  revert kv acc fuel. induction o as [|kv' o IH]; intros kv acc fuel Hfuel.
  - destruct fuel as [|[|fuel]]; [cbn in Hfuel; lia..|].
    cbn [fmap list_fmap join_comma foldl]. rewrite parseMembers_member.
    by rewrite isJSONWhitespace_skip.
  - destruct fuel as [|[|fuel]]; [cbn in Hfuel; lia..|].
    rewrite !fmap_cons, join_comma_cons2, <- !app_assoc, parseMembers_member.
    change (js "," ++ ?x) with (44 :: x).
    rewrite isJSONWhitespace_skip by done.
    change (44 =? 44) with true. cbv beta iota.
    rewrite <- fmap_cons, IH by (cbn in Hfuel |- *; lia). done.
Qed.

Lemma parseValue_brace fuel r :
  parseValue numberOf (S fuel) (123 :: r)
  = match skipWhitespace r with
    | 125 :: rest => Some (JObj [], rest)
    | _ => parseMembers numberOf fuel r []
    end.
Proof. reflexivity. Qed.

End parser.

Lemma member_head kv : ∃ r, member kv = QUOTE :: r.
Proof. unfold member, quote. cbn [app]. eauto. Qed.

Lemma length_join_members (o : object jsstring) :
  (length o ≤ length (join_comma (member <$> o)))%nat.
Proof.
  induction o as [|kv [|kv' o] IH]; [done|..].
  - destruct (member_head kv) as [r Hr]. cbn [fmap list_fmap join_comma].
    rewrite Hr. cbn. lia.
  - rewrite !fmap_cons, join_comma_cons2, !length_app.
    rewrite !fmap_cons in IH. destruct (member_head kv) as [r ->].
    cbn [length] in *. lia.
Qed.

Lemma set_fresh {V} (acc : object V) k v :
  k ∉ Object_keys acc → set acc k v = acc ++ [(k, v)].
Proof.
  unfold Object_keys. induction acc as [|[k' v'] acc IH]; [done|].
  cbn. rewrite not_elem_of_cons. intros [Hne Hnotin].
  case_decide; [congruence|]. by rewrite IH.
Qed.

Lemma foldl_set_fresh (o : object jsstring) (acc : object JSValue) :
  NoDup (Object_keys o) →
  (∀ k, k ∈ Object_keys o → k ∉ Object_keys acc) →
  foldl (λ a x, set a x.1 (JStr x.2)) acc o = acc ++ (prod_map id JStr <$> o).
Proof.
  unfold Object_keys. revert acc.
  induction o as [|[k v] o IH]; intros acc Hnd Hfresh.
  - by rewrite app_nil_r.
  - cbn in Hnd. apply NoDup_cons in Hnd as [Hk Hnd]. cbn [foldl fst snd].
    rewrite set_fresh by (apply Hfresh; cbn; left).
    rewrite IH; [by rewrite <- app_assoc|done|].
    intros k' Hk'. rewrite fmap_app. cbn. rewrite elem_of_app.
    intros [Hin|Hin%list_elem_of_singleton].
    + by apply (Hfresh k'); [right|].
    + by subst k'.
Qed.

Lemma arrayIndex_None k : startsWithDigit k = false → arrayIndex k = None.
Proof.
  destruct k as [|d ds]; [done|]. unfold startsWithDigit, arrayIndex.
  cbn [forallb]. unfold isDigit. by intros ->.
Qed.

Lemma orderKeys_id {V} (o : object V) :
  Forall (λ k, startsWithDigit k = false) (Object_keys o) → orderKeys o = o.
Proof.
  unfold Object_keys, orderKeys. intros Hall.
  assert (Hnone : ∀ kv, kv ∈ o → arrayIndex kv.1 = None).
  { intros kv Hkv. apply arrayIndex_None.
    rewrite Forall_forall in Hall. apply Hall. by apply list_elem_of_fmap_2. }
  clear Hall.
  assert (Homap : omap (λ kv, n ← arrayIndex kv.1; Some (n, kv)) o = []).
  { induction o as [|kv o IH]; [done|].
    cbn [omap list_omap]. rewrite (Hnone kv) by left. cbn [mbind option_bind].
    apply IH. intros kv' H. apply Hnone. by right. }
  rewrite Homap. cbn [foldr fmap list_fmap app].
  induction o as [|kv o IH]; [done|].
  rewrite filter_cons_True by (apply Hnone; left). f_equal.
  - apply IH; [intros kv' H; apply Hnone; by right|].
    cbn [omap list_omap] in Homap. rewrite (Hnone kv) in Homap by left.
    exact Homap.
Qed.

Lemma parse_stringify numberOf (formData : object jsstring) :
  NoDup (Object_keys formData) →
  Forall (λ k, startsWithDigit k = false) (Object_keys formData) →
  parse numberOf (stringify formData) = Some (snapshotValue formData).
Proof.
  intros Hnd Hdigits. unfold parse, stringify.
  change (js "{" ++ ?x) with (123 :: x).
  set (text := 123 :: join_comma (member <$> formData) ++ js "}").
  assert (Hfuel : (length formData + 2 ≤ 2 * length text + 1)%nat).
  { unfold text. cbn [length]. rewrite length_app.
    pose proof (length_join_members formData). lia. }
  replace (2 * length text + 2)%nat with (S (2 * length text + 1)) by lia.
  unfold text at 2. rewrite parseValue_brace.
  destruct formData as [|kv o]; [reflexivity|].
  change (js "}") with [125].
  assert (Hhead : ∃ r, join_comma (member <$> kv :: o) = QUOTE :: r).
  { destruct (member_head kv) as [r Hr]. destruct o as [|kv' o].
    - cbn. eauto.
    - rewrite !fmap_cons, join_comma_cons2, Hr. cbn [app]. eauto. }
  destruct Hhead as [r Hr]. rewrite Hr at 1. cbn [app].
  rewrite isJSONWhitespace_skip by done. unfold QUOTE at 1. cbv beta iota.
  rewrite parseMembers_flat by (cbn [length] in Hfuel |- *; lia).
  cbn [mbind option_bind skipWhitespace]. f_equal. unfold snapshotValue. f_equal.
  rewrite foldl_set_fresh; [|done|by intros k _ ?%elem_of_nil].
  cbn [app]. apply orderKeys_id.
  unfold Object_keys in *. rewrite <- list_fmap_compose.
  erewrite list_fmap_ext; [exact Hdigits|]. by intros _ [??] _.
Qed.

Lemma stringify_nonempty (formData : object jsstring) : stringify formData ≠ [].
Proof. done. Qed.

End RefJSONFacts.

(** The reference implementation satisfies the laws, whatever the
    conversion of numbers. *)
Global Instance refJSON_laws numberOf : JSONLaws (refJSON numberOf).
Proof.
  split.
  - apply RefJSONFacts.stringify_nonempty.
  - apply RefJSONFacts.parse_stringify.
Qed.

(** ** saveToStorage, then loadFromStorage *)

Lemma collected_fresh (doc : gmap jsstring Element) ids (formData : object jsstring) :
  NoDup ids →
  (∀ k, k ∈ ids → k ∉ Object_keys formData) →
  collected doc ids formData
  = formData ++ omap (λ id, el ← doc !! id; Some (id, value el)) ids.
Proof.
  revert formData. induction ids as [|id ids IH]; intros formData Hnd Hfresh.
  - cbn. by rewrite app_nil_r.
  - apply NoDup_cons in Hnd as [Hid Hnd]. cbn [collected omap list_omap].
    destruct (doc !! id) as [el|]; cbn [mbind option_bind].
    + rewrite RefJSONFacts.set_fresh by (apply Hfresh; left).
      rewrite IH; [by rewrite <- app_assoc|done|].
      intros k Hk. unfold Object_keys. rewrite fmap_app, elem_of_app.
      intros [Hin|Hin%list_elem_of_singleton].
      * by apply (Hfresh k); [right|].
      * cbn in Hin. by subst k.
    + apply IH; [done|]. intros k Hk. apply Hfresh. by right.
Qed.

Lemma collected_keys (doc : gmap jsstring Element) ids k :
  k ∈ Object_keys (omap (λ id, el ← doc !! id; Some (id, value el)) ids) →
  k ∈ ids.
Proof.
  unfold Object_keys.
  intros ([k' v] & -> & (id & Hid & Hsome)%list_elem_of_omap)%list_elem_of_fmap.
  destruct (doc !! id); [|done]. cbn in Hsome. by injection Hsome as -> _.
Qed.

Lemma collected_NoDup (doc : gmap jsstring Element) ids :
  NoDup ids →
  NoDup (Object_keys (omap (λ id, el ← doc !! id; Some (id, value el)) ids)).
Proof.
  unfold Object_keys. induction ids as [|id ids IH]; intros Hnd; [constructor|].
  apply NoDup_cons in Hnd as [Hid Hnd]. cbn [omap list_omap].
  destruct (doc !! id) as [el|]; cbn [mbind option_bind]; [|by apply IH].
  cbn. apply NoDup_cons. split; [|by apply IH].
  intros Hin. apply Hid. by apply (collected_keys doc).
Qed.

Lemma collected_get (doc : gmap jsstring Element) ids f :
  f ∈ ids →
  get (omap (λ id, el ← doc !! id; Some (id, value el)) ids) f
  = value <$> doc !! f.
Proof.
  induction ids as [|id ids IH]; [by intros ?%elem_of_nil|].
  intros Hf. cbn [omap list_omap].
  destruct (decide (id = f)) as [->|Hne].
  - destruct (doc !! f) as [el|] eqn:Hel; cbn [mbind option_bind].
    + cbn. by rewrite decide_True.
    + apply elem_of_cons in Hf as [_|Hf].
      * destruct (get _ f) as [v|] eqn:Hget; [|done].
        assert (Hin : f ∈ Object_keys
                  (omap (λ id, el ← doc !! id; Some (id, value el)) ids))
          by (apply get_key_is_Some; eauto).
        clear IH. exfalso. unfold Object_keys in Hin.
        apply list_elem_of_fmap in Hin as ([k' v'] & -> & Hin).
        apply list_elem_of_omap in Hin as (id & _ & Hsome).
        destruct (doc !! id) as [el|] eqn:Hid; [|done].
        cbn in Hsome. injection Hsome as -> _. cbn in Hel. congruence.
      * by apply IH.
  - apply elem_of_cons in Hf as [->|Hf]; [done|].
    destruct (doc !! id); cbn [mbind option_bind]; [|by apply IH].
    cbn. rewrite decide_False by done. by apply IH.
Qed.

(** C5: after [saveToStorage] on any page, [loadFromStorage] on a fresh
    page (the same inputs, all empty) that has kept the stored snapshot
    gives every input of [fieldMappings] the value it had when it was
    saved. *)
Theorem saveToStorage_loadFromStorage {host : JSONHost} {laws : JSONLaws host}
    st st2 :
  localStorage st2 !! js "resumeFormData"
    = localStorage (exec saveToStorage st) !! js "resumeFormData" →
  (∀ f, f ∈ Object_keys fieldMappings →
        is_Some (document st2 !! f) ↔ is_Some (document st !! f)) →
  (∀ f, f ∈ Object_keys fieldMappings →
        is_Some (document st2 !! f) → valueOf st2 f = Some []) →
  completion saveToStorage st = Normal ()
  ∧ completion loadFromStorage st2 = Normal ()
  ∧ ∀ f, f ∈ Object_keys fieldMappings →
         valueOf (exec loadFromStorage st2) f = valueOf st f.
Proof.
  intros Hstored Hsame Hfresh.
  split; [unfold completion; by rewrite saveToStorage_eq|].
  split; [apply loadFromStorage_completion|].
  unfold exec in Hstored. rewrite saveToStorage_eq in Hstored.
  cbn [snd with_localStorage localStorage] in Hstored.
  rewrite lookup_insert_eq in Hstored.
  rewrite collected_fresh in Hstored;
    [|apply fieldMappings_NoDup|by intros k _ ?%elem_of_nil].
  cbn [app] in Hstored.
  set (formData := omap (λ id, el ← document st !! id; Some (id, value el))
                     (Object_keys fieldMappings)) in *.
  assert (Hparse : JSON_parse (JSON_stringify formData)
                   = Some (snapshotValue formData)).
  { apply JSON_parse_stringify.
    - apply collected_NoDup, fieldMappings_NoDup.
    - apply Forall_forall. intros k Hk%collected_keys. revert k Hk.
      apply Forall_forall. apply (bool_decide_unpack _). vm_compute. exact I. }
  intros f Hf. unfold exec, valueOf.
  rewrite (loadFromStorage_on_snapshot _ _ _ Hstored
             (JSON_stringify_nonempty formData) Hparse).
  cbn [snd with_document document].
  rewrite loadWrites_value. unfold formData at 1. rewrite collected_get by done.
  specialize (Hsame f Hf). specialize (Hfresh f Hf). unfold valueOf in Hfresh.
  destruct (document st !! f) as [el|] eqn:Hel; cbn [fmap option_fmap option_map].
  - destruct (proj2 Hsame) as [el2 Hel2]; [eauto|].
    destruct (value el) as [|c v].
    + apply Hfresh. eauto.
    + by rewrite Hel2.
  - destruct (document st2 !! f) as [el2|] eqn:Hel2; [|done].
    destruct (proj1 Hsame) as [? [=]]. eauto.
Qed.

Lemma saveToStorage_loadFromStorage_witness :
  JSONLaws (refJSON integerNumber)
  ∧ valueOf
      (exec (loadFromStorage (host := refJSON integerNumber))
         (reloaded
            (exec (saveToStorage (host := refJSON integerNumber))
               (pageWith (js "input-name") (js "Ada") None))))
      (js "input-name")
    = Some (js "Ada").
Proof.
  split; [apply refJSON_laws|].
  assert (Hkeys : ∀ (P : jsstring → Prop),
    Forall P (Object_keys fieldMappings) →
    ∀ f, f ∈ Object_keys fieldMappings → P f).
  { intros P HP. by apply Forall_forall. }
  assert (Hname : js "input-name" ∈ Object_keys fieldMappings)
    by (apply (bool_decide_unpack _); vm_compute; exact I).
  assert (Hsame : ∀ f, f ∈ Object_keys fieldMappings →
    is_Some (document (reloaded
               (exec (saveToStorage (host := refJSON integerNumber))
                  (pageWith (js "input-name") (js "Ada") None))) !! f)
    ↔ is_Some (document (pageWith (js "input-name") (js "Ada") None) !! f)).
  { apply Hkeys. unfold Object_keys, fieldMappings. cbn [fmap list_fmap fst].
    repeat (apply Forall_cons_2; [split; intros _; vm_compute; eauto|]).
    apply Forall_nil_2. }
  assert (Hfresh : ∀ f, f ∈ Object_keys fieldMappings →
    is_Some (document (reloaded
               (exec (saveToStorage (host := refJSON integerNumber))
                  (pageWith (js "input-name") (js "Ada") None))) !! f) →
    valueOf (reloaded
               (exec (saveToStorage (host := refJSON integerNumber))
                  (pageWith (js "input-name") (js "Ada") None))) f = Some []).
  { intros f Hf _. revert f Hf.
    apply (Hkeys (λ f, valueOf (reloaded
               (exec (saveToStorage (host := refJSON integerNumber))
                  (pageWith (js "input-name") (js "Ada") None))) f = Some [])).
    unfold Object_keys, fieldMappings. cbn [fmap list_fmap fst].
    repeat (apply Forall_cons_2; [vm_compute; reflexivity|]).
    apply Forall_nil_2. }
  rewrite (proj2 (proj2
    (saveToStorage_loadFromStorage (host := refJSON integerNumber)
       (pageWith (js "input-name") (js "Ada") None)
       (reloaded
          (exec (saveToStorage (host := refJSON integerNumber))
             (pageWith (js "input-name") (js "Ada") None)))
       eq_refl Hsame Hfresh))
    (js "input-name") Hname).
  vm_compute. reflexivity.
Defined.

Lemma loadFromStorage_snapshot_witness :
  localStorage (pageWith (js "input-name") [] (Some adaNameText))
    !! js "resumeFormData" = Some adaNameText
  ∧ adaNameText ≠ []
  ∧ JSON_parse (JSONHost := refJSON integerNumber) adaNameText
    = Some (snapshotValue [(js "input-name", js "Ada")])
  ∧ valueOf
      (exec (loadFromStorage (host := refJSON integerNumber))
         (pageWith (js "input-name") [] (Some adaNameText)))
      (js "input-name")
    = Some (js "Ada").
Proof.
  assert (H1 : localStorage (pageWith (js "input-name") [] (Some adaNameText))
                 !! js "resumeFormData" = Some adaNameText)
    by (vm_compute; reflexivity).
  assert (H2 : adaNameText ≠ []) by (vm_compute; discriminate).
  assert (H3 : JSON_parse (JSONHost := refJSON integerNumber) adaNameText
               = Some (snapshotValue [(js "input-name", js "Ada")]))
    by (vm_compute; reflexivity).
  split; [exact H1|]. split; [exact H2|]. split; [exact H3|].
  refine (proj1 (proj1 (proj2
    (loadFromStorage_snapshot (host := refJSON integerNumber) _ _ _ H1 H2 H3))
    (js "input-name") (js "Ada") _ _ _)).
  - vm_compute. reflexivity.
  - vm_compute. discriminate.
  - vm_compute. eauto.
Defined.

(** The claim C3 as it is written fails on a key whose stored value is the
    empty string: with [{"input-name":""}] stored and [Ada] in the input,
    the input still holds [Ada] after [loadFromStorage]. *)
Lemma loadFromStorage_empty_value_counterexample :
  localStorage (pageWith (js "input-name") (js "Ada") (Some emptyNameText))
    !! js "resumeFormData" = Some emptyNameText
  ∧ JSON_parse (JSONHost := refJSON integerNumber) emptyNameText
    = Some (snapshotValue [(js "input-name", [])])
  ∧ is_Some (document (pageWith (js "input-name") (js "Ada") (Some emptyNameText))
               !! js "input-name")
  ∧ valueOf
      (exec (loadFromStorage (host := refJSON integerNumber))
         (pageWith (js "input-name") (js "Ada") (Some emptyNameText)))
      (js "input-name")
    = Some (js "Ada")
  ∧ js "Ada" ≠ [].
Proof.
  split_and!; try (vm_compute; reflexivity);
    [vm_compute; eauto | vm_compute; discriminate].
Qed.

Lemma loadFromStorage_corrupt_witness :
  localStorage (pageWith (js "input-name") (js "Ada") (Some brokenText))
    !! js "resumeFormData" = Some brokenText
  ∧ JSON_parse (JSONHost := refJSON integerNumber) brokenText = None
  ∧ document
      (exec (loadFromStorage (host := refJSON integerNumber))
         (pageWith (js "input-name") (js "Ada") (Some brokenText)))
    = document (pageWith (js "input-name") (js "Ada") (Some brokenText)).
Proof.
  assert (H1 : localStorage (pageWith (js "input-name") (js "Ada") (Some brokenText))
                 !! js "resumeFormData" = Some brokenText)
    by (vm_compute; reflexivity).
  assert (H2 : JSON_parse (JSONHost := refJSON integerNumber) brokenText = None)
    by (vm_compute; reflexivity).
  split; [exact H1|]. split; [exact H2|].
  exact (proj1 (proj2
    (loadFromStorage_corrupt (host := refJSON integerNumber) _) brokenText H1 H2)).
Defined.

(** The claim C8 as it is written fails on a stored text that parses but
    is not a snapshot of strings: with [{"input-name":true}] stored, the
    failure of [value.trim()] is caught and reported, but the input has
    already received the text [true]. *)
Lemma loadFromStorage_malformed_counterexample :
  localStorage (pageWith (js "input-name") (js "Ada") (Some trueNameText))
    !! js "resumeFormData" = Some trueNameText
  ∧ JSON_parse (JSONHost := refJSON integerNumber) trueNameText
    = Some (JObj [(js "input-name", JBool true)])
  ∧ (∀ formData, JSON_parse (JSONHost := refJSON integerNumber) trueNameText
                 ≠ Some (snapshotValue formData))
  ∧ valueOf (pageWith (js "input-name") (js "Ada") (Some trueNameText))
      (js "input-name") = Some (js "Ada")
  ∧ valueOf
      (exec (loadFromStorage (host := refJSON integerNumber))
         (pageWith (js "input-name") (js "Ada") (Some trueNameText)))
      (js "input-name")
    = Some (js "true")
  ∧ console
      (exec (loadFromStorage (host := refJSON integerNumber))
         (pageWith (js "input-name") (js "Ada") (Some trueNameText)))
    = [TypeError]
  ∧ js "true" ≠ js "Ada".
Proof.
  assert (Hparse : JSON_parse (JSONHost := refJSON integerNumber) trueNameText
                   = Some (JObj [(js "input-name", JBool true)]))
    by (vm_compute; reflexivity).
  split_and!; try (vm_compute; reflexivity); [|vm_compute; discriminate].
  intros formData. rewrite Hparse. unfold snapshotValue. intros [= Heq].
  destruct formData as [|[k v] formData]; [done|]. cbn in Heq. congruence.
Qed.

(** * Further properties *)

(** ** trim *)

Lemma trimStart_allWhitespace s : allWhitespace s = true → trimStart s = [].
Proof.
  induction s as [|c s IH]; [done|]. cbn.
  intros [Hc Hs]%andb_true_iff. rewrite Hc. by apply IH.
Qed.

Lemma trimStart_app_whitespace a s :
  allWhitespace a = true → trimStart (a ++ s) = trimStart s.
Proof.
  induction a as [|c a IH]; [done|]. cbn.
  intros [Hc Ha]%andb_true_iff. rewrite Hc. by apply IH.
Qed.

Lemma trimStart_app s b :
  allWhitespace s = false → trimStart (s ++ b) = trimStart s ++ b.
Proof.
  induction s as [|c s IH]; [done|]. cbn.
  destruct (is_whitespace c); [|done]. by apply IH.
Qed.

Lemma allWhitespace_rev s : allWhitespace (rev s) = allWhitespace s.
Proof.
  unfold allWhitespace. induction s as [|c s IH]; [done|]. cbn.
  rewrite forallb_app, IH. cbn. rewrite andb_true_r. apply andb_comm.
Qed.

Lemma trimEnd_app_whitespace s b :
  allWhitespace b = true → trimEnd (s ++ b) = trimEnd s.
Proof.
  intros Hb. unfold trimEnd. rewrite rev_app_distr.
  by rewrite trimStart_app_whitespace by (by rewrite allWhitespace_rev).
Qed.

Lemma trim_allWhitespace s : allWhitespace s = true → trim s = [].
Proof. intros Hs. unfold trim. by rewrite trimStart_allWhitespace. Qed.

(** White space around a string does not count. *)
Lemma trim_padded a s b :
  allWhitespace a = true → allWhitespace b = true →
  trim (a ++ s ++ b) = trim s.
Proof.
  intros Ha Hb. unfold trim. rewrite trimStart_app_whitespace by done.
  destruct (allWhitespace s) eqn:Hs.
  - rewrite !trimStart_allWhitespace; [done..|].
    unfold allWhitespace in *. rewrite forallb_app, Hs, Hb. done.
  - by rewrite trimStart_app, trimEnd_app_whitespace.
Qed.

Lemma split_cons_inv sep s : ∃ l ls, split sep s = l :: ls.
Proof.
  induction s as [|c s (l & ls & IH)]; cbn; [eauto|].
  destruct (c =? sep); [eauto|]. rewrite IH. eauto.
Qed.

Lemma split_allWhitespace s :
  allWhitespace s = true →
  Forall (λ l, allWhitespace l = true) (split LF s).
Proof.
  induction s as [|c s IH]; cbn; [by repeat constructor|].
  intros [Hc Hs]%andb_true_iff. specialize (IH Hs).
  destruct (c =? LF); [by constructor|].
  destruct (split LF s) as [|l ls]; [by repeat constructor; cbn; rewrite Hc|].
  apply Forall_cons in IH as [Hl Hls]. constructor; [|done].
  cbn. by rewrite Hc.
Qed.

Lemma split_crlf s : split LF (crlf s) = withCR (split LF s).
Proof.
  induction s as [|c s IH]; [done|].
  unfold crlf in *. rewrite bind_cons. cbn [split].
  destruct (c =? LF) eqn:Hc.
  - cbn [app split]. change (CR =? LF) with false. cbv beta iota.
    change (LF =? LF) with true. cbv beta iota. rewrite IH.
    destruct (split_cons_inv LF s) as (l & ls & ->). done.
  - cbn [app split]. rewrite Hc, IH.
    destruct (split_cons_inv LF s) as (l & ls & ->).
    cbn [withCR]. by destruct ls.
Qed.

Lemma trim_withCR lines : trim <$> withCR lines = trim <$> lines.
Proof.
  induction lines as [|l [|l' ls] IH]; [done..|].
  cbn [withCR] in *. rewrite !fmap_cons. rewrite !fmap_cons in IH. f_equal; [|done].
  by rewrite <- (trim_padded [] l [CR]).
Qed.

(** ** formatMultilineContent and updatePreview *)

(** X1: a non-empty text of white space only (spaces, tabs, line breaks)
    is formatted to the empty markup: every line trims to the empty string
    and is dropped. *)
Theorem formatMultilineContent_blank content :
  content ≠ [] →
  allWhitespace content = true →
  formatMultilineContent content = [].
Proof.
  intros Hne Hws. rewrite formatMultilineContent_blocks by done.
  unfold formatMultiline_blocks.
  pose proof (split_allWhitespace _ Hws) as Hlines.
  induction Hlines as [|l ls Hl _ IH]; [done|].
  cbn [blocksOfLines]. by rewrite trim_allWhitespace.
Qed.

Lemma formatMultilineContent_blank_witness :
  js " " ++ [LF] ++ js "  " ≠ []
  ∧ allWhitespace (js " " ++ [LF] ++ js "  ") = true
  ∧ formatMultilineContent (js " " ++ [LF] ++ js "  ") = [].
Proof.
  assert (H1 : js " " ++ [LF] ++ js "  " ≠ []) by (vm_compute; discriminate).
  assert (H2 : allWhitespace (js " " ++ [LF] ++ js "  ") = true)
    by (vm_compute; reflexivity).
  split; [exact H1|]. split; [exact H2|].
  exact (formatMultilineContent_blank _ H1 H2).
Defined.

(** X2: line breaks written as carriage return and line feed give the same
    markup as plain line feeds: the carriage return left at the end of each
    line by [split] is removed by [trim]. *)
Theorem formatMultilineContent_crlf content :
  formatMultilineContent (crlf content) = formatMultilineContent content.
Proof.
  destruct content as [|c content]; [done|].
  assert (Hne : crlf (c :: content) ≠ []).
  { unfold crlf. rewrite bind_cons. by destruct (c =? LF). }
  rewrite !formatMultilineContent_blocks by done.
  unfold formatMultiline_blocks. rewrite split_crlf. f_equal. f_equal.
  generalize (split LF (c :: content)). clear. intros lines.
  induction lines as [|l [|l' ls] IH]; [done..|].
  cbn [withCR blocksOfLines] in *.
  rewrite <- (trim_padded [] l [CR]) by done. cbn [app].
  destruct (trim (l ++ [CR])); by rewrite IH.
Qed.

Lemma writtenContent_trim previewId v w :
  trim v = trim w → writtenContent previewId v = writtenContent previewId w.
Proof. unfold writtenContent. by intros ->. Qed.

(** X3: [updatePreview] ignores white space around the value: a value
    padded on both sides has the effect of the value itself, and a value
    of white space only has the effect of the empty string. *)
Theorem updatePreview_padded inputId a v b st :
  allWhitespace a = true →
  allWhitespace b = true →
  updatePreview inputId (JStr (a ++ v ++ b)) st = updatePreview inputId (JStr v) st
  ∧ updatePreview inputId (JStr (a ++ b)) st = updatePreview inputId (JStr []) st.
Proof.
  intros Ha Hb. rewrite !updatePreview_JStr. split.
  - by rewrite (writtenContent_trim _ (a ++ v ++ b) v) by by apply trim_padded.
  - rewrite (writtenContent_trim _ (a ++ b) []); [done|].
    by rewrite <- (trim_padded a [] b).
Qed.

Lemma updatePreview_padded_witness :
  allWhitespace (js "  ") = true
  ∧ allWhitespace [LF] = true
  ∧ updatePreview (js "input-name") (JStr (js "  " ++ js "Ada" ++ [LF])) freshPage
    = updatePreview (js "input-name") (JStr (js "Ada")) freshPage.
Proof.
  assert (H1 : allWhitespace (js "  ") = true) by (vm_compute; reflexivity).
  assert (H2 : allWhitespace [LF] = true) by (vm_compute; reflexivity).
  split; [exact H1|]. split; [exact H2|].
  exact (proj1 (updatePreview_padded (js "input-name") _ (js "Ada") _ freshPage
                  H1 H2)).
Defined.

(** X4: for an [inputId] that is not a name inherited from
    [Object.prototype]: when the page has no element for the preview of
    [inputId] (for an unmapped id: no element with the id [undefined]),
    [updatePreview] returns normally and changes nothing, whatever the
    value is: the value is not looked at. *)
Theorem updatePreview_missing inputId value st :
  inputId ∉ ObjectPrototype_names →
  document st !! keyOf (get fieldMappings inputId) = None →
  updatePreview inputId value st = (Normal (), st).
Proof.
  intros _ Hnone. unfold updatePreview.
  by erewrite bind_Normal by (by apply getElementById_None).
Qed.

Lemma updatePreview_missing_witness :
  (js "input-age" ∉ ObjectPrototype_names)
  ∧ document freshPage !! keyOf (get fieldMappings (js "input-age")) = None
  ∧ updatePreview (js "input-age") (JStr (js "42")) freshPage
    = (Normal (), freshPage).
Proof.
  assert (H0 : js "input-age" ∉ ObjectPrototype_names).
  { intros Hin. apply (bool_decide_pack _) in Hin. vm_compute in Hin.
    exact Hin. }
  assert (H1 : document freshPage !! keyOf (get fieldMappings (js "input-age"))
               = None) by (vm_compute; reflexivity).
  split; [exact H0|]. split; [exact H1|].
  exact (updatePreview_missing (js "input-age") (JStr (js "42")) freshPage
           H0 H1).
Defined.

(** X5: for an [inputId] that is not a name inherited from
    [Object.prototype]: when the element for its preview exists (for an
    unmapped id: the element with the id [undefined]) and the value is
    not a string, [updatePreview] throws a [TypeError] (from
    [value.trim()]) before it writes anything: the state is unchanged. *)
Theorem updatePreview_not_a_string inputId value st :
  inputId ∉ ObjectPrototype_names →
  is_Some (document st !! keyOf (get fieldMappings inputId)) →
  (∀ s, value ≠ JStr s) →
  updatePreview inputId value st = (Throw TypeError, st).
Proof.
  intros _ Hsome Hvalue. unfold updatePreview.
  erewrite bind_Normal by (by apply getElementById_Some).
  destruct value; try done. by destruct (Hvalue s).
Qed.

Lemma updatePreview_not_a_string_witness :
  (js "input-name" ∉ ObjectPrototype_names)
  ∧ is_Some (document freshPage !! keyOf (get fieldMappings (js "input-name")))
  ∧ (∀ s, JBool true ≠ JStr s)
  ∧ updatePreview (js "input-name") (JBool true) freshPage
    = (Throw TypeError, freshPage).
Proof.
  assert (H1 : is_Some (document freshPage
                          !! keyOf (get fieldMappings (js "input-name"))))
    by (vm_compute; eauto).
  assert (H2 : ∀ s, JBool true ≠ JStr s) by (intros s; discriminate).
  assert (H0 : js "input-name" ∉ ObjectPrototype_names).
  { intros Hin. apply (bool_decide_pack _) in Hin. vm_compute in Hin.
    exact Hin. }
  split; [exact H0|]. split; [exact H1|]. split; [exact H2|].
  exact (updatePreview_not_a_string (js "input-name") (JBool true) freshPage
           H0 H1 H2).
Defined.

Lemma with_content_with_content c c' (el : Element) :
  with_content c (with_content c' el) = with_content c el.
Proof. done. Qed.

(** X6: two updates of the same field in a row have the effect of the
    second alone: the preview keeps nothing of the earlier value. *)
Theorem updatePreview_last_wins inputId v1 v2 st :
  (updatePreview inputId (JStr v1) ;; updatePreview inputId (JStr v2)) st
  = updatePreview inputId (JStr v2) st.
Proof.
  erewrite bind_Normal by apply updatePreview_JStr.
  rewrite !updatePreview_JStr. f_equal.
  rewrite with_document_compose. destruct st as [doc ls th co].
  unfold with_document. cbn [document localStorage currentTheme console].
  f_equal. rewrite alter_alter_eq. by apply alter_ext.
Qed.

(** X7: updates of two different mapped fields commute: each writes its
    own preview only. *)
Theorem updatePreview_commute f p g q v w st :
  (f, p) ∈ fieldMappings →
  (g, q) ∈ fieldMappings →
  f ≠ g →
  (updatePreview f (JStr v) ;; updatePreview g (JStr w)) st
  = (updatePreview g (JStr w) ;; updatePreview f (JStr v)) st.
Proof.
  intros Hf Hg Hne.
  assert (Hpq : p ≠ q).
  { intros ->. apply Hne.
    exact (NoDup_snd_inj _ _ _ _ (proj2 fieldMappings_NoDup) Hf Hg). }
  apply fieldMappings_cases in Hf as [Hf _], Hg as [Hg _].
  erewrite !bind_Normal by apply updatePreview_JStr.
  rewrite !updatePreview_JStr, Hf, Hg. f_equal.
  rewrite !with_document_compose. destruct st as [doc ls th co].
  unfold with_document. cbn [document localStorage currentTheme console].
  f_equal. change (keyOf (Some p)) with p. change (keyOf (Some q)) with q.
  by apply alter_alter_ne.
Qed.

Lemma updatePreview_commute_witness :
  (js "input-name", js "preview-name") ∈ fieldMappings
  ∧ (js "input-title", js "preview-title") ∈ fieldMappings
  ∧ js "input-name" ≠ js "input-title"
  ∧ (updatePreview (js "input-name") (JStr (js "Ada")) ;;
     updatePreview (js "input-title") (JStr (js "Engineer"))) freshPage
    = (updatePreview (js "input-title") (JStr (js "Engineer")) ;;
       updatePreview (js "input-name") (JStr (js "Ada"))) freshPage.
Proof.
  assert (H1 : (js "input-name", js "preview-name") ∈ fieldMappings)
    by (apply (bool_decide_unpack _); vm_compute; exact I).
  assert (H2 : (js "input-title", js "preview-title") ∈ fieldMappings)
    by (apply (bool_decide_unpack _); vm_compute; exact I).
  assert (H3 : js "input-name" ≠ js "input-title") by (vm_compute; discriminate).
  split; [exact H1|]. split; [exact H2|]. split; [exact H3|].
  exact (updatePreview_commute _ _ _ _ (js "Ada") (js "Engineer") freshPage
           H1 H2 H3).
Defined.

(** ** saveToStorage *)

Lemma Object_keys_collected (doc : gmap jsstring Element) ids :
  Object_keys (omap (λ id, el ← doc !! id; Some (id, value el)) ids)
  = filter (λ id, is_Some (doc !! id)) ids.
Proof.
  unfold Object_keys. induction ids as [|id ids IH]; [done|].
  cbn [omap list_omap]. destruct (doc !! id) as [el|] eqn:Hel;
    cbn [mbind option_bind].
  - rewrite filter_cons_True by (rewrite Hel; eauto). cbn. by rewrite IH.
  - rewrite filter_cons_False; [done|]. rewrite Hel. by intros [? [=]].
Qed.

(** X8: [saveToStorage] stores under [resumeFormData] the text of an
    object whose keys are the mapped inputs that exist on the page, in the
    order of [fieldMappings], each with the current value of its input;
    a mapped input that is missing gets no key. *)
Theorem saveToStorage_snapshot `{host : JSONHost} st :
  ∃ formData,
    localStorage (exec saveToStorage st) !! js "resumeFormData"
    = Some (JSON_stringify formData)
    ∧ Object_keys formData
      = filter (λ id, is_Some (document st !! id)) (Object_keys fieldMappings)
    ∧ ∀ id, id ∈ Object_keys formData → get formData id = valueOf st id.
Proof.
  exists (omap (λ id, el ← document st !! id; Some (id, value el))
            (Object_keys fieldMappings)).
  split_and!.
  - unfold exec. rewrite saveToStorage_eq.
    cbn [snd with_localStorage localStorage]. rewrite lookup_insert_eq.
    rewrite collected_fresh;
      [done|apply fieldMappings_NoDup|by intros k _ ?%elem_of_nil].
  - apply Object_keys_collected.
  - intros id Hid%collected_keys. by apply collected_get.
Qed.

(** X9: [saveToStorage] changes nothing but the entry [resumeFormData] of
    the storage (the page, the current theme, the console and every other
    stored key are kept), and saving twice is saving once. *)
Theorem saveToStorage_twice `{host : JSONHost} st :
  (saveToStorage ;; saveToStorage) st = saveToStorage st
  ∧ document (exec saveToStorage st) = document st
  ∧ currentTheme (exec saveToStorage st) = currentTheme st
  ∧ console (exec saveToStorage st) = console st
  ∧ ∀ key, key ≠ js "resumeFormData" →
      localStorage (exec saveToStorage st) !! key = localStorage st !! key.
Proof.
  unfold exec. erewrite bind_Normal by apply saveToStorage_eq.
  rewrite !saveToStorage_eq. cbn [snd]. split_and!; try done.
  - destruct st as [doc ls th co]. unfold with_localStorage.
    cbn [document localStorage currentTheme console].
    by rewrite insert_insert_eq.
  - intros key Hkey. cbn [with_localStorage localStorage].
    by rewrite lookup_insert_ne.
Qed.

(** X10: the listener of an input is idempotent: handling the same value
    of the same field twice leaves the state of handling it once. *)
Theorem onFieldChange_twice `{host : JSONHost} inputId v st :
  (onFieldChange inputId v ;; onFieldChange inputId v) st
  = onFieldChange inputId v st.
Proof.
  erewrite bind_Normal by apply onFieldChange_eq.
  rewrite !onFieldChange_eq. destruct st as [doc ls th co].
  unfold with_localStorage, with_document.
  cbn [document localStorage currentTheme console].
  rewrite insert_insert_eq, alter_alter_eq.
  rewrite (alter_ext _ (with_content (writtenContent (get fieldMappings inputId) v)))
    by done.
  done.
Qed.

(** ** loadFromStorage *)

(** X11: with nothing stored under [resumeFormData], or the empty string,
    [loadFromStorage] changes nothing and [JSON.parse] is not asked. *)
Theorem loadFromStorage_nothing_stored `{host : JSONHost} st :
  localStorage st !! js "resumeFormData" = None
  ∨ localStorage st !! js "resumeFormData" = Some [] →
  loadFromStorage st = (Normal (), st).
Proof.
  intros [Hnone|Hempty]; [by apply loadFromStorage_no_snapshot|].
  unfold loadFromStorage.
  by erewrite bind_Normal by (unfold getItem, gets; by rewrite Hempty).
Qed.

Lemma loadFromStorage_nothing_stored_witness :
  (localStorage freshPage !! js "resumeFormData" = None
   ∨ localStorage freshPage !! js "resumeFormData" = Some [])
  ∧ loadFromStorage (host := refJSON integerNumber) freshPage
    = (Normal (), freshPage).
Proof.
  assert (H1 : localStorage freshPage !! js "resumeFormData" = None
               ∨ localStorage freshPage !! js "resumeFormData" = Some [])
    by (left; vm_compute; reflexivity).
  split; [exact H1|].
  exact (loadFromStorage_nothing_stored (host := refJSON integerNumber)
           freshPage H1).
Defined.

(** X12: a stored text that parses to something that is not an object:
    for [null], [Object.keys] throws, the error is caught and reported on
    the console, and nothing else changes; for a boolean, a number or the
    empty object there is no key and [loadFromStorage] changes nothing. *)
Theorem loadFromStorage_not_an_object `{host : JSONHost} st s :
  localStorage st !! js "resumeFormData" = Some s →
  s ≠ [] →
  (JSON_parse s = Some JNull →
   loadFromStorage st
   = (Normal (), with_console (λ log, log ++ [TypeError]) st))
  ∧ (∀ b, JSON_parse s = Some (JBool b) → loadFromStorage st = (Normal (), st))
  ∧ (∀ n, JSON_parse s = Some (JNum n) → loadFromStorage st = (Normal (), st))
  ∧ (JSON_parse s = Some (JObj []) → loadFromStorage st = (Normal (), st)).
Proof.
  intros Hs Hne.
  assert (Hload : ∀ v, JSON_parse s = Some v →
    loadFromStorage st
    = try_catch
        (keys ← Object_keys_of v;
         forEach keys (λ inputId,
           inputElement ← getElementById inputId;
           match inputElement, get (ownProperties v) inputId with
           | Some inputElement, Some x =>
               if ToBoolean x then
                 assign_value inputElement x ;; updatePreview inputId x
               else mret ()
           | _, _ => mret ()
           end))
        (λ error, console_error error) st).
  { intros v Hv. unfold loadFromStorage.
    erewrite bind_Normal by (unfold getItem, gets; by rewrite Hs).
    destruct s as [|c s]; [done|]. cbn [nonempty]. unfold try_catch.
    by erewrite bind_Normal by (unfold call_JSON_parse; by rewrite Hv). }
  split_and!.
  - intros Hv. by rewrite (Hload _ Hv).
  - intros b Hv. by rewrite (Hload _ Hv).
  - intros n Hv. by rewrite (Hload _ Hv).
  - intros Hv. by rewrite (Hload _ Hv).
Qed.

Lemma loadFromStorage_not_an_object_witness :
  localStorage (pageWith (js "input-name") (js "Ada") (Some (js "null")))
    !! js "resumeFormData" = Some (js "null")
  ∧ js "null" ≠ []
  ∧ JSON_parse (JSONHost := refJSON integerNumber) (js "null") = Some JNull
  ∧ loadFromStorage (host := refJSON integerNumber)
      (pageWith (js "input-name") (js "Ada") (Some (js "null")))
    = (Normal (),
       with_console (λ log, log ++ [TypeError])
         (pageWith (js "input-name") (js "Ada") (Some (js "null")))).
Proof.
  assert (H1 : localStorage (pageWith (js "input-name") (js "Ada")
                               (Some (js "null")))
                 !! js "resumeFormData" = Some (js "null"))
    by (vm_compute; reflexivity).
  assert (H2 : js "null" ≠ []) by (vm_compute; discriminate).
  assert (H3 : JSON_parse (JSONHost := refJSON integerNumber) (js "null")
               = Some JNull) by (vm_compute; reflexivity).
  split; [exact H1|]. split; [exact H2|]. split; [exact H3|].
  exact (proj1 (loadFromStorage_not_an_object (host := refJSON integerNumber)
                  _ _ H1 H2) H3).
Defined.

Lemma pageWrites_unchanged {A} (m : JS A) :
  (∀ st, (m st).2 = st) → pageWrites m.
Proof.
  intros Hm st. exists []. split; [constructor|]. rewrite Hm. by destruct st.
Qed.

Lemma pageWrites_write {A} (m : JS A) (w : write) :
  keepsLinks w →
  (∀ st, (m st).2 = with_document (alter w.2 w.1) st) → pageWrites m.
Proof.
  intros Hw Hm st. exists [w]. split; [by apply Forall_singleton|]. by rewrite Hm.
Qed.

Lemma pageWrites_bind {A B} (m : JS A) (k : A → JS B) :
  pageWrites m → (∀ a, pageWrites (k a)) → pageWrites (m ≫= k).
Proof.
  intros Hm Hk st. destruct (Hm st) as (ws1 & Hws1 & Hst1).
  unfold mbind, JS_bind. destruct (m st) as [[a|e] st1]; cbn [snd] in *.
  - destruct (Hk a st1) as (ws2 & Hws2 & Hst2). exists (ws1 ++ ws2).
    split; [by apply Forall_app|].
    rewrite Hst2, Hst1, with_document_compose. destruct st.
    unfold with_document. cbn. by rewrite apply_writes_app.
  - exists ws1. by split.
Qed.

Lemma pageWrites_forEach {A} (l : list A) (f : A → JS unit) :
  (∀ x, pageWrites (f x)) → pageWrites (forEach l f).
Proof.
  intros Hf. induction l as [|x l IH].
  - by apply pageWrites_unchanged.
  - cbn [forEach]. apply pageWrites_bind; [apply Hf|]. by intros _.
Qed.

Lemma pageWrites_updatePreview inputId value :
  pageWrites (updatePreview inputId value).
Proof.
  destruct value as [| | |s| |];
    try (apply pageWrites_unchanged; intros st; unfold updatePreview,
           mbind, JS_bind, getElementById, gets; cbv beta;
         by destruct (document st !! keyOf (get fieldMappings inputId))).
  apply (pageWrites_write _
    (keyOf (get fieldMappings inputId),
     with_content (writtenContent (get fieldMappings inputId) s))); [done|].
  intros st. by rewrite updatePreview_JStr.
Qed.

Lemma pageWrites_getElementById {B} id (k : option jsstring → JS B) :
  (∀ e, pageWrites (k e)) → pageWrites (getElementById id ≫= k).
Proof.
  intros Hk. apply pageWrites_bind; [|done]. by apply pageWrites_unchanged.
Qed.

Lemma pageWrites_load_loop (formData : JSValue) keys :
  pageWrites
    (forEach keys (λ inputId,
       inputElement ← getElementById inputId;
       match inputElement, get (ownProperties formData) inputId with
       | Some inputElement, Some v =>
           if ToBoolean v then
             assign_value inputElement v ;; updatePreview inputId v
           else mret ()
       | _, _ => mret ()
       end)).
Proof.
  apply pageWrites_forEach. intros inputId. apply pageWrites_getElementById.
  intros [e|]; [|by apply pageWrites_unchanged].
  destruct (get (ownProperties formData) inputId) as [v|];
    [|by apply pageWrites_unchanged].
  destruct (ToBoolean v); [|by apply pageWrites_unchanged].
  apply pageWrites_bind; [|intros _; apply pageWrites_updatePreview].
  unfold assign_value.
  destruct (ToString_throws v); [by apply pageWrites_unchanged|].
  by apply (pageWrites_write _ (e, with_value (ToString v))).
Qed.

(** What [loadFromStorage] can change, whatever is stored. *)
Lemma loadFromStorage_writes `{host : JSONHost} st :
  ∃ ws log,
    Forall keepsLinks ws ∧ (length log ≤ 1)%nat
    ∧ exec loadFromStorage st
      = with_console (λ l, l ++ log) (with_document (apply_writes ws) st).
Proof.
  assert (Hid : ∃ ws log, Forall keepsLinks ws ∧ (length log ≤ 1)%nat
    ∧ st = with_console (λ l, l ++ log) (with_document (apply_writes ws) st)).
  { exists [], []. split_and!; [constructor|cbn; lia|].
    destruct st. unfold with_console, with_document. cbn. by rewrite app_nil_r. }
  unfold exec, loadFromStorage, mbind at 1, JS_bind at 1, getItem, gets.
  cbv beta iota.
  destruct (localStorage st !! js "resumeFormData") as [s|]; [|done].
  destruct (nonempty s); [|done]. unfold try_catch.
  assert (Hbody : pageWrites
    (formData ← call_JSON_parse s;
     keys ← Object_keys_of formData;
     forEach keys (λ inputId,
       inputElement ← getElementById inputId;
       match inputElement, get (ownProperties formData) inputId with
       | Some inputElement, Some v =>
           if ToBoolean v then
             assign_value inputElement v ;; updatePreview inputId v
           else mret ()
       | _, _ => mret ()
       end))).
  { apply pageWrites_bind.
    - apply pageWrites_unchanged. intros st'. unfold call_JSON_parse.
      by destruct (JSON_parse s).
    - intros formData. apply pageWrites_bind.
      + apply pageWrites_unchanged. intros st'. by destruct formData.
      + intros keys. apply pageWrites_load_loop. }
  destruct (Hbody st) as (ws & Hws & Hst).
  match type of Hst with (?b st).2 = _ => destruct (b st) as [[[]|e] st'] end;
    cbn [snd] in *; subst st'.
  - exists ws, []. split_and!; [done|cbn; lia|].
    destruct st. unfold with_console, with_document. cbn. by rewrite app_nil_r.
  - exists ws, [e]. split_and!; [done|cbn; lia|done].
Qed.

(** X13: whatever is stored, [loadFromStorage] keeps the storage and the
    current theme, adds and removes no element, keeps the link and the
    classes of every element, and reports at most one error. *)
Theorem loadFromStorage_frame `{host : JSONHost} st :
  localStorage (exec loadFromStorage st) = localStorage st
  ∧ currentTheme (exec loadFromStorage st) = currentTheme st
  ∧ (∀ id, is_Some (document (exec loadFromStorage st) !! id)
           ↔ is_Some (document st !! id))
  ∧ (∀ id, href <$> document (exec loadFromStorage st) !! id
           = href <$> document st !! id)
  ∧ (∀ id, classListOf (exec loadFromStorage st) id = classListOf st id)
  ∧ (console (exec loadFromStorage st) = console st
     ∨ ∃ e, console (exec loadFromStorage st) = console st ++ [e]).
Proof.
  destruct (loadFromStorage_writes st) as (ws & log & Hws & Hlog & ->).
  cbn [with_console with_document document localStorage currentTheme console].
  split_and!; try done.
  - intros id. apply apply_writes_is_Some.
  - intros id. apply apply_writes_unchanged. intros w Hw _ el.
    rewrite Forall_forall in Hws. by apply Hws.
  - intros id. apply apply_writes_unchanged. intros w Hw _ el.
    rewrite Forall_forall in Hws. by apply Hws.
  - destruct log as [|e [|e' log]]; [left; by rewrite app_nil_r|right; eauto|].
    cbn in Hlog. lia.
Qed.

(** X14: on a well-formed snapshot [loadFromStorage] reports no error and
    leaves alone what the snapshot does not name: the value of every
    element whose id is not a key, the preview of a mapped input that is
    not a key or not on the page, and, when no key of the snapshot is a
    name inherited from [Object.prototype], the content of every element
    that is no preview, except an element with the id [undefined], which
    the previews of unmapped keys are written to. *)
Theorem loadFromStorage_untouched `{host : JSONHost} st s formData :
  localStorage st !! js "resumeFormData" = Some s →
  s ≠ [] →
  JSON_parse s = Some (snapshotValue formData) →
  console (exec loadFromStorage st) = console st
  ∧ (∀ id, id ∉ Object_keys formData →
       valueOf (exec loadFromStorage st) id = valueOf st id)
  ∧ (∀ f p, (f, p) ∈ fieldMappings →
       f ∉ Object_keys formData ∨ document st !! f = None →
       contentOf (exec loadFromStorage st) p = contentOf st p)
  ∧ ((∀ k, k ∈ Object_keys formData → k ∉ ObjectPrototype_names) →
     ∀ id, id ∉ (fieldMappings.*2) → id ≠ js "undefined" →
       contentOf (exec loadFromStorage st) id = contentOf st id).
Proof.
  intros Hs Hne Hparse. unfold exec, valueOf, contentOf.
  rewrite (loadFromStorage_on_snapshot _ _ _ Hs Hne Hparse).
  cbn [snd with_document document console]. split_and!; [done|..].
  - intros id Hid. rewrite loadWrites_value.
    destruct (get formData id) as [v|] eqn:Hget; [|done].
    destruct Hid. apply get_key_is_Some. eauto.
  - intros f p Hin Hf. rewrite (loadWrites_content _ _ _ _ Hin).
    destruct Hf as [Hf| ->]; [|by destruct (get formData f) as [[|??]|]].
    destruct (get formData f) as [v|] eqn:Hget; [|done].
    destruct Hf. apply get_key_is_Some. eauto.
  - intros _ id Hid Hundef. apply apply_writes_unchanged.
    intros w (k & v & _ & _ & _ & [-> | ->])%loadWrites_elem Hkey el; [done|].
    exfalso. cbn [fst] in Hkey.
    destruct (get fieldMappings k) as [p|] eqn:Hget; cbn in Hkey; [|done].
    subst p. apply Hid. apply get_Some_elem_of in Hget.
    by apply (list_elem_of_fmap_2 snd) in Hget.
Qed.

Lemma loadFromStorage_untouched_witness :
  localStorage (pageWith (js "input-title") (js "Engineer") (Some adaNameText))
    !! js "resumeFormData" = Some adaNameText
  ∧ adaNameText ≠ []
  ∧ JSON_parse (JSONHost := refJSON integerNumber) adaNameText
    = Some (snapshotValue [(js "input-name", js "Ada")])
  ∧ valueOf
      (exec (loadFromStorage (host := refJSON integerNumber))
         (pageWith (js "input-title") (js "Engineer") (Some adaNameText)))
      (js "input-title")
    = valueOf (pageWith (js "input-title") (js "Engineer") (Some adaNameText))
        (js "input-title").
Proof.
  assert (H1 : localStorage (pageWith (js "input-title") (js "Engineer")
                               (Some adaNameText))
                 !! js "resumeFormData" = Some adaNameText)
    by (vm_compute; reflexivity).
  assert (H2 : adaNameText ≠ []) by (vm_compute; discriminate).
  assert (H3 : JSON_parse (JSONHost := refJSON integerNumber) adaNameText
               = Some (snapshotValue [(js "input-name", js "Ada")]))
    by (vm_compute; reflexivity).
  assert (H4 : js "input-title" ∉ Object_keys [(js "input-name", js "Ada")]).
  { intros Hin. by apply (bool_decide_pack _) in Hin. }
  split; [exact H1|]. split; [exact H2|]. split; [exact H3|].
  exact (proj1 (proj2 (loadFromStorage_untouched
                         (host := refJSON integerNumber) _ _ _ H1 H2 H3))
           (js "input-title") H4).
Defined.

(** ** clearAllData *)

(** X15: a confirmed [clearAllData] keeps the theme: the current theme,
    the console, the elements of the page, their links and classes, the
    values of the elements that are no mapped input and the contents of the
    elements that are no preview are unchanged. *)
Theorem clearAllData_frame st :
  currentTheme (exec (clearAllData true) st) = currentTheme st
  ∧ console (exec (clearAllData true) st) = console st
  ∧ (∀ id, is_Some (document (exec (clearAllData true) st) !! id)
           ↔ is_Some (document st !! id))
  ∧ (∀ id, href <$> document (exec (clearAllData true) st) !! id
           = href <$> document st !! id)
  ∧ (∀ id, classListOf (exec (clearAllData true) st) id = classListOf st id)
  ∧ (∀ id, id ∉ Object_keys fieldMappings →
       valueOf (exec (clearAllData true) st) id = valueOf st id)
  ∧ (∀ id, id ∉ (fieldMappings.*2) →
       contentOf (exec (clearAllData true) st) id = contentOf st id).
Proof.
  unfold exec, valueOf, contentOf, classListOf. rewrite clearAllData_true.
  cbn [snd with_document with_localStorage document currentTheme console].
  split_and!; try done.
  - intros id. by rewrite !apply_writes_is_Some.
  - intros id. rewrite !(apply_writes_unchanged href); [done|..];
      by intros w (k & -> & _)%list_elem_of_fmap _ el.
  - intros id. rewrite !(apply_writes_unchanged classList); [done|..];
      by intros w (k & -> & _)%list_elem_of_fmap _ el.
  - intros id Hid. rewrite !(apply_writes_unchanged value); [done|..].
    + intros w (k & -> & Hk)%list_elem_of_fmap Hkey el. cbn in Hkey.
      by subst k.
    + by intros w (k & -> & _)%list_elem_of_fmap _ el.
  - intros id Hid. rewrite !(apply_writes_unchanged content); [done|..].
    + by intros w (k & -> & _)%list_elem_of_fmap _ el.
    + intros w (k & -> & Hk)%list_elem_of_fmap Hkey el. exfalso.
      destruct (get_fieldMappings_key _ Hk) as (p & Hget & Hin).
      rewrite Hget in Hkey. cbn in Hkey. subst p.
      by apply (list_elem_of_fmap_2 snd) in Hin.
Qed.

(** X16: clearing and emptying agree on a single-line preview and differ on
    a multi-line one: after [clearAllData] a single-line preview holds what
    [updatePreview] with the empty string gives it, whereas a multi-line
    preview holds the bare placeholder after [clearAllData] and the
    placeholder wrapped in a [div] after [updatePreview]. *)
Theorem clearAllData_or_empty_input st f p :
  (f, p) ∈ fieldMappings →
  is_Some (document st !! p) →
  (p ∉ multilineIds →
   contentOf (exec (clearAllData true) st) p
   = contentOf (exec (updatePreview f (JStr [])) st) p)
  ∧ (p ∈ multilineIds →
     contentOf (exec (clearAllData true) st) p
     = Some (InnerHTML (placeholder p))
     ∧ contentOf (exec (updatePreview f (JStr [])) st) p
       = Some (InnerHTML (plainDiv (placeholder p)))).
Proof.
  intros Hin [el Hel]. destruct (clearAllData_document st f p Hin) as [_ Hclear].
  destruct (fieldMappings_cases _ _ Hin) as [Hget Hp].
  rewrite Hclear, Hel. unfold exec, contentOf.
  rewrite updatePreview_JStr, Hget. change (keyOf (Some p)) with p.
  cbn [snd with_document document]. rewrite lookup_alter_eq, Hel.
  rewrite (writtenContent_mapped _ _ Hp). cbn [fmap option_fmap option_map content with_content].
  unfold clearedContent, previewContent, displayValueOf, includes.
  change (nonempty (trim [])) with false. cbv beta iota.
  split; intros Hm.
  - by rewrite bool_decide_eq_false_2.
  - rewrite bool_decide_eq_true_2 by done. split; [done|]. do 2 f_equal.
    unfold multilineIds in Hm.
    repeat (apply elem_of_cons in Hm as [->|Hm]; [vm_compute; reflexivity|]).
    by apply elem_of_nil in Hm.
Qed.

Lemma clearAllData_or_empty_input_witness :
  (js "input-experience", js "preview-experience") ∈ fieldMappings
  ∧ is_Some (document freshPage !! js "preview-experience")
  ∧ js "preview-experience" ∈ multilineIds
  ∧ contentOf (exec (clearAllData true) freshPage) (js "preview-experience")
    = Some (InnerHTML (placeholder (js "preview-experience")))
  ∧ contentOf (exec (updatePreview (js "input-experience") (JStr [])) freshPage)
      (js "preview-experience")
    = Some (InnerHTML (plainDiv (placeholder (js "preview-experience")))).
Proof.
  assert (H1 : (js "input-experience", js "preview-experience") ∈ fieldMappings)
    by (apply (bool_decide_unpack _); vm_compute; exact I).
  assert (H2 : is_Some (document freshPage !! js "preview-experience"))
    by (vm_compute; eauto).
  assert (H3 : js "preview-experience" ∈ multilineIds)
    by (apply (bool_decide_unpack _); vm_compute; exact I).
  split; [exact H1|]. split; [exact H2|]. split; [exact H3|].
  exact (proj2 (clearAllData_or_empty_input freshPage _ _ H1 H2) H3).
Defined.

(** ** switchTheme *)

(** X17: on a page without the stylesheet link, [switchTheme] does nothing
    for any theme, and neither does [initializeTheme]: no class changes and
    no theme is stored. *)
Theorem switchTheme_without_stylesheet st :
  document st !! js "theme-stylesheet" = None →
  (∀ themeName, switchTheme themeName st = (Normal (), st))
  ∧ initializeTheme st = (Normal (), st).
Proof.
  intros Hss. split; [intros t; by apply switchTheme_no_stylesheet|].
  unfold initializeTheme. erewrite bind_Normal by reflexivity.
  by apply switchTheme_no_stylesheet.
Qed.

Lemma switchTheme_without_stylesheet_witness :
  document (with_document (delete (js "theme-stylesheet")) freshPage)
    !! js "theme-stylesheet" = None
  ∧ switchTheme (js "classic")
      (with_document (delete (js "theme-stylesheet")) freshPage)
    = (Normal (), with_document (delete (js "theme-stylesheet")) freshPage).
Proof.
  assert (H1 : document (with_document (delete (js "theme-stylesheet")) freshPage)
                 !! js "theme-stylesheet" = None) by (vm_compute; reflexivity).
  split; [exact H1|].
  exact (proj1 (switchTheme_without_stylesheet _ H1) (js "classic")).
Defined.

Lemma removed_unmarked (st : State) (doc1 : gmap jsstring Element)
    (id : jsstring) (l : list jsstring) :
  isThemeButton st id →
  classList <$>
    apply_writes ((λ btn, (btn, with_classList removeActive)) <$> themeButtonsOf st)
      doc1 !! id = Some l →
  js "active" ∉ l.
Proof.
  intros Hbtn Hl.
  assert (Hset : (λ el, bool_decide (js "active" ∈ classList el))
    <$> apply_writes
          ((λ btn, (btn, with_classList removeActive)) <$> themeButtonsOf st)
          doc1 !! id
    = (λ _, false) <$> doc1 !! id).
  { apply apply_writes_set.
    - exists (id, with_classList removeActive). split_and!; [|done|].
      + apply list_elem_of_fmap. exists id. split; [done|].
        by apply themeButtonsOf_elem.
      + intros el'. apply bool_decide_eq_false, not_elem_of_removeActive.
    - intros w (b & -> & _)%list_elem_of_fmap _. left. intros el'.
      apply bool_decide_eq_false, not_elem_of_removeActive. }
  destruct (apply_writes _ doc1 !! id) as [el'|]; [|done].
  cbn in Hl. injection Hl as <-.
  destruct (doc1 !! id); cbn in Hset; [|done].
  injection Hset as Hset. by apply bool_decide_eq_false in Hset.
Qed.

Lemma switchTheme_throws themeName st :
  is_Some (document st !! js "theme-stylesheet") →
  document st !! (js "theme-" ++ themeName) = None →
  switchTheme themeName st
  = (Throw TypeError,
     with_document
       (apply_writes
          ((λ btn, (btn, with_classList removeActive)) <$> themeButtonsOf st))
       (with_currentTheme themeName
          (with_document
             (alter (with_href (js "theme-" ++ themeName ++ js ".css"))
                (js "theme-stylesheet")) st))).
Proof.
  intros Hss Hbtn. unfold switchTheme.
  erewrite bind_Normal by (by apply getElementById_Some).
  erewrite bind_Normal by reflexivity. fold (themeButtonsOf st).
  erewrite bind_Normal by reflexivity.
  erewrite bind_Normal by reflexivity.
  erewrite bind_Normal
    by (by apply (forEach_writes _ _ (λ btn, (btn, with_classList removeActive)))).
  erewrite bind_Normal.
  2:{ apply getElementById_None. cbn [document with_document with_currentTheme].
      apply apply_writes_None. by apply lookup_alter_None. }
  reflexivity.
Qed.

(** X18: [switchTheme] with a theme that has no button [theme-<name>]
    throws a [TypeError] half-way: the stylesheet link already points to
    [theme-<name>.css], the current theme is already the new name and no
    theme button is marked active any more, but the storage is unchanged. *)
Theorem switchTheme_missing_button themeName st :
  is_Some (document st !! js "theme-stylesheet") →
  document st !! (js "theme-" ++ themeName) = None →
  completion (switchTheme themeName) st = Throw TypeError
  ∧ localStorage (exec (switchTheme themeName) st) = localStorage st
  ∧ currentTheme (exec (switchTheme themeName) st) = themeName
  ∧ href <$> document (exec (switchTheme themeName) st) !! js "theme-stylesheet"
    = Some (js "theme-" ++ themeName ++ js ".css")
  ∧ (∀ id, isThemeButton st id →
       ¬ markedActive (exec (switchTheme themeName) st) id).
Proof.
  intros Hss Hbtn. unfold completion, exec, markedActive, classListOf.
  rewrite (switchTheme_throws _ _ Hss Hbtn).
  cbn [fst snd document localStorage currentTheme with_document with_currentTheme].
  split_and!; try done.
  - rewrite (apply_writes_unchanged href).
    2:{ by intros w (b & -> & _)%list_elem_of_fmap _ el'. }
    rewrite lookup_alter_eq. by destruct Hss as [ss ->].
  - intros id Hid (l & Hl & Hactive). by eapply removed_unmarked.
Qed.

Lemma switchTheme_missing_button_witness :
  is_Some (document freshPage !! js "theme-stylesheet")
  ∧ document freshPage !! (js "theme-" ++ js "dark") = None
  ∧ completion (switchTheme (js "dark")) freshPage = Throw TypeError
  ∧ localStorage (exec (switchTheme (js "dark")) freshPage)
    = localStorage freshPage.
Proof.
  assert (H1 : is_Some (document freshPage !! js "theme-stylesheet"))
    by (vm_compute; eauto).
  assert (H2 : document freshPage !! (js "theme-" ++ js "dark") = None)
    by (vm_compute; reflexivity).
  split; [exact H1|]. split; [exact H2|].
  split.
  - exact (proj1 (switchTheme_missing_button (js "dark") freshPage H1 H2)).
  - exact (proj1 (proj2 (switchTheme_missing_button (js "dark") freshPage H1 H2))).
Defined.

(** X19: [switchTheme] for any theme whose button exists, on a page with
    the stylesheet link: it completes, stores the name under [resumeTheme]
    and changes no other stored key, makes it the current theme, marks its
    button and no other theme button active, and keeps every value, every
    content and the console. *)
Theorem switchTheme_any_theme themeName st :
  is_Some (document st !! js "theme-stylesheet") →
  is_Some (document st !! (js "theme-" ++ themeName)) →
  completion (switchTheme themeName) st = Normal ()
  ∧ localStorage (exec (switchTheme themeName) st)
    = <[js "resumeTheme" := themeName]> (localStorage st)
  ∧ currentTheme (exec (switchTheme themeName) st) = themeName
  ∧ markedActive (exec (switchTheme themeName) st) (js "theme-" ++ themeName)
  ∧ (∀ id, id ≠ js "theme-" ++ themeName → isThemeButton st id →
       ¬ markedActive (exec (switchTheme themeName) st) id)
  ∧ (∀ id, valueOf (exec (switchTheme themeName) st) id = valueOf st id)
  ∧ (∀ id, contentOf (exec (switchTheme themeName) st) id = contentOf st id)
  ∧ console (exec (switchTheme themeName) st) = console st.
Proof.
  intros Hss Hbtn.
  destruct (switchTheme_effects _ _ Hss Hbtn) as (H1 & H2 & H3 & H4 & H5 & H6).
  split_and!; try done; unfold exec, valueOf, contentOf;
    rewrite (switchTheme_eq _ _ Hss Hbtn);
    cbn [snd document localStorage console with_document with_localStorage
         with_currentTheme]; [done|..|done].
  - intros id. rewrite lookup_alter. 
    assert (Hv : value <$> apply_writes
        ((λ btn, (btn, with_classList removeActive)) <$> themeButtonsOf st)
        (alter (with_href (js "theme-" ++ themeName ++ js ".css"))
           (js "theme-stylesheet") (document st)) !! id
      = value <$> document st !! id).
    { rewrite (apply_writes_unchanged value).
      2:{ by intros w (b & -> & _)%list_elem_of_fmap _ el'. }
      rewrite lookup_alter. case_decide; [subst|done].
      by destruct (document st !! js "theme-stylesheet"). }
    case_decide as Heq; [|done]. rewrite Heq, <- Hv.
    by destruct (apply_writes _ _ !! id).
  - intros id. rewrite lookup_alter.
    assert (Hv : content <$> apply_writes
        ((λ btn, (btn, with_classList removeActive)) <$> themeButtonsOf st)
        (alter (with_href (js "theme-" ++ themeName ++ js ".css"))
           (js "theme-stylesheet") (document st)) !! id
      = content <$> document st !! id).
    { rewrite (apply_writes_unchanged content).
      2:{ by intros w (b & -> & _)%list_elem_of_fmap _ el'. }
      rewrite lookup_alter. case_decide; [subst|done].
      by destruct (document st !! js "theme-stylesheet"). }
    case_decide as Heq; [|done]. rewrite Heq, <- Hv.
    by destruct (apply_writes _ _ !! id).
Qed.

Lemma switchTheme_any_theme_witness :
  is_Some (document freshPage !! js "theme-stylesheet")
  ∧ is_Some (document freshPage !! (js "theme-" ++ js "classic"))
  ∧ completion (switchTheme (js "classic")) freshPage = Normal ()
  ∧ localStorage (exec (switchTheme (js "classic")) freshPage)
    = <[js "resumeTheme" := js "classic"]> (localStorage freshPage).
Proof.
  assert (H1 : is_Some (document freshPage !! js "theme-stylesheet"))
    by (vm_compute; eauto).
  assert (H2 : is_Some (document freshPage !! (js "theme-" ++ js "classic")))
    by (vm_compute; eauto).
  split; [exact H1|]. split; [exact H2|].
  split.
  - exact (proj1 (switchTheme_any_theme (js "classic") freshPage H1 H2)).
  - exact (proj1 (proj2 (switchTheme_any_theme (js "classic") freshPage H1 H2))).
Defined.

(** X20: with no theme stored, or the empty string, [initializeTheme] is
    [switchTheme('modern')]; on a page with the stylesheet link and the
    button [theme-modern] it completes, stores [modern], makes it the
    current theme and marks the button active. *)
Theorem initializeTheme_default st :
  localStorage st !! js "resumeTheme" = None
  ∨ localStorage st !! js "resumeTheme" = Some [] →
  initializeTheme st = switchTheme (js "modern") st
  ∧ (is_Some (document st !! js "theme-stylesheet") →
     is_Some (document st !! js "theme-modern") →
     completion initializeTheme st = Normal ()
     ∧ localStorage (exec initializeTheme st) !! js "resumeTheme"
       = Some (js "modern")
     ∧ currentTheme (exec initializeTheme st) = js "modern"
     ∧ markedActive (exec initializeTheme st) (js "theme-modern")).
Proof.
  intros Hstored.
  assert (Hinit : initializeTheme st = switchTheme (js "modern") st).
  { unfold initializeTheme.
    destruct Hstored as [Hs|Hs];
      by erewrite bind_Normal by (unfold getItem, gets; by rewrite Hs). }
  split; [done|]. intros Hss Hbtn. unfold completion, exec. rewrite Hinit.
  destruct (switchTheme_effects (js "modern") st Hss Hbtn)
    as (H1 & H2 & H3 & H4 & _). by split_and!.
Qed.

Lemma initializeTheme_default_witness :
  (localStorage freshPage !! js "resumeTheme" = None
   ∨ localStorage freshPage !! js "resumeTheme" = Some [])
  ∧ initializeTheme freshPage = switchTheme (js "modern") freshPage.
Proof.
  assert (H1 : localStorage freshPage !! js "resumeTheme" = None
               ∨ localStorage freshPage !! js "resumeTheme" = Some [])
    by (left; vm_compute; reflexivity).
  split; [exact H1|].
  exact (proj1 (initializeTheme_default freshPage H1)).
Defined.

Lemma boot_Normal {A B} (m : Boot A) (k : A → Boot B) rt a rt' :
  m rt = (Normal a, rt') → (m ≫= k) rt = k a rt'.
Proof. intros Hm. unfold mbind, Boot_bind. by rewrite Hm. Qed.

Lemma boot_Throw {A B} (m : Boot A) (k : A → Boot B) rt e rt' :
  m rt = (Throw e, rt') → (m ≫= k) rt = (Throw e, rt').
Proof. intros Hm. unfold mbind, Boot_bind. by rewrite Hm. Qed.

Lemma liftJS_eq {A} (m : JS A) rt c st' :
  m (page rt) = (c, st') →
  liftJS m rt = (c, {| page := st'; listeners := listeners rt |}).
Proof. intros Hm. unfold liftJS. by rewrite Hm. Qed.

Lemma liftJS_getElementById id rt :
  liftJS (getElementById id) rt
  = (Normal (match document (page rt) !! id with
             | Some _ => Some id
             | None => None
             end), rt).
Proof. by destruct rt. Qed.

Lemma with_listeners_app f g rt :
  with_listeners f (with_listeners g rt) = with_listeners (λ l, f (g l)) rt.
Proof. done. Qed.

Lemma input_registration inputId rt :
  (inputElement ← liftJS (getElementById inputId);
   match inputElement with
   | Some inputElement =>
       addEventListener inputElement input (onInput inputId) ;;
       addEventListener inputElement paste (onPaste inputId)
   | None => mret ()
   end) rt
  = (Normal (),
     with_listeners (λ l, l ++ registrationsOf (document (page rt)) inputId) rt).
Proof.
  erewrite boot_Normal by apply liftJS_getElementById.
  unfold registrationsOf.
  destruct (document (page rt) !! inputId) as [el|] eqn:Hel.
  - erewrite boot_Normal by reflexivity.
    destruct rt as [st ls]. unfold with_listeners, addEventListener. cbn.
    by rewrite <- app_assoc.
  - destruct rt as [st ls]. unfold with_listeners. cbn. by rewrite app_nil_r.
Qed.

Lemma input_registrations ids rt :
  forEachBoot ids (λ inputId,
    inputElement ← liftJS (getElementById inputId);
    match inputElement with
    | Some inputElement =>
        addEventListener inputElement input (onInput inputId) ;;
        addEventListener inputElement paste (onPaste inputId)
    | None => mret ()
    end) rt
  = (Normal (),
     with_listeners
       (λ l, l ++ (ids ≫= registrationsOf (document (page rt)))) rt).
Proof.
  revert rt. induction ids as [|id ids IH]; intros rt.
  - cbn. destruct rt. unfold with_listeners. cbn. by rewrite app_nil_r.
  - cbn [forEachBoot]. rewrite bind_cons.
    erewrite boot_Normal by apply input_registration. rewrite IH.
    destruct rt as [st ls]. unfold with_listeners. cbn [page listeners].
    by rewrite <- !app_assoc.
Qed.

Lemma addClickListener_present id l rt :
  is_Some (document (page rt) !! id) →
  addClickListener id l rt
  = (Normal (), with_listeners (λ ls, ls ++ [registration id click l]) rt).
Proof.
  intros [el Hel]. unfold addClickListener.
  erewrite boot_Normal by apply liftJS_getElementById. by rewrite Hel.
Qed.

Lemma addClickListener_absent id l rt :
  document (page rt) !! id = None →
  addClickListener id l rt = (Throw TypeError, rt).
Proof.
  intros Hel. unfold addClickListener.
  erewrite boot_Normal by apply liftJS_getElementById. by rewrite Hel.
Qed.

Lemma setupEventListeners_eq rt :
  hasButtons (page rt) →
  setupEventListeners rt
  = (Normal (),
     with_listeners
       (λ l, l ++ inputRegistrations (document (page rt)) ++ clickRegistrations)
       rt).
Proof.
  intros Hbuttons. unfold hasButtons, buttonIds in Hbuttons.
  apply Forall_cons in Hbuttons as [H1 Hbuttons].
  apply Forall_cons in Hbuttons as [H2 Hbuttons].
  apply Forall_cons in Hbuttons as [H3 Hbuttons].
  apply Forall_cons in Hbuttons as [H4 _].
  unfold setupEventListeners.
  erewrite boot_Normal by apply input_registrations.
  erewrite boot_Normal by (by apply addClickListener_present).
  erewrite boot_Normal by (by apply addClickListener_present).
  erewrite boot_Normal by (by apply addClickListener_present).
  rewrite addClickListener_present by done.
  destruct rt as [st ls]. unfold with_listeners, inputRegistrations,
    clickRegistrations. cbn [page listeners]. by rewrite <- !app_assoc.
Qed.

Lemma setupEventListeners_throws rt :
  ¬ hasButtons (page rt) →
  outcome setupEventListeners rt = Throw TypeError
  ∧ page (started setupEventListeners rt) = page rt.
Proof.
  intros Hbuttons. unfold outcome, started, setupEventListeners.
  erewrite boot_Normal by apply input_registrations.
  set (rt0 := with_listeners _ rt).
  assert (Hpage : page rt0 = page rt) by done. clearbody rt0.
  destruct (document (page rt) !! js "theme-modern") as [e1|] eqn:H1.
  2:{ erewrite boot_Throw
        by (apply addClickListener_absent; by rewrite Hpage). done. }
  erewrite boot_Normal
    by (apply addClickListener_present; rewrite Hpage, H1; eauto).
  destruct (document (page rt) !! js "theme-classic") as [e2|] eqn:H2.
  2:{ erewrite boot_Throw
        by (apply addClickListener_absent; cbn [with_listeners page];
            by rewrite Hpage). done. }
  erewrite boot_Normal
    by (apply addClickListener_present; cbn [with_listeners page];
        rewrite Hpage, H2; eauto).
  destruct (document (page rt) !! js "print-btn") as [e3|] eqn:H3.
  2:{ erewrite boot_Throw
        by (apply addClickListener_absent; cbn [with_listeners page];
            by rewrite Hpage). done. }
  erewrite boot_Normal
    by (apply addClickListener_present; cbn [with_listeners page];
        rewrite Hpage, H3; eauto).
  destruct (document (page rt) !! js "clear-btn") as [e4|] eqn:H4.
  2:{ rewrite addClickListener_absent
        by (cbn [with_listeners page]; by rewrite Hpage). done. }
  destruct Hbuttons. unfold hasButtons, buttonIds.
  repeat (apply Forall_cons_2; [eauto|]). apply Forall_nil_2.
Qed.

Lemma initializeTheme_eq st :
  initializeTheme st = switchTheme (savedTheme st) st.
Proof.
  unfold initializeTheme, savedTheme.
  by erewrite bind_Normal by reflexivity.
Qed.

Lemma switchTheme_writes themeName st :
  ∃ ws,
    Forall keepsText ws
    ∧ document (exec (switchTheme themeName) st) = apply_writes ws (document st)
    ∧ console (exec (switchTheme themeName) st) = console st
    ∧ ∀ key, key ≠ js "resumeTheme" →
        localStorage (exec (switchTheme themeName) st) !! key
        = localStorage st !! key.
Proof.
  unfold exec.
  destruct (document st !! js "theme-stylesheet") as [ss|] eqn:Hss.
  2:{ exists []. rewrite switchTheme_no_stylesheet by done. by split_and!. }
  assert (Hremove : Forall keepsText
    ((λ btn, (btn, with_classList removeActive)) <$> themeButtonsOf st)).
  { apply Forall_forall. by intros w (b & -> & _)%list_elem_of_fmap el. }
  destruct (document st !! (js "theme-" ++ themeName)) as [btn|] eqn:Hbtn.
  - exists ([(js "theme-stylesheet",
              with_href (js "theme-" ++ themeName ++ js ".css"))]
            ++ ((λ btn, (btn, with_classList removeActive)) <$> themeButtonsOf st)
            ++ [(js "theme-" ++ themeName, with_classList addActive)]).
    rewrite switchTheme_eq by (rewrite ?Hss, ?Hbtn; eauto).
    cbn [snd document localStorage console with_document with_localStorage
         with_currentTheme].
    split_and!; [| |done|].
    + apply Forall_app. split; [by apply Forall_singleton|].
      apply Forall_app. split; [done|]. by apply Forall_singleton.
    + by rewrite apply_writes_app, apply_writes_snoc.
    + intros key Hkey. by rewrite lookup_insert_ne.
  - exists ([(js "theme-stylesheet",
              with_href (js "theme-" ++ themeName ++ js ".css"))]
            ++ ((λ btn, (btn, with_classList removeActive)) <$> themeButtonsOf st)).
    rewrite switchTheme_throws by (rewrite ?Hss; eauto).
    cbn [snd document localStorage console with_document with_currentTheme].
    split_and!; [| |done|done].
    + apply Forall_app. split; [by apply Forall_singleton|done].
    + by rewrite apply_writes_app.
Qed.

Lemma initializeTheme_page st :
  (∀ id, is_Some (document (exec initializeTheme st) !! id)
         ↔ is_Some (document st !! id))
  ∧ (∀ id, valueOf (exec initializeTheme st) id = valueOf st id)
  ∧ (∀ id, contentOf (exec initializeTheme st) id = contentOf st id).
Proof.
  unfold exec. rewrite initializeTheme_eq.
  destruct (switchTheme_writes (savedTheme st) st) as (ws & Hws & Hdoc & _).
  unfold exec in Hdoc. unfold valueOf, contentOf. rewrite Hdoc.
  split_and!; intros id.
  - apply apply_writes_is_Some.
  - apply apply_writes_unchanged. intros w Hw _ el.
    by apply (proj1 (Forall_forall _ _) Hws w Hw).
  - apply apply_writes_unchanged. intros w Hw _ el.
    by apply (proj1 (Forall_forall _ _) Hws w Hw).
Qed.

Section startup.
Context {host : JSONHost}.

Lemma loadFromStorage_localStorage st :
  localStorage (exec loadFromStorage st) = localStorage st.
Proof. by destruct (loadFromStorage_writes st) as (ws & log & _ & _ & ->). Qed.

Lemma loadFromStorage_present st id :
  is_Some (document (exec loadFromStorage st) !! id)
  ↔ is_Some (document st !! id).
Proof.
  destruct (loadFromStorage_writes st) as (ws & log & _ & _ & ->).
  apply apply_writes_is_Some.
Qed.

Lemma loadFromStorage_classList st id :
  classListOf (exec loadFromStorage st) id = classListOf st id.
Proof.
  destruct (loadFromStorage_writes st) as (ws & log & Hws & _ & ->).
  apply apply_writes_unchanged. intros w Hw _ el.
  by apply (proj1 (Forall_forall _ _) Hws w Hw).
Qed.

Lemma hasButtons_ext st st' :
  (∀ id, is_Some (document st' !! id) ↔ is_Some (document st !! id)) →
  hasButtons st → hasButtons st'.
Proof.
  intros Hdoc Hbuttons. eapply Forall_impl; [exact Hbuttons|].
  intros id. apply Hdoc.
Qed.

Lemma inputRegistrations_ext (doc doc' : gmap jsstring Element) :
  (∀ id, is_Some (doc' !! id) ↔ is_Some (doc !! id)) →
  inputRegistrations doc' = inputRegistrations doc.
Proof.
  intros Hdoc. unfold inputRegistrations.
  induction (Object_keys fieldMappings) as [|id ids IH]; [done|].
  rewrite !bind_cons, IH. f_equal. unfold registrationsOf.
  specialize (Hdoc id).
  destruct (doc !! id), (doc' !! id); try done.
  - destruct (proj2 Hdoc) as [? [=]]. eauto.
  - destruct (proj1 Hdoc) as [? [=]]. eauto.
Qed.

Lemma loadFromStorage_run st :
  loadFromStorage st = (Normal (), exec loadFromStorage st).
Proof.
  pose proof (loadFromStorage_completion st) as Hload.
  unfold completion, exec in *. destruct (loadFromStorage st) as [c st1].
  cbn in *. by subst c.
Qed.

Lemma new_ResumeBuilder_eq rt :
  hasButtons (page rt) →
  new_ResumeBuilder rt
  = (completion initializeTheme (loaded (page rt)),
     {| page := exec initializeTheme (loaded (page rt));
        listeners := listeners rt ++ inputRegistrations (document (page rt))
                                  ++ clickRegistrations |}).
Proof.
  intros Hbuttons. unfold new_ResumeBuilder, init.
  erewrite boot_Normal by reflexivity.
  erewrite boot_Normal by (by apply setupEventListeners_eq).
  erewrite boot_Normal by (apply liftJS_eq, loadFromStorage_run).
  unfold liftJS, loaded, exec, completion. cbn [page listeners with_listeners].
  by destruct (initializeTheme _).
Qed.

Lemma new_ResumeBuilder_present rt id :
  hasButtons (page rt) →
  is_Some (document (page (started new_ResumeBuilder rt)) !! id)
  ↔ is_Some (document (page rt) !! id).
Proof.
  intros Hbuttons. unfold started. rewrite new_ResumeBuilder_eq by done.
  cbn [snd page].
  rewrite (proj1 (initializeTheme_page _)).
  unfold loaded. by rewrite loadFromStorage_present.
Qed.

(** X21: on a page with the four buttons, [new ResumeBuilder()] registers
    an [input] and a [paste] listener on each mapped input that exists, in
    the order of [fieldMappings], then the four [click] listeners: twice
    the number of inputs on the page plus four, whatever the storage holds
    and however the constructor ends. The listeners are added to those
    already there, so a second construction registers each of them again. *)
Theorem new_ResumeBuilder_listeners rt :
  hasButtons (page rt) →
  let registered :=
    inputRegistrations (document (page rt)) ++ clickRegistrations in
  listeners (started new_ResumeBuilder rt) = listeners rt ++ registered
  ∧ length registered
    = (2 * length (filter (λ id, is_Some (document (page rt) !! id))
                     (Object_keys fieldMappings)) + 4)%nat
  ∧ listeners (started new_ResumeBuilder (started new_ResumeBuilder rt))
    = listeners rt ++ registered ++ registered.
Proof.
  intros Hbuttons registered.
  assert (Hfirst : listeners (started new_ResumeBuilder rt)
                   = listeners rt ++ registered).
  { unfold started. by rewrite new_ResumeBuilder_eq. }
  split_and!; [done|..].
  - unfold registered, inputRegistrations. rewrite length_app. cbn [length clickRegistrations].
    f_equal. induction (Object_keys fieldMappings) as [|id ids IH]; [done|].
    rewrite bind_cons, length_app, IH. unfold registrationsOf.
    destruct (document (page rt) !! id) as [el|] eqn:Hel.
    + rewrite filter_cons_True by (rewrite Hel; eauto). cbn [length]. lia.
    + rewrite filter_cons_False; [done|]. rewrite Hel. by intros [? [=]].
  - assert (Hbuttons' : hasButtons (page (started new_ResumeBuilder rt))).
    { eapply hasButtons_ext; [|done]. intros id.
      by apply new_ResumeBuilder_present. }
    unfold started at 1. rewrite new_ResumeBuilder_eq by done.
    cbn [snd listeners]. rewrite Hfirst, <- app_assoc. do 2 f_equal.
    unfold registered. f_equal. apply inputRegistrations_ext.
    intros id. by apply new_ResumeBuilder_present.
Qed.

(** X22: on a page that lacks one of the four buttons, [new ResumeBuilder()]
    throws a [TypeError] out of [setupEventListeners]: the stored snapshot
    is not restored and no theme is applied; the page and the storage are
    as before. *)
Theorem new_ResumeBuilder_missing_button rt :
  ¬ hasButtons (page rt) →
  outcome new_ResumeBuilder rt = Throw TypeError
  ∧ page (started new_ResumeBuilder rt)
    = with_currentTheme (js "modern") (page rt).
Proof.
  intros Hbuttons. unfold outcome, started, new_ResumeBuilder, init.
  erewrite boot_Normal by reflexivity.
  set (rt0 := {| page := _; listeners := _ |}).
  destruct (setupEventListeners_throws rt0) as [Hthrow Hpage]; [done|].
  unfold outcome, started in Hthrow, Hpage.
  destruct (setupEventListeners rt0) as [c rt1] eqn:Hsetup.
  cbn [fst snd] in Hthrow, Hpage. subst c.
  erewrite boot_Throw by exact Hsetup. cbn [fst snd]. by rewrite Hpage.
Qed.

Lemma savedTheme_loaded st : savedTheme (loaded st) = savedTheme st.
Proof.
  unfold savedTheme, loaded. by rewrite loadFromStorage_localStorage.
Qed.

(** X23: on a page with the four buttons, and either no stylesheet link or
    a button for the saved theme, [new ResumeBuilder()] completes normally
    whatever text is stored as the snapshot; with the stylesheet link, the
    saved theme ([modern] when none is saved) is then the current theme,
    is stored, and its button is marked active. *)
Theorem new_ResumeBuilder_completes rt :
  hasButtons (page rt) →
  document (page rt) !! js "theme-stylesheet" = None
  ∨ is_Some (document (page rt) !! (js "theme-" ++ savedTheme (page rt))) →
  outcome new_ResumeBuilder rt = Normal ()
  ∧ (is_Some (document (page rt) !! js "theme-stylesheet") →
     let st' := page (started new_ResumeBuilder rt) in
     currentTheme st' = savedTheme (page rt)
     ∧ localStorage st' !! js "resumeTheme" = Some (savedTheme (page rt))
     ∧ markedActive st' (js "theme-" ++ savedTheme (page rt))).
Proof.
  intros Hbuttons Htheme. unfold outcome, started.
  rewrite new_ResumeBuilder_eq by done. cbn [fst snd page].
  unfold completion, exec. rewrite initializeTheme_eq, savedTheme_loaded.
  destruct (document (page rt) !! js "theme-stylesheet") as [ss|] eqn:Hss.
  - destruct Htheme as [[=]|Hbtn].
    destruct (switchTheme_effects (savedTheme (page rt)) (loaded (page rt)))
      as (H1 & H2 & H3 & H4 & _).
    + unfold loaded. rewrite loadFromStorage_present.
      cbn [document with_currentTheme]. rewrite Hss. eauto.
    + unfold loaded. by rewrite loadFromStorage_present.
    + split; [done|]. by intros _.
  - rewrite switchTheme_no_stylesheet.
    + split; [done|]. by intros [? [=]].
    + destruct (document (loaded (page rt)) !! js "theme-stylesheet") eqn:Hl;
        [|done].
      assert (is_Some (document (page rt) !! js "theme-stylesheet")) as [? Hs].
      { apply (loadFromStorage_present
                 (with_currentTheme (js "modern") (page rt))).
        fold (loaded (page rt)). rewrite Hl. eauto. }
      by rewrite Hss in Hs.
Qed.

(** X24: when the stored theme has no button on a page with the stylesheet
    link, [new ResumeBuilder()] throws a [TypeError] out of
    [initializeTheme]; the storage is unchanged, so the name stays stored
    for the next load; the stylesheet link points to the file of that
    theme and no theme button is marked active. *)
Theorem new_ResumeBuilder_unknown_theme rt :
  hasButtons (page rt) →
  is_Some (document (page rt) !! js "theme-stylesheet") →
  document (page rt) !! (js "theme-" ++ savedTheme (page rt)) = None →
  let st' := page (started new_ResumeBuilder rt) in
  outcome new_ResumeBuilder rt = Throw TypeError
  ∧ localStorage st' = localStorage (page rt)
  ∧ currentTheme st' = savedTheme (page rt)
  ∧ href <$> document st' !! js "theme-stylesheet"
    = Some (js "theme-" ++ savedTheme (page rt) ++ js ".css")
  ∧ (∀ id, isThemeButton (page rt) id → ¬ markedActive st' id).
Proof.
  intros Hbuttons Hss Hbtn. unfold outcome, started.
  rewrite new_ResumeBuilder_eq by done. cbn [fst snd page].
  unfold completion, exec. rewrite initializeTheme_eq, savedTheme_loaded.
  assert (Hss' : is_Some (document (loaded (page rt)) !! js "theme-stylesheet")).
  { unfold loaded. by rewrite loadFromStorage_present. }
  assert (Hbtn' : document (loaded (page rt))
                    !! (js "theme-" ++ savedTheme (page rt)) = None).
  { apply eq_None_not_Some. unfold loaded.
    rewrite loadFromStorage_present. cbn [document with_currentTheme].
    by rewrite Hbtn; intros [? [=]]. }
  rewrite (switchTheme_throws _ _ Hss' Hbtn').
  cbn [fst snd document localStorage currentTheme with_document with_currentTheme].
  split_and!; try done.
  - unfold loaded. by rewrite loadFromStorage_localStorage.
  - rewrite (apply_writes_unchanged href).
    2:{ by intros w (b & -> & _)%list_elem_of_fmap _ el'. }
    rewrite lookup_alter_eq. by destruct Hss' as [ss ->].
  - intros id Hid (l & Hl & Hactive).
    unfold classListOf in Hl.
    cbn [document with_document with_currentTheme] in Hl.
    eapply (removed_unmarked (loaded (page rt))); [|exact Hl|exact Hactive].
    pose proof (loadFromStorage_classList
      (with_currentTheme (js "modern") (page rt)) id) as Hcl. fold (loaded (page rt)) in Hcl.
    unfold classListOf in Hcl. cbn [document with_currentTheme] in Hcl.
    destruct Hid as (el & Hel & Hin). rewrite Hel in Hcl.
    destruct (document (loaded (page rt)) !! id) as [el'|] eqn:Hel'; [|done].
    exists el'. split; [done|]. cbn in Hcl. injection Hcl as ->. done.
Qed.

End startup.

Lemma new_ResumeBuilder_listeners_witness :
  hasButtons (page (runtimeOf appDocument ∅))
  ∧ listeners (started (new_ResumeBuilder (host := refJSON integerNumber))
                 (runtimeOf appDocument ∅))
    = listeners (runtimeOf appDocument ∅)
      ++ inputRegistrations (document (page (runtimeOf appDocument ∅)))
      ++ clickRegistrations.
Proof.
  assert (H1 : hasButtons (page (runtimeOf appDocument ∅)))
    by (apply (bool_decide_unpack _); vm_compute; exact I).
  split; [exact H1|].
  exact (proj1 (new_ResumeBuilder_listeners (host := refJSON integerNumber)
                  _ H1)).
Defined.

Lemma new_ResumeBuilder_missing_button_witness :
  ¬ hasButtons (page (runtimeOf freshDocument {[ js "resumeFormData" := adaNameText ]}))
  ∧ outcome (new_ResumeBuilder (host := refJSON integerNumber))
      (runtimeOf freshDocument {[ js "resumeFormData" := adaNameText ]})
    = Throw TypeError.
Proof.
  assert (H1 : ¬ hasButtons
    (page (runtimeOf freshDocument {[ js "resumeFormData" := adaNameText ]})))
    by (apply (bool_decide_eq_false _); vm_compute; reflexivity).
  split; [exact H1|].
  exact (proj1 (new_ResumeBuilder_missing_button
                  (host := refJSON integerNumber) _ H1)).
Defined.

Lemma new_ResumeBuilder_completes_witness :
  hasButtons (page (runtimeOf appDocument {[ js "resumeFormData" := brokenText ]}))
  ∧ is_Some (document (page (runtimeOf appDocument
                               {[ js "resumeFormData" := brokenText ]}))
               !! (js "theme-"
                   ++ savedTheme (page (runtimeOf appDocument
                                          {[ js "resumeFormData" := brokenText ]}))))
  ∧ outcome (new_ResumeBuilder (host := refJSON integerNumber))
      (runtimeOf appDocument {[ js "resumeFormData" := brokenText ]})
    = Normal ().
Proof.
  assert (H1 : hasButtons
    (page (runtimeOf appDocument {[ js "resumeFormData" := brokenText ]})))
    by (apply (bool_decide_unpack _); vm_compute; exact I).
  assert (H2 : is_Some
    (document (page (runtimeOf appDocument
                       {[ js "resumeFormData" := brokenText ]}))
       !! (js "theme-"
           ++ savedTheme (page (runtimeOf appDocument
                                  {[ js "resumeFormData" := brokenText ]})))))
    by (vm_compute; eauto).
  split; [exact H1|]. split; [exact H2|].
  exact (proj1 (new_ResumeBuilder_completes (host := refJSON integerNumber)
                  _ H1 (or_intror H2))).
Defined.

Lemma new_ResumeBuilder_unknown_theme_witness :
  hasButtons (page (runtimeOf appDocument {[ js "resumeTheme" := js "dark" ]}))
  ∧ is_Some (document (page (runtimeOf appDocument
                               {[ js "resumeTheme" := js "dark" ]}))
               !! js "theme-stylesheet")
  ∧ document (page (runtimeOf appDocument {[ js "resumeTheme" := js "dark" ]}))
      !! (js "theme-"
          ++ savedTheme (page (runtimeOf appDocument
                                 {[ js "resumeTheme" := js "dark" ]})))
    = None
  ∧ outcome (new_ResumeBuilder (host := refJSON integerNumber))
      (runtimeOf appDocument {[ js "resumeTheme" := js "dark" ]})
    = Throw TypeError.
Proof.
  assert (H1 : hasButtons
    (page (runtimeOf appDocument {[ js "resumeTheme" := js "dark" ]})))
    by (apply (bool_decide_unpack _); vm_compute; exact I).
  assert (H2 : is_Some
    (document (page (runtimeOf appDocument {[ js "resumeTheme" := js "dark" ]}))
       !! js "theme-stylesheet")) by (vm_compute; eauto).
  assert (H3 : document
      (page (runtimeOf appDocument {[ js "resumeTheme" := js "dark" ]}))
      !! (js "theme-"
          ++ savedTheme (page (runtimeOf appDocument
                                 {[ js "resumeTheme" := js "dark" ]})))
    = None) by (vm_compute; reflexivity).
  split; [exact H1|]. split; [exact H2|]. split; [exact H3|].
  exact (proj1 (new_ResumeBuilder_unknown_theme (host := refJSON integerNumber)
                  _ H1 H2 H3)).
Defined.

Section unload.
Context {host : JSONHost}.

Lemma initializeTheme_Normal st :
  document st !! js "theme-stylesheet" = None
  ∨ is_Some (document st !! (js "theme-" ++ savedTheme st)) →
  initializeTheme st = (Normal (), exec initializeTheme st).
Proof.
  intros Htheme. unfold exec. rewrite initializeTheme_eq.
  destruct (document st !! js "theme-stylesheet") as [ss|] eqn:Hss.
  - destruct Htheme as [[=]|Hbtn].
    by rewrite switchTheme_eq by (rewrite ?Hss; eauto).
  - by rewrite switchTheme_no_stylesheet.
Qed.

Lemma loaded_theme st :
  document st !! js "theme-stylesheet" = None
  ∨ is_Some (document st !! (js "theme-" ++ savedTheme st)) →
  document (loaded st) !! js "theme-stylesheet" = None
  ∨ is_Some (document (loaded st) !! (js "theme-" ++ savedTheme (loaded st))).
Proof.
  rewrite savedTheme_loaded. unfold loaded. intros [Hss|Hbtn].
  - left. apply eq_None_not_Some. rewrite loadFromStorage_present.
    cbn [document with_currentTheme]. rewrite Hss. by intros [? [=]].
  - right. by rewrite loadFromStorage_present.
Qed.

(** X25: the [beforeunload] handler builds a new [ResumeBuilder] before it
    saves, which loads the stored snapshot into the inputs first. With a
    well-formed snapshot stored, the snapshot saved on unload has, for each
    mapped input on the page, the stored value when that is a non-empty
    string, and the live value of the input only otherwise. *)
Theorem onBeforeUnload_saves rt s formData :
  hasButtons (page rt) →
  document (page rt) !! js "theme-stylesheet" = None
  ∨ is_Some (document (page rt) !! (js "theme-" ++ savedTheme (page rt))) →
  localStorage (page rt) !! js "resumeFormData" = Some s →
  s ≠ [] →
  JSON_parse s = Some (snapshotValue formData) →
  outcome onBeforeUnload rt = Normal ()
  ∧ ∃ saved,
      localStorage (page (started onBeforeUnload rt)) !! js "resumeFormData"
      = Some (JSON_stringify saved)
      ∧ Object_keys saved
        = filter (λ id, is_Some (document (page rt) !! id))
            (Object_keys fieldMappings)
      ∧ ∀ id, id ∈ Object_keys saved →
          get saved id
          = match get formData id with
            | Some (c :: v) => Some (c :: v)
            | _ => valueOf (page rt) id
            end.
Proof.
  intros Hbuttons Htheme Hstored Hne Hparse.
  unfold outcome, started, onBeforeUnload.
  erewrite boot_Normal.
  2:{ rewrite new_ResumeBuilder_eq by done. unfold completion.
      by rewrite initializeTheme_Normal by (by apply loaded_theme). }
  erewrite liftJS_eq by apply saveToStorage_eq.
  cbn [fst snd page localStorage with_localStorage]. split; [done|].
  set (st2 := exec initializeTheme (loaded (page rt))).
  assert (Hpresent : ∀ id, is_Some (document st2 !! id)
                           ↔ is_Some (document (page rt) !! id)).
  { intros id. unfold st2. rewrite (proj1 (initializeTheme_page _)).
    unfold loaded. by rewrite loadFromStorage_present. }
  exists (omap (λ id, el ← document st2 !! id; Some (id, value el))
            (Object_keys fieldMappings)).
  split_and!.
  - rewrite lookup_insert_eq.
    rewrite collected_fresh;
      [done|apply fieldMappings_NoDup|by intros k _ ?%elem_of_nil].
  - rewrite Object_keys_collected. apply list_filter_iff. intros id.
    apply Hpresent.
  - intros id Hid. pose proof Hid as Hkey%collected_keys.
    rewrite Object_keys_collected in Hid.
    apply list_elem_of_filter in Hid as [Hid _]. apply Hpresent in Hid.
    rewrite collected_get by done.
    change (value <$> document st2 !! id) with (valueOf st2 id).
    unfold st2. rewrite (proj1 (proj2 (initializeTheme_page _))).
    unfold valueOf, loaded, exec.
    erewrite loadFromStorage_on_snapshot by done.
    cbn [snd document with_document with_currentTheme].
    rewrite loadWrites_value. destruct Hid as [el ->].
    by destruct (get formData id) as [[|c v]|].
Qed.

(** X26: when the constructor throws (a button is missing, or the stored
    theme has no button), the [beforeunload] handler throws the
    [TypeError] before [saveToStorage] is reached: the storage is
    unchanged. *)
Theorem onBeforeUnload_aborts rt :
  ¬ hasButtons (page rt)
  ∨ (hasButtons (page rt)
     ∧ is_Some (document (page rt) !! js "theme-stylesheet")
     ∧ document (page rt) !! (js "theme-" ++ savedTheme (page rt)) = None) →
  outcome onBeforeUnload rt = Throw TypeError
  ∧ localStorage (page (started onBeforeUnload rt)) = localStorage (page rt).
Proof.
  intros Hcase. unfold outcome, started, onBeforeUnload.
  destruct Hcase as [Hbuttons|(Hbuttons & Hss & Hbtn)].
  - unfold new_ResumeBuilder, init.
    set (rt0 := {| page := with_currentTheme (js "modern") (page rt);
                   listeners := listeners rt |}).
    destruct (setupEventListeners_throws rt0) as [Hthrow Hpage]; [done|].
    unfold outcome, started in Hthrow, Hpage.
    destruct (setupEventListeners rt0) as [c rt1] eqn:Hsetup.
    cbn [fst snd] in Hthrow, Hpage. subst c.
    erewrite boot_Throw.
    2:{ erewrite boot_Normal by reflexivity.
        erewrite boot_Throw by exact Hsetup. reflexivity. }
    cbn [fst snd]. by rewrite Hpage.
  - erewrite boot_Throw.
    2:{ rewrite new_ResumeBuilder_eq by done. unfold completion, exec.
        rewrite initializeTheme_eq, savedTheme_loaded.
        rewrite switchTheme_throws; [reflexivity|..].
        - unfold loaded. by rewrite loadFromStorage_present.
        - apply eq_None_not_Some. unfold loaded.
          rewrite loadFromStorage_present. cbn [document with_currentTheme].
          rewrite Hbtn. by intros [? [=]]. }
    cbn [fst snd page localStorage with_document with_currentTheme].
    split; [done|]. unfold loaded. by rewrite loadFromStorage_localStorage.
Qed.

End unload.

Lemma onBeforeUnload_saves_witness :
  let rt := runtimeOf (alter (with_value (js "Bob")) (js "input-name") appDocument)
              {[ js "resumeFormData" := adaNameText ]} in
  hasButtons (page rt)
  ∧ is_Some (document (page rt) !! (js "theme-" ++ savedTheme (page rt)))
  ∧ localStorage (page rt) !! js "resumeFormData" = Some adaNameText
  ∧ adaNameText ≠ []
  ∧ JSON_parse (JSONHost := refJSON integerNumber) adaNameText
    = Some (snapshotValue [(js "input-name", js "Ada")])
  ∧ valueOf (page rt) (js "input-name") = Some (js "Bob")
  ∧ outcome (onBeforeUnload (host := refJSON integerNumber)) rt = Normal ()
  ∧ ∃ saved,
      localStorage (page (started (onBeforeUnload (host := refJSON integerNumber)) rt))
        !! js "resumeFormData"
      = Some (JSON_stringify (JSONHost := refJSON integerNumber) saved)
      ∧ get saved (js "input-name") = Some (js "Ada").
Proof.
  intros rt.
  assert (H1 : hasButtons (page rt))
    by (apply (bool_decide_unpack _); vm_compute; exact I).
  assert (H2 : is_Some (document (page rt)
                          !! (js "theme-" ++ savedTheme (page rt))))
    by (vm_compute; eauto).
  assert (H3 : localStorage (page rt) !! js "resumeFormData" = Some adaNameText)
    by (vm_compute; reflexivity).
  assert (H4 : adaNameText ≠ []) by (vm_compute; discriminate).
  assert (H5 : JSON_parse (JSONHost := refJSON integerNumber) adaNameText
               = Some (snapshotValue [(js "input-name", js "Ada")]))
    by (vm_compute; reflexivity).
  split; [exact H1|]. split; [exact H2|]. split; [exact H3|].
  split; [exact H4|]. split; [exact H5|].
  split; [vm_compute; reflexivity|].
  destruct (onBeforeUnload_saves (host := refJSON integerNumber)
              rt adaNameText [(js "input-name", js "Ada")]
              H1 (or_intror H2) H3 H4 H5) as (Hout & saved & Hsaved & Hkeys & Hget).
  split; [exact Hout|]. exists saved. split; [exact Hsaved|].
  apply (Hget (js "input-name")). rewrite Hkeys.
  apply (bool_decide_unpack _). vm_compute. exact I.
Defined.

Lemma onBeforeUnload_aborts_witness :
  ¬ hasButtons (page (runtimeOf freshDocument ∅))
  ∧ outcome (onBeforeUnload (host := refJSON integerNumber))
      (runtimeOf freshDocument ∅)
    = Throw TypeError.
Proof.
  assert (H1 : ¬ hasButtons (page (runtimeOf freshDocument ∅)))
    by (apply (bool_decide_eq_false _); vm_compute; reflexivity).
  split; [exact H1|].
  exact (proj1 (onBeforeUnload_aborts (host := refJSON integerNumber)
                  _ (or_introl H1))).
Defined.
